(** * OxyGent management console: a model of the browser scripts

    The console is a set of page scripts (agents, workflows, tools, system
    configuration and the shared [apiRequest] / [showToast] helpers).  They
    keep their state in global variables and in the page, and every network
    call is an [await apiRequest(...)].

    The model below follows the scripts function by function:
    - the global variables, the form controls the scripts read and write,
      the toast and alert surfaces and the log of issued requests are the
      fields of one record, [app];
    - a function that awaits a request is split at its [await]: the part that
      runs synchronously up to the [fetch] keeps the function's name, and
      the part that runs once the request settles is its [_resume];
    - what the network answers is an input ([fetch_result]);
    - the page runs on one thread, so a run of the console is a list of
      events (calls and settled requests), interleaved as the browser
      would. *)

From Stdlib Require Import Bool Arith ZArith List String Ascii Lia.
From Stdlib Require Decimal DecimalString DecimalN DecimalZ.
Import ListNotations.

Local Open Scope string_scope.
Local Open Scope list_scope.
Local Open Scope nat_scope.

(** ** JavaScript primitives used by the scripts

    Strings are byte strings: the model covers ASCII text, where
    [toLowerCase] only touches the letters [A]-[Z]. *)

Module JS.

Definition lower_char (c : ascii) : ascii :=
  let n := nat_of_ascii c in
  if (65 <=? n) && (n <=? 90) then ascii_of_nat (n + 32) else c.

(** [s.toLowerCase()] *)
Fixpoint toLowerCase (s : string) : string :=
  match s with
  | EmptyString => EmptyString
  | String c r => String (lower_char c) (toLowerCase r)
  end.

(** [s.includes(t)]: [t] occurs in [s] at some position. *)
Fixpoint includes (s t : string) : bool :=
  String.prefix t s ||
  match s with
  | EmptyString => false
  | String _ r => includes r t
  end.

(** Truthiness of a string: every string but the empty one. *)
Definition truthy (s : string) : bool :=
  match s with
  | EmptyString => false
  | String _ _ => true
  end.

(** [a || b] on strings, where [a] may be [undefined]. *)
Definition or_else (a : option string) (b : string) : string :=
  match a with
  | Some s => if truthy s then s else b
  | None => b
  end.

(** [xs.includes(x)] on an array of strings. *)
Definition array_includes (xs : list string) (x : string) : bool :=
  existsb (String.eqb x) xs.

(** [xs.join(sep)] *)
Definition join (sep : string) (xs : list string) : string :=
  String.concat sep xs.

(** [xs.splice(index, 1)], for an index that is not negative: the element
    at [index] is removed; an index past the end removes nothing. *)
Definition splice1 {A} (index : nat) (xs : list A) : list A :=
  firstn index xs ++ skipn (S index) xs.

(** A number as the scripts meet them: an integer, or [NaN]. *)
Inductive number :=
  | NaN
  | Int (z : Z).

(** [String(z)] for an integer [z].  Exact for the safe integers
    (at most [2^53 - 1] in absolute value). *)
Definition Number_toString (z : Z) : string :=
  DecimalString.NilEmpty.string_of_int (Z.to_int z).

Definition is_space (c : ascii) : bool :=
  let n := nat_of_ascii c in
  (n =? 32) || ((9 <=? n) && (n <=? 13)).

Fixpoint trim_start (s : string) : string :=
  match s with
  | EmptyString => EmptyString
  | String c r => if is_space c then trim_start r else s
  end.

Definition digit_value (radix : Z) (c : ascii) : option Z :=
  let n := Z.of_nat (nat_of_ascii c) in
  let v :=
    (if (48 <=? n) && (n <=? 57) then n - 48
     else if (97 <=? n) && (n <=? 122) then n - 87
     else if (65 <=? n) && (n <=? 90) then n - 55
     else 36)%Z in
  if (v <? radix)%Z then Some v else None.

(** The longest run of digits at the head of [s], read most significant
    digit first on top of [acc]. *)
Fixpoint parse_digits (radix : Z) (acc : Z) (s : string) : Z :=
  match s with
  | EmptyString => acc
  | String c r =>
      match digit_value radix c with
      | Some v => parse_digits radix (acc * radix + v)%Z r
      | None => acc
      end
  end.

Definition starts_with_digit (radix : Z) (s : string) : bool :=
  match s with
  | EmptyString => false
  | String c _ => match digit_value radix c with Some _ => true | None => false end
  end.

Definition parse_unsigned (s : string) : option Z :=
  match s with
  | String "0" (String x r) =>
      if (Ascii.eqb x "x" || Ascii.eqb x "X")%char then
        if starts_with_digit 16%Z r then Some (parse_digits 16 0 r)%Z else None
      else Some (parse_digits 10 0 s)%Z
  | _ => if starts_with_digit 10%Z s then Some (parse_digits 10 0 s)%Z else None
  end.

(** [parseInt(s)]: leading white space, an optional sign, then the digits
    (hexadecimal after [0x]); whatever follows the digits is ignored, and
    no digit at all gives [NaN].  The integer is the one the digits denote:
    exact for the safe integers (at most [2^53 - 1] in absolute value),
    beyond which JavaScript rounds to the nearest double.  The properties
    that read a number keep to the safe integers. *)
Definition parseInt (s : string) : number :=
  match trim_start s with
  | String "-" r =>
      match parse_unsigned r with Some z => Int (- z)%Z | None => NaN end
  | String "+" r =>
      match parse_unsigned r with Some z => Int z | None => NaN end
  | r => match parse_unsigned r with Some z => Int z | None => NaN end
  end.

End JS.

(** ** JSON text, as [JSON.parse] reads it *)

Module Json.

(** A number keeps its literal text. *)
#[warnings="-register-all"]
Inductive json :=
  | JNull
  | JBool (b : bool)
  | JNum (literal : string)
  | JStr (s : string)
  | JArr (items : list json)
  | JObj (members : list (string * json)).

(** The quotation mark that delimits a string. *)
Definition quote : ascii := ascii_of_nat 34.

Definition is_ws (c : ascii) : bool :=
  let n := nat_of_ascii c in
  (n =? 32) || (n =? 9) || (n =? 10) || (n =? 13).

Fixpoint skip_ws (l : list ascii) : list ascii :=
  match l with
  | c :: r => if is_ws c then skip_ws r else l
  | [] => []
  end.

Definition is_digit (c : ascii) : bool :=
  let n := nat_of_ascii c in (48 <=? n) && (n <=? 57).

Fixpoint take_digits (l : list ascii) : list ascii * list ascii :=
  match l with
  | c :: r =>
      if is_digit c then let (d, t) := take_digits r in (c :: d, t)
      else ([], l)
  | [] => ([], [])
  end.

(** The text after [c], when the text starts with [c]. *)
Definition eat (c : ascii) (l : list ascii) : option (list ascii) :=
  match l with
  | d :: r => if Ascii.eqb d c then Some r else None
  | [] => None
  end.

(** int = 0 | digit1-9 digits *)
Definition int_part (l : list ascii) : option (list ascii * list ascii) :=
  match eat "0" l with
  | Some r => Some (["0"%char], r)
  | None =>
      match take_digits l with
      | ([], _) => None
      | (d, r) => Some (d, r)
      end
  end.

(** frac = . digits *)
Definition frac_part (l : list ascii) : option (list ascii * list ascii) :=
  match eat "." l with
  | Some r =>
      match take_digits r with
      | ([], _) => None
      | (d, t) => Some ("."%char :: d, t)
      end
  | None => Some ([], l)
  end.

(** exp = (e | E) [+ | -] digits *)
Definition exp_part (l : list ascii) : option (list ascii * list ascii) :=
  match l with
  | e :: r =>
      if (Ascii.eqb e "e" || Ascii.eqb e "E")%char then
        let (sg, r1) :=
          match r with
          | s :: t =>
              if (Ascii.eqb s "+" || Ascii.eqb s "-")%char then ([s], t)
              else ([], r)
          | [] => ([], r)
          end in
        match take_digits r1 with
        | ([], _) => None
        | (d, t) => Some (e :: sg ++ d, t)
        end
      else Some ([], l)
  | [] => Some ([], l)
  end.

(** number = [-] int [frac] [exp] *)
Definition parse_number (l : list ascii) : option (list ascii * list ascii) :=
  let (sign, l1) :=
    match eat "-" l with
    | Some r => (["-"%char], r)
    | None => ([], l)
    end in
  match int_part l1 with
  | None => None
  | Some (i, l2) =>
      match frac_part l2 with
      | None => None
      | Some (f, l3) =>
          match exp_part l3 with
          | None => None
          | Some (x, l4) => Some (sign ++ i ++ f ++ x, l4)
          end
      end
  end.

Definition hex_value (c : ascii) : option nat :=
  let n := nat_of_ascii c in
  if (48 <=? n) && (n <=? 57) then Some (n - 48)
  else if (97 <=? n) && (n <=? 102) then Some (n - 87)
  else if (65 <=? n) && (n <=? 70) then Some (n - 55)
  else None.

(** The bytes (UTF-8) of a code unit written [\uXXXX]. *)
Definition utf8 (n : nat) : list ascii :=
  if n <? 128 then [ascii_of_nat n]
  else if n <? 2048 then
    [ascii_of_nat (192 + n / 64); ascii_of_nat (128 + n mod 64)]
  else
    [ascii_of_nat (224 + n / 4096); ascii_of_nat (128 + (n / 64) mod 64);
     ascii_of_nat (128 + n mod 64)].

(** The character a one-letter escape stands for. *)
Definition escape (e : ascii) : option ascii :=
  if Ascii.eqb e quote then Some quote
  else if Ascii.eqb e "\"%char then Some "\"%char
  else if Ascii.eqb e "/"%char then Some "/"%char
  else if Ascii.eqb e "b"%char then Some (ascii_of_nat 8)
  else if Ascii.eqb e "f"%char then Some (ascii_of_nat 12)
  else if Ascii.eqb e "n"%char then Some (ascii_of_nat 10)
  else if Ascii.eqb e "r"%char then Some (ascii_of_nat 13)
  else if Ascii.eqb e "t"%char then Some (ascii_of_nat 9)
  else None.

(** The characters of a string literal, after the opening quote. *)
Fixpoint parse_chars (l : list ascii) : option (list ascii * list ascii) :=
  match l with
  | [] => None
  | c :: r =>
      if Ascii.eqb c quote then Some ([], r)
      else if nat_of_ascii c <? 32 then None
      else if Ascii.eqb c "\"%char then
        match r with
        | e :: r1 =>
            if Ascii.eqb e "u"%char then
              match r1 with
              | h1 :: h2 :: h3 :: h4 :: r2 =>
                  match hex_value h1, hex_value h2, hex_value h3, hex_value h4,
                        parse_chars r2 with
                  | Some a, Some b, Some c', Some d, Some (s, t) =>
                      Some (utf8 (((a * 16 + b) * 16 + c') * 16 + d) ++ s, t)
                  | _, _, _, _, _ => None
                  end
              | _ => None
              end
            else
              match escape e, parse_chars r1 with
              | Some x, Some (s, t) => Some (x :: s, t)
              | _, _ => None
              end
        | [] => None
        end
      else
        match parse_chars r with
        | Some (s, t) => Some (c :: s, t)
        | None => None
        end
  end.

(** The text after [word], when the text starts with [word]. *)
Fixpoint literal (word : list ascii) (l : list ascii) : option (list ascii) :=
  match word with
  | [] => Some l
  | c :: w =>
      match eat c l with
      | Some r => literal w r
      | None => None
      end
  end.

(** How far a parser got. *)
Inductive parsed (A : Type) :=
  | Done (a : A) (rest : list ascii)
  | Malformed
  | OutOfFuel.
Arguments Done {A} a rest.
Arguments Malformed {A}.
Arguments OutOfFuel {A}.

Definition keyword (word : string) (v : json) (l : list ascii) : parsed json :=
  match literal (list_ascii_of_string word) l with
  | Some r => Done v r
  | None => Malformed
  end.

Definition starts_with (c : ascii) (l : list ascii) : bool :=
  match eat c l with Some _ => true | None => false end.

(** A value, its leading white space included.  [fuel] bounds the number of
    nested calls (see [JSON_parse_fuel]). *)
Fixpoint parse_value (fuel : nat) (l : list ascii) : parsed json :=
  match fuel with
  | O => OutOfFuel
  | S f =>
      match skip_ws l with
      | [] => Malformed
      | c :: r =>
          if Ascii.eqb c "{"%char then
            match eat "}" (skip_ws r) with
            | Some t => Done (JObj []) t
            | None => parse_members f r []
            end
          else if Ascii.eqb c "["%char then
            match eat "]" (skip_ws r) with
            | Some t => Done (JArr []) t
            | None => parse_elements f r []
            end
          else if Ascii.eqb c quote then
            match parse_chars r with
            | Some (s, t) => Done (JStr (string_of_list_ascii s)) t
            | None => Malformed
            end
          else if Ascii.eqb c "t"%char then keyword "true" (JBool true) (c :: r)
          else if Ascii.eqb c "f"%char then keyword "false" (JBool false) (c :: r)
          else if Ascii.eqb c "n"%char then keyword "null" JNull (c :: r)
          else
            match parse_number (c :: r) with
            | Some (n, t) => Done (JNum (string_of_list_ascii n)) t
            | None => Malformed
            end
      end
  end

with parse_elements (fuel : nat) (l : list ascii) (acc : list json) : parsed json :=
  match fuel with
  | O => OutOfFuel
  | S f =>
      match parse_value f l with
      | Done v r =>
          match skip_ws r with
          | c :: t =>
              if Ascii.eqb c ","%char then parse_elements f t (v :: acc)
              else if Ascii.eqb c "]"%char then Done (JArr (List.rev (v :: acc))) t
              else Malformed
          | [] => Malformed
          end
      | Malformed => Malformed
      | OutOfFuel => OutOfFuel
      end
  end

with parse_members (fuel : nat) (l : list ascii) (acc : list (string * json))
  : parsed json :=
  match fuel with
  | O => OutOfFuel
  | S f =>
      match eat quote (skip_ws l) with
      | None => Malformed
      | Some r =>
          match parse_chars r with
          | None => Malformed
          | Some (k, r1) =>
              match eat ":" (skip_ws r1) with
              | None => Malformed
              | Some r2 =>
                  match parse_value f r2 with
                  | Done v r3 =>
                      let m := (string_of_list_ascii k, v) in
                      match skip_ws r3 with
                      | c :: t =>
                          if Ascii.eqb c ","%char then parse_members f t (m :: acc)
                          else if Ascii.eqb c "}"%char
                               then Done (JObj (List.rev (m :: acc))) t
                          else Malformed
                      | [] => Malformed
                      end
                  | Malformed => Malformed
                  | OutOfFuel => OutOfFuel
                  end
              end
          end
      end
  end.

(** A parser hands back no more text than it was given. *)
Definition shrinks (p : parsed json) (l : list ascii) : Prop :=
  match p with
  | Done _ r => List.length r <= List.length l
  | _ => True
  end.

(** [JSON.parse(text)]: [None] stands for the [SyntaxError] it throws. *)
Definition JSON_parse (text : string) : option json :=
  let l := list_ascii_of_string text in
  match parse_value (2 * List.length l + 2) l with
  | Done v r => match skip_ws r with [] => Some v | _ :: _ => None end
  | Malformed => None
  | OutOfFuel => None
  end.

End Json.

Import JS Json.


(** ** Records exchanged with the backend

    A member the scripts test before use ([if (agent.tools)],
    [agent.description || '']) is optional; [None] is [undefined]. *)

Module Agent.
Record t := mk {
  id : string;
  name : string;
  agent_type : string;
  description : option string;
  is_master : bool;
  tools : option (list string);
  sub_agents : option (list string);
  llm_model : option string;
  additional_prompt : option string;
  timeout : option Z;
  trust_mode : option bool;
  status : string
}.
End Agent.

Module Tool.
Record t := mk {
  id : string;
  name : string;
  tool_type : string;
  description : option string;
  status : string
}.
End Tool.

Module Workflow.
Record t := mk {
  id : string;
  name : string;
  description : option string;
  agents : list string;
  status : string
}.
End Workflow.

Module LlmConfig.
Record t := mk {
  name : string;
  api_key : string;
  base_url : string;
  model_name : string;
  default_params : list (string * json)
}.
End LlmConfig.

Module DbConfig.
Record t := mk {
  type : string;
  connection_string : string;
  config : list (string * json)
}.
End DbConfig.

Module SystemConfig.
Record t := mk {
  llm_configs : list LlmConfig.t;
  database_configs : list DbConfig.t;
  log_level : string;
  cache_dir : string;
  additional_config : list (string * json)
}.

Definition with_log_level (v : string) (c : t) : t :=
  mk (llm_configs c) (database_configs c) v (cache_dir c) (additional_config c).
Definition with_cache_dir (v : string) (c : t) : t :=
  mk (llm_configs c) (database_configs c) (log_level c) v (additional_config c).
Definition with_llm_configs (v : list LlmConfig.t) (c : t) : t :=
  mk v (database_configs c) (log_level c) (cache_dir c) (additional_config c).
Definition with_database_configs (v : list DbConfig.t) (c : t) : t :=
  mk (llm_configs c) v (log_level c) (cache_dir c) (additional_config c).
End SystemConfig.

(** The object [saveAgent] assembles from the form ([agentData]).
    [timeout] is [undefined] for a blank field, and [JSON.stringify] then
    leaves the member out. *)
Module AgentData.
Record t := mk {
  name : string;
  agent_type : string;
  description : string;
  is_master : bool;
  tools : list string;
  sub_agents : list string;
  llm_model : string;
  additional_prompt : string;
  timeout : option number;
  trust_mode : bool
}.
End AgentData.

(** What a validation answers. *)
Module Validation.
Record t := mk { is_valid : bool; messages : list string }.
End Validation.

(** What a test or a run answers: [output] is the text the script shows
    for the [output] member (interpolated for an agent test, passed through
    [JSON.stringify] for a tool test and a workflow run). *)
Module Outcome.
Record t := mk { output : string }.
End Outcome.

(** What an export answers. *)
Module Exported.
Record t := mk { download_url : string }.
End Exported.

(** ** The page *)

Inductive severity := success | error | warning.

Definition toast : Type := string * severity.

(** A table body: the rows, or the single explanatory row. *)
Inductive table (A : Type) :=
  | Placeholder (text : string)
  | Rows (rows : list A).
Arguments Placeholder {A} text.
Arguments Rows {A} rows.

(** An [<option>] of a [<select>]. *)
Module Opt.
Record t := mk { value : string; text : string; selected : bool }.

Definition with_selected (b : bool) (o : t) : t := mk (value o) (text o) b.

(** [Array.from(select.selectedOptions).map(option => option.value)] *)
Definition selected_values (options : list t) : list string :=
  map value (filter selected options).

(** [Array.from(select.options).forEach(option =>
       { option.selected = xs.includes(option.value); })] *)
Definition mark (xs : list string) (options : list t) : list t :=
  map (fun o => with_selected (array_includes xs (value o)) o) options.

(** A drop-down showing one option: reading [select.value] gives the value
    of the first selected option, or the empty string. *)
Definition get_value (options : list t) : string :=
  match find selected options with
  | Some o => value o
  | None => ""
  end.

(** [select.value = v]: the first option carrying [v] becomes the selected
    one; when none does, no option is selected. *)
Fixpoint set_value (v : string) (options : list t) : list t :=
  match options with
  | [] => []
  | o :: r =>
      if String.eqb (value o) v
      then with_selected true o :: map (with_selected false) r
      else with_selected false o :: set_value v r
  end.

(** The drop-down right after its options were replaced or the form was
    reset: it shows its first option. *)
Definition first_selected (options : list t) : list t :=
  match options with
  | [] => []
  | o :: r => with_selected true o :: map (with_selected false) r
  end.

Definition fresh (v txt : string) : t := mk v txt false.
End Opt.

(** The agent dialog: the controls [agents.js] reads and writes, by element
    id.  [agent_tools] and [agent_sub_agents] are multiple selects,
    [agent_llm_model] is a drop-down whose options the script builds; the
    other controls hold the last value written to them (the markup of the
    page is not part of the sources). *)
Module AgentForm.
Record t := mk {
  agent_name : string;
  agent_type : string;
  agent_description : string;
  agent_is_master : bool;
  agent_tools : list Opt.t;
  agent_sub_agents : list Opt.t;
  agent_llm_model : list Opt.t;
  agent_additional_prompt : string;
  agent_timeout : string;
  agent_trust_mode : bool;
  agent_modal_title : string;
  agent_modal : bool
}.
Definition set_agent_name v (x : t) : t :=
  mk v (agent_type x) (agent_description x) (agent_is_master x)
    (agent_tools x) (agent_sub_agents x) (agent_llm_model x)
    (agent_additional_prompt x) (agent_timeout x) (agent_trust_mode x)
    (agent_modal_title x) (agent_modal x).
Definition set_agent_type v (x : t) : t :=
  mk (agent_name x) v (agent_description x) (agent_is_master x)
    (agent_tools x) (agent_sub_agents x) (agent_llm_model x)
    (agent_additional_prompt x) (agent_timeout x) (agent_trust_mode x)
    (agent_modal_title x) (agent_modal x).
Definition set_agent_description v (x : t) : t :=
  mk (agent_name x) (agent_type x) v (agent_is_master x) (agent_tools x)
    (agent_sub_agents x) (agent_llm_model x) (agent_additional_prompt x)
    (agent_timeout x) (agent_trust_mode x) (agent_modal_title x)
    (agent_modal x).
Definition set_agent_is_master v (x : t) : t :=
  mk (agent_name x) (agent_type x) (agent_description x) v (agent_tools x)
    (agent_sub_agents x) (agent_llm_model x) (agent_additional_prompt x)
    (agent_timeout x) (agent_trust_mode x) (agent_modal_title x)
    (agent_modal x).
Definition set_agent_tools v (x : t) : t :=
  mk (agent_name x) (agent_type x) (agent_description x) (agent_is_master x)
    v (agent_sub_agents x) (agent_llm_model x) (agent_additional_prompt x)
    (agent_timeout x) (agent_trust_mode x) (agent_modal_title x)
    (agent_modal x).
Definition set_agent_sub_agents v (x : t) : t :=
  mk (agent_name x) (agent_type x) (agent_description x) (agent_is_master x)
    (agent_tools x) v (agent_llm_model x) (agent_additional_prompt x)
    (agent_timeout x) (agent_trust_mode x) (agent_modal_title x)
    (agent_modal x).
Definition set_agent_llm_model v (x : t) : t :=
  mk (agent_name x) (agent_type x) (agent_description x) (agent_is_master x)
    (agent_tools x) (agent_sub_agents x) v (agent_additional_prompt x)
    (agent_timeout x) (agent_trust_mode x) (agent_modal_title x)
    (agent_modal x).
Definition set_agent_additional_prompt v (x : t) : t :=
  mk (agent_name x) (agent_type x) (agent_description x) (agent_is_master x)
    (agent_tools x) (agent_sub_agents x) (agent_llm_model x) v
    (agent_timeout x) (agent_trust_mode x) (agent_modal_title x)
    (agent_modal x).
Definition set_agent_timeout v (x : t) : t :=
  mk (agent_name x) (agent_type x) (agent_description x) (agent_is_master x)
    (agent_tools x) (agent_sub_agents x) (agent_llm_model x)
    (agent_additional_prompt x) v (agent_trust_mode x) (agent_modal_title x)
    (agent_modal x).
Definition set_agent_trust_mode v (x : t) : t :=
  mk (agent_name x) (agent_type x) (agent_description x) (agent_is_master x)
    (agent_tools x) (agent_sub_agents x) (agent_llm_model x)
    (agent_additional_prompt x) (agent_timeout x) v (agent_modal_title x)
    (agent_modal x).
Definition set_agent_modal_title v (x : t) : t :=
  mk (agent_name x) (agent_type x) (agent_description x) (agent_is_master x)
    (agent_tools x) (agent_sub_agents x) (agent_llm_model x)
    (agent_additional_prompt x) (agent_timeout x) (agent_trust_mode x) v
    (agent_modal x).
Definition set_agent_modal v (x : t) : t :=
  mk (agent_name x) (agent_type x) (agent_description x) (agent_is_master x)
    (agent_tools x) (agent_sub_agents x) (agent_llm_model x)
    (agent_additional_prompt x) (agent_timeout x) (agent_trust_mode x)
    (agent_modal_title x) v.
End AgentForm.

Inductive http_method := GET | POST | PUT | DELETE.

(** The second argument of [JSON.stringify(data)] in [apiRequest]. *)
Inductive payload :=
  | BodyAgent (d : AgentData.t)
  | BodyConfig (c : SystemConfig.t)
  | BodyInput (input : string)
  | BodyInputData (input_data : json).

Module Request.
Record t := mk { url : string; method : http_method; body : option payload }.
End Request.

(** The point at which an awaited request was issued: what runs when it
    settles. *)
Inductive kont :=
  | KLoadAgents | KLoadToolsForAgent | KLoadLlmModels
  | KEditAgent (agentId : string)
  | KSaveAgent (updating : bool)
  | KTestAgent | KDeleteAgent
  | KLoadWorkflows | KRunWorkflow | KValidateWorkflow | KDeleteWorkflow
  | KLoadSystemConfig | KSaveGeneralSettings | KUpdateSystemConfig
  | KExportConfig | KRestartSystem
  | KLoadTools | KTestTool | KDeleteTool.

Record app := mkApp {
  agents : list Agent.t;
  editingAgentId : option string;
  workflows : list Workflow.t;
  systemConfig : option SystemConfig.t;
  tools : list Tool.t;
  agent_form : AgentForm.t;
  agent_list : table Agent.t;
  workflow_list : table Workflow.t;
  tool_list : table Tool.t;
  toasts : list toast;
  alerts : list string;
  requests : list Request.t;
  pending : list (nat * kont)
}.
Definition set_agents v (x : app) : app :=
  mkApp v (editingAgentId x) (workflows x) (systemConfig x) (tools x)
    (agent_form x) (agent_list x) (workflow_list x) (tool_list x) (toasts x)
    (alerts x) (requests x) (pending x).
Definition set_editingAgentId v (x : app) : app :=
  mkApp (agents x) v (workflows x) (systemConfig x) (tools x) (agent_form x)
    (agent_list x) (workflow_list x) (tool_list x) (toasts x) (alerts x)
    (requests x) (pending x).
Definition set_workflows v (x : app) : app :=
  mkApp (agents x) (editingAgentId x) v (systemConfig x) (tools x)
    (agent_form x) (agent_list x) (workflow_list x) (tool_list x) (toasts x)
    (alerts x) (requests x) (pending x).
Definition set_systemConfig v (x : app) : app :=
  mkApp (agents x) (editingAgentId x) (workflows x) v (tools x)
    (agent_form x) (agent_list x) (workflow_list x) (tool_list x) (toasts x)
    (alerts x) (requests x) (pending x).
Definition set_tools v (x : app) : app :=
  mkApp (agents x) (editingAgentId x) (workflows x) (systemConfig x) v
    (agent_form x) (agent_list x) (workflow_list x) (tool_list x) (toasts x)
    (alerts x) (requests x) (pending x).
Definition set_agent_form v (x : app) : app :=
  mkApp (agents x) (editingAgentId x) (workflows x) (systemConfig x)
    (tools x) v (agent_list x) (workflow_list x) (tool_list x) (toasts x)
    (alerts x) (requests x) (pending x).
Definition set_agent_list v (x : app) : app :=
  mkApp (agents x) (editingAgentId x) (workflows x) (systemConfig x)
    (tools x) (agent_form x) v (workflow_list x) (tool_list x) (toasts x)
    (alerts x) (requests x) (pending x).
Definition set_workflow_list v (x : app) : app :=
  mkApp (agents x) (editingAgentId x) (workflows x) (systemConfig x)
    (tools x) (agent_form x) (agent_list x) v (tool_list x) (toasts x)
    (alerts x) (requests x) (pending x).
Definition set_tool_list v (x : app) : app :=
  mkApp (agents x) (editingAgentId x) (workflows x) (systemConfig x)
    (tools x) (agent_form x) (agent_list x) (workflow_list x) v (toasts x)
    (alerts x) (requests x) (pending x).
Definition set_toasts v (x : app) : app :=
  mkApp (agents x) (editingAgentId x) (workflows x) (systemConfig x)
    (tools x) (agent_form x) (agent_list x) (workflow_list x) (tool_list x)
    v (alerts x) (requests x) (pending x).
Definition set_alerts v (x : app) : app :=
  mkApp (agents x) (editingAgentId x) (workflows x) (systemConfig x)
    (tools x) (agent_form x) (agent_list x) (workflow_list x) (tool_list x)
    (toasts x) v (requests x) (pending x).
Definition set_requests v (x : app) : app :=
  mkApp (agents x) (editingAgentId x) (workflows x) (systemConfig x)
    (tools x) (agent_form x) (agent_list x) (workflow_list x) (tool_list x)
    (toasts x) (alerts x) v (pending x).
Definition set_pending v (x : app) : app :=
  mkApp (agents x) (editingAgentId x) (workflows x) (systemConfig x)
    (tools x) (agent_form x) (agent_list x) (workflow_list x) (tool_list x)
    (toasts x) (alerts x) (requests x) v.

(** ** main.js: notifications and the request wrapper *)

Definition apiBaseUrl : string := "/api/v1".

(** [showToast(message, type = 'success', duration = 3000)].  The toast
    element shows one message at a time; [toasts] is the sequence of
    messages it was given. *)
Definition showToast (message : string) (type : severity) (s : app) : app :=
  set_toasts (toasts s ++ [(message, type)]) s.

(** [alert(message)] *)
Definition alert (message : string) (s : app) : app :=
  set_alerts (alerts s ++ [message]) s.

(** What [await response.json()] gives: the body, read as the caller goes
    on to use it, or the message of the error thrown while reading it. *)
Inductive body_result (A : Type) :=
  | Parsed (a : A)
  | Unparsable (message : string).
Arguments Parsed {A} a.
Arguments Unparsable {A} message.

(** How a [fetch] ends, as far as [apiRequest] looks at it: the transport
    fails with a message; or the status is not a success, and the body of
    the error is read for its [detail] member ([None] when it has none); or
    the status is a success. *)
Inductive fetch_result (A : Type) :=
  | FetchRejected (message : string)
  | HttpNotOk (errorData : body_result (option string))
  | HttpOk (body : body_result A).
Arguments FetchRejected {A} message.
Arguments HttpNotOk {A} errorData.
Arguments HttpOk {A} body.

(** How the promise of [apiRequest] ends. *)
Inductive api_result (A : Type) :=
  | Resolved (v : A)
  | Rejected (message : string).
Arguments Resolved {A} v.
Arguments Rejected {A} message.

Module Deleted.
Record t := mk { success : bool }.
End Deleted.

(** A successful [DELETE] answers the literal [{ success: true }]; the
    other methods answer the parsed body. *)
Definition api_value (method : http_method) (A : Type) : Type :=
  match method with
  | DELETE => Deleted.t
  | _ => A
  end.

(** [apiRequest] up to [await fetch(url, options)]: the request is issued
    and noted with the continuation of the caller that awaits it. *)
Definition apiRequest (endpoint : string) (method : http_method)
    (data : option payload) (k : kont) (s : app) : app :=
  let options_body :=
    match data, method with
    | Some d, POST => Some d
    | Some d, PUT => Some d
    | _, _ => None
    end in
  let request := Request.mk (apiBaseUrl ++ endpoint)%string method options_body in
  set_pending (pending s ++ [(List.length (requests s), k)])
    (set_requests (requests s ++ [request]) s).

(** The [catch] block of [apiRequest]: toast, then rethrow. *)
Definition apiRequest_catch {B} (message : string) (s : app) : app * api_result B :=
  (showToast message error s, Rejected message).

(** [apiRequest] from the point where [fetch] settles. *)
Definition apiRequest_resume {A} (method : http_method) (r : fetch_result A)
    (s : app) : app * api_result (api_value method A) :=
  match r with
  | FetchRejected message => apiRequest_catch message s
  | HttpNotOk (Unparsable message) => apiRequest_catch message s
  | HttpNotOk (Parsed detail) =>
      apiRequest_catch (or_else detail "API request failed") s
  | HttpOk body =>
      let parsed : app * api_result A :=
        match body with
        | Parsed a => (s, Resolved a)
        | Unparsable message => apiRequest_catch message s
        end in
      match method as m return app * api_result (api_value m A) with
      | DELETE => (s, Resolved (Deleted.mk true))
      | GET => parsed
      | POST => parsed
      | PUT => parsed
      end
  end.

(** ** agents.js *)

Definition mock_agents : list Agent.t :=
  [ Agent.mk "1" "time_agent" "react"
      (Some "An agent that provides time-related information") true
      None None None None None None "active";
    Agent.mk "2" "weather_agent" "chat"
      (Some "An agent that provides weather information") false
      None None None None None None "active";
    Agent.mk "3" "calculator_agent" "local"
      (Some "An agent that performs calculations") false
      None None None None None None "inactive" ].

Definition renderAgents (s : app) : app :=
  set_agent_list
    (match agents s with
     | [] => Placeholder "No agents found"
     | _ :: _ => Rows (agents s)
     end) s.

Definition loadAgents (s : app) : app :=
  apiRequest "/agents" GET None KLoadAgents s.

(** [loadAgents] from the point where the request settles, for a body of
    the expected shape: [renderAgents()] then runs to its end.  The bodies
    on which it throws are the matter of [loadAgents_answer]; the same goes
    for the loads of the tools, the workflows and the configuration. *)
Definition loadAgents_resume (r : fetch_result (list Agent.t)) (s : app) : app :=
  match apiRequest_resume GET r s with
  | (s1, Resolved v) => renderAgents (set_agents v s1)
  | (s1, Rejected _) => renderAgents (set_agents mock_agents s1)
  end.

(** The test both filters apply to the name and the description. *)
Definition matchesSearch (searchTerm name : string) (description : option string)
  : bool :=
  includes (toLowerCase name) searchTerm ||
  match description with
  | Some d => truthy d && includes (toLowerCase d) searchTerm
  | None => false
  end.

Definition matchesType (typeFilter type : string) : bool :=
  String.eqb typeFilter "" || String.eqb type typeFilter.

(** [const filteredAgents = agents.filter(...)] in [filterAgents], for the
    values read from the search box and the type filter. *)
Definition filteredAgents (search typeFilter : string) (l : list Agent.t)
  : list Agent.t :=
  let searchTerm := toLowerCase search in
  filter (fun agent =>
            matchesSearch searchTerm (Agent.name agent) (Agent.description agent)
            && matchesType typeFilter (Agent.agent_type agent)) l.

Definition renderFilteredAgents (filtered : list Agent.t) (s : app) : app :=
  set_agent_list
    (match filtered with
     | [] => Placeholder "No agents found"
     | _ :: _ => Rows filtered
     end) s.

Definition filterAgents (search typeFilter : string) (s : app) : app :=
  renderFilteredAgents (filteredAgents search typeFilter (agents s)) s.

Definition on_form (f : AgentForm.t -> AgentForm.t) (s : app) : app :=
  set_agent_form (f (agent_form s)) s.

(** Modelled from the spec: [document.getElementById('agent-form').reset()]
    puts every control back to the default of the page markup, which is not
    part of the sources; open-for-create "clears all form fields".  Text
    controls become empty, check boxes unchecked, no option of a multiple
    select stays selected, and the drop-down shows its first option. *)
Definition form_reset (f : AgentForm.t) : AgentForm.t :=
  AgentForm.mk "" "" "" false
    (map (Opt.with_selected false) (AgentForm.agent_tools f))
    (map (Opt.with_selected false) (AgentForm.agent_sub_agents f))
    (Opt.first_selected (AgentForm.agent_llm_model f))
    "" "" false
    (AgentForm.agent_modal_title f) (AgentForm.agent_modal f).

Definition loadToolsForAgent (s : app) : app :=
  apiRequest "/tools" GET None KLoadToolsForAgent s.

Definition mock_tool_options : list Opt.t :=
  [ Opt.fresh "1" "time_tools"; Opt.fresh "2" "weather_tools";
    Opt.fresh "3" "calculator_tools" ].

Definition loadToolsForAgent_resume (r : fetch_result (list Tool.t)) (s : app) : app :=
  match apiRequest_resume GET r s with
  | (s1, Resolved tools) =>
      on_form (AgentForm.set_agent_tools
                 (map (fun tool => Opt.fresh (Tool.id tool) (Tool.name tool)) tools)) s1
  | (s1, Rejected _) =>
      on_form (AgentForm.set_agent_tools mock_tool_options) s1
  end.

(** Declared [async] but without an [await]: it runs to its end at once. *)
Definition loadAgentsForSubAgents (s : app) : app :=
  on_form (AgentForm.set_agent_sub_agents
             (map (fun agent => Opt.fresh (Agent.id agent) (Agent.name agent))
                  (agents s))) s.

Definition loadLlmModels (s : app) : app :=
  apiRequest "/system/config" GET None KLoadLlmModels s.

Definition mock_llm_options : list Opt.t :=
  [ Opt.fresh "default_llm" "default_llm (example-model)";
    Opt.fresh "gpt4" "gpt4 (gpt-4)"; Opt.fresh "claude" "claude (claude-2)" ].

Definition loadLlmModels_resume (r : fetch_result SystemConfig.t) (s : app) : app :=
  match apiRequest_resume GET r s with
  | (s1, Resolved systemConfig) =>
      on_form (AgentForm.set_agent_llm_model
                 (Opt.first_selected
                    (map (fun llm =>
                            Opt.fresh (LlmConfig.name llm)
                              (LlmConfig.name llm ++ " (" ++ LlmConfig.model_name llm ++ ")")%string)
                         (SystemConfig.llm_configs systemConfig)))) s1
  | (s1, Rejected _) =>
      on_form (AgentForm.set_agent_llm_model (Opt.first_selected mock_llm_options)) s1
  end.

Definition openAgentModal (s : app) : app :=
  let s := on_form form_reset s in
  let s := on_form (AgentForm.set_agent_modal_title "Create Agent") s in
  let s := set_editingAgentId None s in
  let s := on_form (AgentForm.set_agent_modal true) s in
  let s := loadToolsForAgent s in
  let s := loadAgentsForSubAgents s in
  loadLlmModels s.

Definition editAgent (agentId : string) (s : app) : app :=
  apiRequest ("/agents/" ++ agentId)%string GET None (KEditAgent agentId) s.

(** The assignments of [editAgent] to the controls, in source order. *)
Definition populate (agent : Agent.t) (f : AgentForm.t) : AgentForm.t :=
  let f := AgentForm.set_agent_name (Agent.name agent) f in
  let f := AgentForm.set_agent_type (Agent.agent_type agent) f in
  let f := AgentForm.set_agent_description (or_else (Agent.description agent) "") f in
  let f := AgentForm.set_agent_is_master (Agent.is_master agent) f in
  let f := match Agent.tools agent with
           | Some tools => AgentForm.set_agent_tools (Opt.mark tools (AgentForm.agent_tools f)) f
           | None => f
           end in
  let f := match Agent.sub_agents agent with
           | Some sub_agents =>
               AgentForm.set_agent_sub_agents
                 (Opt.mark sub_agents (AgentForm.agent_sub_agents f)) f
           | None => f
           end in
  let f := match Agent.llm_model agent with
           | Some llm_model =>
               if truthy llm_model
               then AgentForm.set_agent_llm_model
                      (Opt.set_value llm_model (AgentForm.agent_llm_model f)) f
               else f
           | None => f
           end in
  let f := match Agent.additional_prompt agent with
           | Some additional_prompt =>
               if truthy additional_prompt
               then AgentForm.set_agent_additional_prompt additional_prompt f
               else f
           | None => f
           end in
  let f := match Agent.timeout agent with
           | Some timeout =>
               if (timeout =? 0)%Z then f
               else AgentForm.set_agent_timeout (Number_toString timeout) f
           | None => f
           end in
  let f := match Agent.trust_mode agent with
           | Some trust_mode => AgentForm.set_agent_trust_mode trust_mode f
           | None => f
           end in
  AgentForm.set_agent_modal_title "Edit Agent" f.

Definition editAgent_resume (agentId : string) (r : fetch_result Agent.t) (s : app)
  : app :=
  match apiRequest_resume GET r s with
  | (s1, Resolved agent) =>
      let s2 := on_form (populate agent) s1 in
      let s3 := set_editingAgentId (Some agentId) s2 in
      on_form (AgentForm.set_agent_modal true) s3
  | (s1, Rejected _) => showToast "Error loading agent details" error s1
  end.

(** [agentData], as [saveAgent] reads it off the form. *)
Definition agentData (f : AgentForm.t) : AgentData.t :=
  let timeout := AgentForm.agent_timeout f in
  AgentData.mk
    (AgentForm.agent_name f)
    (AgentForm.agent_type f)
    (AgentForm.agent_description f)
    (AgentForm.agent_is_master f)
    (Opt.selected_values (AgentForm.agent_tools f))
    (Opt.selected_values (AgentForm.agent_sub_agents f))
    (Opt.get_value (AgentForm.agent_llm_model f))
    (AgentForm.agent_additional_prompt f)
    (if truthy timeout then Some (parseInt timeout) else None)
    (AgentForm.agent_trust_mode f).

(** [if (editingAgentId)]: set, and not the empty string. *)
Definition editing (s : app) : option string :=
  match editingAgentId s with
  | Some id => if truthy id then Some id else None
  | None => None
  end.

Definition saveAgent (s : app) : app :=
  let data := Some (BodyAgent (agentData (agent_form s))) in
  match editing s with
  | Some id => apiRequest ("/agents/" ++ id)%string PUT data (KSaveAgent true) s
  | None => apiRequest "/agents" POST data (KSaveAgent false) s
  end.

Definition saveAgent_done (updating : bool) (s : app) : app :=
  let s := showToast (if updating then "Agent updated successfully"
                      else "Agent created successfully") success s in
  let s := on_form (AgentForm.set_agent_modal false) s in
  loadAgents s.

Definition saveAgent_resume (updating : bool) (r : fetch_result unit) (s : app) : app :=
  if updating then
    match apiRequest_resume PUT r s with
    | (s1, Resolved _) => saveAgent_done true s1
    | (s1, Rejected _) => showToast "Error saving agent" error s1
    end
  else
    match apiRequest_resume POST r s with
    | (s1, Resolved _) => saveAgent_done false s1
    | (s1, Rejected _) => showToast "Error saving agent" error s1
    end.

(** [testInput] is what [prompt] returned: [None] when it was dismissed. *)
Definition testAgent (agentId : string) (testInput : option string) (s : app) : app :=
  match testInput with
  | Some input =>
      if truthy input
      then apiRequest ("/agents/" ++ agentId ++ "/test")%string POST
             (Some (BodyInput input)) KTestAgent s
      else s
  | None => s
  end.

Definition testAgent_resume (r : fetch_result Outcome.t) (s : app) : app :=
  match apiRequest_resume POST r s with
  | (s1, Resolved testResult) =>
      alert ("Test Result: " ++ Outcome.output testResult)%string s1
  | (s1, Rejected _) => showToast "Error testing agent" error s1
  end.

(** [confirmed] is what [confirm] returned. *)
Definition deleteAgent (agentId : string) (confirmed : bool) (s : app) : app :=
  if confirmed
  then apiRequest ("/agents/" ++ agentId)%string DELETE None KDeleteAgent s
  else s.

Definition deleteAgent_resume (r : fetch_result unit) (s : app) : app :=
  match apiRequest_resume DELETE r s with
  | (s1, Resolved _) => loadAgents (showToast "Agent deleted successfully" success s1)
  | (s1, Rejected _) => showToast "Error deleting agent" error s1
  end.

(** ** workflows.js *)

Definition mock_workflows : list Workflow.t :=
  [ Workflow.mk "1" "weather_forecast"
      (Some "A workflow for getting weather forecasts") ["1"; "2"] "active";
    Workflow.mk "2" "time_calculator"
      (Some "A workflow for time-based calculations") ["1"; "3"] "active";
    Workflow.mk "3" "data_processor"
      (Some "A workflow for processing data") ["2"; "3"] "inactive" ].

Definition renderWorkflows (s : app) : app :=
  set_workflow_list
    (match workflows s with
     | [] => Placeholder "No workflows found"
     | _ :: _ => Rows (workflows s)
     end) s.

Definition loadWorkflows (s : app) : app :=
  apiRequest "/workflows" GET None KLoadWorkflows s.

Definition loadWorkflows_resume (r : fetch_result (list Workflow.t)) (s : app) : app :=
  match apiRequest_resume GET r s with
  | (s1, Resolved v) => renderWorkflows (set_workflows v s1)
  | (s1, Rejected _) => renderWorkflows (set_workflows mock_workflows s1)
  end.

Definition filteredWorkflows (search : string) (l : list Workflow.t)
  : list Workflow.t :=
  let searchTerm := toLowerCase search in
  filter (fun workflow =>
            matchesSearch searchTerm (Workflow.name workflow)
              (Workflow.description workflow)) l.

Definition renderFilteredWorkflows (filtered : list Workflow.t) (s : app) : app :=
  set_workflow_list
    (match filtered with
     | [] => Placeholder "No workflows found"
     | _ :: _ => Rows filtered
     end) s.

Definition filterWorkflows (search : string) (s : app) : app :=
  renderFilteredWorkflows (filteredWorkflows search (workflows s)) s.

Definition invalid_json_notice : string :=
  "Invalid JSON input. Please enter valid JSON.".

(** [runInput] is what [prompt] returned.  The request is built inside the
    inner [try], after [JSON.parse]. *)
Definition runWorkflow (workflowId : string) (runInput : option string) (s : app)
  : app :=
  match runInput with
  | Some input =>
      if truthy input then
        match JSON_parse input with
        | Some inputData =>
            apiRequest ("/workflows/" ++ workflowId ++ "/run")%string POST
              (Some (BodyInputData inputData)) KRunWorkflow s
        | None => alert invalid_json_notice s
        end
      else s
  | None => s
  end.

(** The [await] sits in the inner [try], whose [catch (parseError)] also
    receives a rejected request. *)
Definition runWorkflow_resume (r : fetch_result Outcome.t) (s : app) : app :=
  match apiRequest_resume POST r s with
  | (s1, Resolved runResult) =>
      alert ("Run Result: " ++ Outcome.output runResult)%string s1
  | (s1, Rejected _) => alert invalid_json_notice s1
  end.

Definition validateWorkflow (workflowId : string) (s : app) : app :=
  apiRequest ("/workflows/" ++ workflowId ++ "/validate")%string POST None
    KValidateWorkflow s.

Definition validateWorkflow_resume (r : fetch_result Validation.t) (s : app) : app :=
  match apiRequest_resume POST r s with
  | (s1, Resolved validationResult) =>
      if Validation.is_valid validationResult
      then showToast "Workflow is valid" success s1
      else showToast ("Workflow validation failed: "
                      ++ join ", " (Validation.messages validationResult))%string
             error s1
  | (s1, Rejected _) => showToast "Error validating workflow" error s1
  end.

Definition deleteWorkflow (workflowId : string) (confirmed : bool) (s : app) : app :=
  if confirmed
  then apiRequest ("/workflows/" ++ workflowId)%string DELETE None KDeleteWorkflow s
  else s.

Definition deleteWorkflow_resume (r : fetch_result unit) (s : app) : app :=
  match apiRequest_resume DELETE r s with
  | (s1, Resolved _) =>
      loadWorkflows (showToast "Workflow deleted successfully" success s1)
  | (s1, Rejected _) => showToast "Error deleting workflow" error s1
  end.

(** ** system.js *)

Definition mock_systemConfig : SystemConfig.t :=
  SystemConfig.mk
    [ LlmConfig.mk "default_llm" "***" "https://api.example.com" "example-model"
        [("temperature", JNum "0.7"); ("max_tokens", JNum "1000")] ]
    [ DbConfig.mk "elasticsearch" "http://localhost:9200"
        [("index_prefix", JStr "oxygent_")] ]
    "INFO" "/tmp/oxygent_cache"
    [("web_service_port", JNum "8000"); ("enable_monitoring", JBool true)].

Definition loadSystemConfig (s : app) : app :=
  apiRequest "/system/config" GET None KLoadSystemConfig s.

(** [renderSystemConfig] only writes to the configuration panels, which no
    other function reads back; the panels are not part of [app]. *)
Definition loadSystemConfig_resume (r : fetch_result SystemConfig.t) (s : app) : app :=
  match apiRequest_resume GET r s with
  | (s1, Resolved v) => set_systemConfig (Some v) s1
  | (s1, Rejected _) => set_systemConfig (Some mock_systemConfig) s1
  end.

(** [logLevel] and [cacheDir] are the values of the two inputs.  With
    [systemConfig] still [null] the first assignment throws and nothing
    else happens. *)
Definition saveGeneralSettings (logLevel cacheDir : string) (s : app) : app :=
  match systemConfig s with
  | None => s
  | Some c =>
      let c := SystemConfig.with_log_level logLevel c in
      let c := SystemConfig.with_cache_dir cacheDir c in
      apiRequest "/system/config" PUT (Some (BodyConfig c)) KSaveGeneralSettings
        (set_systemConfig (Some c) s)
  end.

Definition saveGeneralSettings_resume (r : fetch_result unit) (s : app) : app :=
  match apiRequest_resume PUT r s with
  | (s1, Resolved _) => showToast "Settings saved successfully" success s1
  | (s1, Rejected _) => showToast "Error saving settings" error s1
  end.

(** [apiRequest('/system/config', 'PUT', systemConfig)] sends the object
    only when it is not [null]. *)
Definition updateSystemConfig (s : app) : app :=
  apiRequest "/system/config" PUT (option_map BodyConfig (systemConfig s))
    KUpdateSystemConfig s.

Definition updateSystemConfig_resume (r : fetch_result unit) (s : app) : app :=
  match apiRequest_resume PUT r s with
  | (s1, Resolved _) =>
      loadSystemConfig (showToast "Configuration updated successfully" success s1)
  | (s1, Rejected _) => showToast "Error updating configuration" error s1
  end.

(** [index] is the row's [data-index]. *)
Definition deleteLlm (index : nat) (confirmed : bool) (s : app) : app :=
  if confirmed then
    match systemConfig s with
    | None => s
    | Some c =>
        updateSystemConfig
          (set_systemConfig
             (Some (SystemConfig.with_llm_configs
                      (splice1 index (SystemConfig.llm_configs c)) c)) s)
    end
  else s.

Definition deleteDatabase (index : nat) (confirmed : bool) (s : app) : app :=
  if confirmed then
    match systemConfig s with
    | None => s
    | Some c =>
        updateSystemConfig
          (set_systemConfig
             (Some (SystemConfig.with_database_configs
                      (splice1 index (SystemConfig.database_configs c)) c)) s)
    end
  else s.

Definition exportConfig (s : app) : app :=
  apiRequest "/system/export" GET None KExportConfig s.

Definition exportConfig_resume (r : fetch_result Exported.t) (s : app) : app :=
  match apiRequest_resume GET r s with
  | (s1, Resolved exportResult) =>
      alert ("Configuration exported successfully. Download URL: "
             ++ Exported.download_url exportResult)%string s1
  | (s1, Rejected _) => showToast "Error exporting configuration" error s1
  end.

Definition restartSystem (confirmed : bool) (s : app) : app :=
  if confirmed then apiRequest "/system/restart" POST None KRestartSystem s else s.

Definition restartSystem_resume (r : fetch_result unit) (s : app) : app :=
  match apiRequest_resume POST r s with
  | (s1, Resolved _) => showToast "System restart initiated" success s1
  | (s1, Rejected _) => showToast "Error restarting system" error s1
  end.

(** ** tools.js *)

Definition mock_tools : list Tool.t :=
  [ Tool.mk "1" "time_tools" "function"
      (Some "Tools for time-related operations") "active";
    Tool.mk "2" "weather_tools" "api"
      (Some "Tools for weather information") "active";
    Tool.mk "3" "calculator_tools" "function"
      (Some "Tools for mathematical calculations") "active";
    Tool.mk "4" "browser_tools" "mcp"
      (Some "Tools for browser automation") "inactive" ].

Definition renderTools (s : app) : app :=
  set_tool_list
    (match tools s with
     | [] => Placeholder "No tools found"
     | _ :: _ => Rows (tools s)
     end) s.

Definition loadTools (s : app) : app :=
  apiRequest "/tools" GET None KLoadTools s.

Definition loadTools_resume (r : fetch_result (list Tool.t)) (s : app) : app :=
  match apiRequest_resume GET r s with
  | (s1, Resolved v) => renderTools (set_tools v s1)
  | (s1, Rejected _) => renderTools (set_tools mock_tools s1)
  end.

Definition filteredTools (search typeFilter : string) (l : list Tool.t)
  : list Tool.t :=
  let searchTerm := toLowerCase search in
  filter (fun tool =>
            matchesSearch searchTerm (Tool.name tool) (Tool.description tool)
            && matchesType typeFilter (Tool.tool_type tool)) l.

Definition renderFilteredTools (filtered : list Tool.t) (s : app) : app :=
  set_tool_list
    (match filtered with
     | [] => Placeholder "No tools found"
     | _ :: _ => Rows filtered
     end) s.

Definition filterTools (search typeFilter : string) (s : app) : app :=
  renderFilteredTools (filteredTools search typeFilter (tools s)) s.

Definition testTool (toolId : string) (testInput : option string) (s : app) : app :=
  match testInput with
  | Some input =>
      if truthy input then
        match JSON_parse input with
        | Some inputData =>
            apiRequest ("/tools/" ++ toolId ++ "/test")%string POST
              (Some (BodyInputData inputData)) KTestTool s
        | None => alert invalid_json_notice s
        end
      else s
  | None => s
  end.

Definition testTool_resume (r : fetch_result Outcome.t) (s : app) : app :=
  match apiRequest_resume POST r s with
  | (s1, Resolved testResult) =>
      alert ("Test Result: " ++ Outcome.output testResult)%string s1
  | (s1, Rejected _) => alert invalid_json_notice s1
  end.

Definition deleteTool (toolId : string) (confirmed : bool) (s : app) : app :=
  if confirmed
  then apiRequest ("/tools/" ++ toolId)%string DELETE None KDeleteTool s
  else s.

Definition deleteTool_resume (r : fetch_result unit) (s : app) : app :=
  match apiRequest_resume DELETE r s with
  | (s1, Resolved _) => loadTools (showToast "Tool deleted successfully" success s1)
  | (s1, Rejected _) => showToast "Error deleting tool" error s1
  end.

(** ** main.js: start-up and navigation *)

(** The state of the page when its scripts have been read: the globals as
    initialised, the controls as the (absent) markup is taken to leave
    them, nothing shown, nothing requested. *)
Definition initial : app :=
  mkApp [] None [] None []
    (AgentForm.mk "" "" "" false [] [] [] "" "" false "" false)
    (Rows []) (Rows []) (Rows []) [] [] [] [].

(** The [DOMContentLoaded] handler, as far as the sources go: the section
    initialisers call their section's load, in this order
    ([initMasSection] belongs to a script that is not part of the
    sources). *)
Definition DOMContentLoaded (s : app) : app :=
  loadSystemConfig (loadWorkflows (loadTools (loadAgents s))).

(** A click on a navigation item reloads the section it names. *)
Definition navigate (target : string) (s : app) : app :=
  if String.eqb target "agents" then loadAgents s
  else if String.eqb target "tools" then loadTools s
  else if String.eqb target "workflows" then loadWorkflows s
  else if String.eqb target "system" then loadSystemConfig s
  else s.

(** The close and cancel buttons of the dialog. *)
Definition closeModal (s : app) : app :=
  on_form (AgentForm.set_agent_modal false) s.

(** ** Runs of the console *)

(** What the administrator does to a control of the agent form. *)
Inductive form_edit :=
  | EditName (v : string)
  | EditType (v : string)
  | EditDescription (v : string)
  | EditIsMaster (b : bool)
  | EditTools (chosen : list string)
  | EditSubAgents (chosen : list string)
  | EditLlmModel (v : string)
  | EditAdditionalPrompt (v : string)
  | EditTimeout (v : string)
  | EditTrustMode (b : bool).

Definition apply_edit (e : form_edit) (f : AgentForm.t) : AgentForm.t :=
  match e with
  | EditName v => AgentForm.set_agent_name v f
  | EditType v => AgentForm.set_agent_type v f
  | EditDescription v => AgentForm.set_agent_description v f
  | EditIsMaster b => AgentForm.set_agent_is_master b f
  | EditTools chosen =>
      AgentForm.set_agent_tools (Opt.mark chosen (AgentForm.agent_tools f)) f
  | EditSubAgents chosen =>
      AgentForm.set_agent_sub_agents (Opt.mark chosen (AgentForm.agent_sub_agents f)) f
  | EditLlmModel v =>
      AgentForm.set_agent_llm_model (Opt.set_value v (AgentForm.agent_llm_model f)) f
  | EditAdditionalPrompt v => AgentForm.set_agent_additional_prompt v f
  | EditTimeout v => AgentForm.set_agent_timeout v f
  | EditTrustMode b => AgentForm.set_agent_trust_mode b f
  end.

(** What the administrator (or the page, at start-up) sets off. *)
Inductive call :=
  | Start
  | Navigate (target : string)
  | Input (e : form_edit)
  | CloseModal
  | FilterAgents (search typeFilter : string)
  | OpenAgentModal
  | EditAgent (agentId : string)
  | SaveAgent
  | TestAgent (agentId : string) (testInput : option string)
  | DeleteAgent (agentId : string) (confirmed : bool)
  | FilterWorkflows (search : string)
  | RunWorkflow (workflowId : string) (runInput : option string)
  | ValidateWorkflow (workflowId : string)
  | DeleteWorkflow (workflowId : string) (confirmed : bool)
  | ResetSettings
  | SaveGeneralSettings (logLevel cacheDir : string)
  | DeleteLlm (index : nat) (confirmed : bool)
  | DeleteDatabase (index : nat) (confirmed : bool)
  | ExportConfig
  | RestartSystem (confirmed : bool)
  | FilterTools (search typeFilter : string)
  | TestTool (toolId : string) (testInput : option string)
  | DeleteTool (toolId : string) (confirmed : bool).

Definition perform (c : call) (s : app) : app :=
  match c with
  | Start => DOMContentLoaded s
  | Navigate target => navigate target s
  | Input e => on_form (apply_edit e) s
  | CloseModal => closeModal s
  | FilterAgents search typeFilter => filterAgents search typeFilter s
  | OpenAgentModal => openAgentModal s
  | EditAgent agentId => editAgent agentId s
  | SaveAgent => saveAgent s
  | TestAgent agentId testInput => testAgent agentId testInput s
  | DeleteAgent agentId confirmed => deleteAgent agentId confirmed s
  | FilterWorkflows search => filterWorkflows search s
  | RunWorkflow workflowId runInput => runWorkflow workflowId runInput s
  | ValidateWorkflow workflowId => validateWorkflow workflowId s
  | DeleteWorkflow workflowId confirmed => deleteWorkflow workflowId confirmed s
  | ResetSettings => loadSystemConfig s
  | SaveGeneralSettings logLevel cacheDir => saveGeneralSettings logLevel cacheDir s
  | DeleteLlm index confirmed => deleteLlm index confirmed s
  | DeleteDatabase index confirmed => deleteDatabase index confirmed s
  | ExportConfig => exportConfig s
  | RestartSystem confirmed => restartSystem confirmed s
  | FilterTools search typeFilter => filterTools search typeFilter s
  | TestTool toolId testInput => testTool toolId testInput s
  | DeleteTool toolId confirmed => deleteTool toolId confirmed s
  end.

(** The type of the body the awaiting caller goes on to read. *)
Definition response (k : kont) : Type :=
  match k with
  | KLoadAgents => list Agent.t
  | KLoadToolsForAgent => list Tool.t
  | KLoadLlmModels => SystemConfig.t
  | KEditAgent _ => Agent.t
  | KTestAgent => Outcome.t
  | KLoadWorkflows => list Workflow.t
  | KRunWorkflow => Outcome.t
  | KValidateWorkflow => Validation.t
  | KLoadSystemConfig => SystemConfig.t
  | KExportConfig => Exported.t
  | KLoadTools => list Tool.t
  | KTestTool => Outcome.t
  | KSaveAgent _ | KDeleteAgent | KDeleteWorkflow | KSaveGeneralSettings
  | KUpdateSystemConfig | KRestartSystem | KDeleteTool => unit
  end.

Definition resume (k : kont) : fetch_result (response k) -> app -> app :=
  match k as k0 return fetch_result (response k0) -> app -> app with
  | KLoadAgents => loadAgents_resume
  | KLoadToolsForAgent => loadToolsForAgent_resume
  | KLoadLlmModels => loadLlmModels_resume
  | KEditAgent agentId => editAgent_resume agentId
  | KSaveAgent updating => saveAgent_resume updating
  | KTestAgent => testAgent_resume
  | KDeleteAgent => deleteAgent_resume
  | KLoadWorkflows => loadWorkflows_resume
  | KRunWorkflow => runWorkflow_resume
  | KValidateWorkflow => validateWorkflow_resume
  | KDeleteWorkflow => deleteWorkflow_resume
  | KLoadSystemConfig => loadSystemConfig_resume
  | KSaveGeneralSettings => saveGeneralSettings_resume
  | KUpdateSystemConfig => updateSystemConfig_resume
  | KExportConfig => exportConfig_resume
  | KRestartSystem => restartSystem_resume
  | KLoadTools => loadTools_resume
  | KTestTool => testTool_resume
  | KDeleteTool => deleteTool_resume
  end.

Definition kont_eqb (a b : kont) : bool :=
  match a, b with
  | KLoadAgents, KLoadAgents | KLoadToolsForAgent, KLoadToolsForAgent
  | KLoadLlmModels, KLoadLlmModels | KTestAgent, KTestAgent
  | KDeleteAgent, KDeleteAgent | KLoadWorkflows, KLoadWorkflows
  | KRunWorkflow, KRunWorkflow | KValidateWorkflow, KValidateWorkflow
  | KDeleteWorkflow, KDeleteWorkflow | KLoadSystemConfig, KLoadSystemConfig
  | KSaveGeneralSettings, KSaveGeneralSettings
  | KUpdateSystemConfig, KUpdateSystemConfig | KExportConfig, KExportConfig
  | KRestartSystem, KRestartSystem | KLoadTools, KLoadTools
  | KTestTool, KTestTool | KDeleteTool, KDeleteTool => true
  | KEditAgent x, KEditAgent y => String.eqb x y
  | KSaveAgent x, KSaveAgent y => Bool.eqb x y
  | _, _ => false
  end.

(** One turn of the event loop: a call runs up to its [await], a settled
    request runs the continuation that was waiting for it. *)
Inductive event :=
  | Call (c : call)
  | Settle (rid : nat) (k : kont) (r : fetch_result (response k)).

Definition awaits (rid : nat) (k : kont) (s : app) : bool :=
  existsb (fun p => (fst p =? rid) && kont_eqb (snd p) k) (pending s).

Definition settled (rid : nat) (s : app) : app :=
  set_pending (filter (fun p => negb (fst p =? rid)) (pending s)) s.

Definition step (e : event) (s : app) : option app :=
  match e with
  | Call c => Some (perform c s)
  | Settle rid k r =>
      if awaits rid k s then Some (resume k r (settled rid s)) else None
  end.

(** A run: [None] when an event settles a request nobody awaits. *)
Fixpoint run (events : list event) (s : app) : option app :=
  match events with
  | [] => Some s
  | e :: rest =>
      match step e s with
      | Some s' => run rest s'
      | None => None
      end
  end.

(** ** The loads, for a body of any shape

    Each of the four loads assigns the answer to its global and calls its
    render function inside the same [try].  On a body that is not of the
    shape the render function reads ([null], an object that is no array, an
    array with a [null] entry) the render function throws a [TypeError], and
    the [catch] block of the load runs as it does for a rejected request,
    but without [apiRequest] having shown a toast.  [loadAgents_resume] and
    its three siblings are the continuations on a body of the expected
    shape (an array of records, a configuration object); the definitions
    below add the bodies on which the render function throws.  A body that
    is of neither sort (one the render function gets through although it is
    not of the expected shape) is not modelled. *)

(** The body of a successful answer, as the [try] block of a load meets
    it. *)
Inductive body_shape (A : Type) :=
  | Renders (v : A)
  | RenderThrows.
Arguments Renders {A} v.
Arguments RenderThrows {A}.

(** An answer whose body, when there is one, is of the expected shape. *)
Definition expected_shape {A} (r : fetch_result A) : fetch_result (body_shape A) :=
  match r with
  | FetchRejected message => FetchRejected message
  | HttpNotOk errorData => HttpNotOk errorData
  | HttpOk (Parsed a) => HttpOk (Parsed (Renders a))
  | HttpOk (Unparsable message) => HttpOk (Unparsable message)
  end.

Definition loadAgents_answer (r : fetch_result (body_shape (list Agent.t)))
    (s : app) : app :=
  match apiRequest_resume GET r s with
  | (s1, Resolved (Renders v)) => renderAgents (set_agents v s1)
  | (s1, Resolved RenderThrows) => renderAgents (set_agents mock_agents s1)
  | (s1, Rejected _) => renderAgents (set_agents mock_agents s1)
  end.

Definition loadTools_answer (r : fetch_result (body_shape (list Tool.t)))
    (s : app) : app :=
  match apiRequest_resume GET r s with
  | (s1, Resolved (Renders v)) => renderTools (set_tools v s1)
  | (s1, Resolved RenderThrows) => renderTools (set_tools mock_tools s1)
  | (s1, Rejected _) => renderTools (set_tools mock_tools s1)
  end.

Definition loadWorkflows_answer (r : fetch_result (body_shape (list Workflow.t)))
    (s : app) : app :=
  match apiRequest_resume GET r s with
  | (s1, Resolved (Renders v)) => renderWorkflows (set_workflows v s1)
  | (s1, Resolved RenderThrows) => renderWorkflows (set_workflows mock_workflows s1)
  | (s1, Rejected _) => renderWorkflows (set_workflows mock_workflows s1)
  end.

Definition loadSystemConfig_answer (r : fetch_result (body_shape SystemConfig.t))
    (s : app) : app :=
  match apiRequest_resume GET r s with
  | (s1, Resolved (Renders v)) => set_systemConfig (Some v) s1
  | (s1, Resolved RenderThrows) => set_systemConfig (Some mock_systemConfig) s1
  | (s1, Rejected _) => set_systemConfig (Some mock_systemConfig) s1
  end.

(** ** Vocabulary of the properties *)

(** [t] occurs in [s]. *)
Definition occurs_in (t s : string) : Prop :=
  exists pre post, s = (pre ++ t ++ post)%string.

(** A substring match that ignores case. *)
Definition matches_ci (term field : string) : Prop :=
  occurs_in (toLowerCase term) (toLowerCase field).

(** The search predicate: the term matches the name or the description. *)
Definition search_predicate (term name : string) (description : option string)
  : Prop :=
  matches_ci term name \/ exists d, description = Some d /\ matches_ci term d.

(** The category predicate: no filter, or the very type. *)
Definition type_predicate (typeFilter type : string) : Prop :=
  typeFilter = "" \/ type = typeFilter.

(** How [apiRequest] ends for a given answer of the network; the toast it
    may leave is accounted for in [apiRequest_resume_outcome]. *)
Definition outcome {A} (method : http_method) (r : fetch_result A)
  : api_result (api_value method A) :=
  snd (apiRequest_resume method r initial).

(** The method of the request a continuation waits for. *)
Definition method_of (k : kont) : http_method :=
  match k with
  | KSaveAgent true | KSaveGeneralSettings | KUpdateSystemConfig => PUT
  | KSaveAgent false | KTestAgent | KRunWorkflow | KValidateWorkflow
  | KRestartSystem | KTestTool => POST
  | KDeleteAgent | KDeleteWorkflow | KDeleteTool => DELETE
  | _ => GET
  end.

(** What the caller itself puts on the toast when its request failed. *)
Definition announces (k : kont) : list toast :=
  match k with
  | KLoadAgents | KLoadToolsForAgent | KLoadLlmModels | KLoadWorkflows
  | KLoadSystemConfig | KLoadTools | KRunWorkflow | KTestTool => []
  | KEditAgent _ => [("Error loading agent details", error)]
  | KSaveAgent _ => [("Error saving agent", error)]
  | KTestAgent => [("Error testing agent", error)]
  | KDeleteAgent => [("Error deleting agent", error)]
  | KValidateWorkflow => [("Error validating workflow", error)]
  | KDeleteWorkflow => [("Error deleting workflow", error)]
  | KSaveGeneralSettings => [("Error saving settings", error)]
  | KUpdateSystemConfig => [("Error updating configuration", error)]
  | KExportConfig => [("Error exporting configuration", error)]
  | KRestartSystem => [("Error restarting system", error)]
  | KDeleteTool => [("Error deleting tool", error)]
  end.

(** The members of an agent object, each present or not. *)
Module Members.
Record t := mk {
  name : option string;
  agent_type : option string;
  description : option string;
  is_master : option bool;
  tools : option (list string);
  sub_agents : option (list string);
  llm_model : option string;
  additional_prompt : option string;
  timeout : option number;
  trust_mode : option bool
}.
End Members.

(** The members of a record of the backend, without the two the server
    owns ([id] and [status]). *)
Definition members_of_record (a : Agent.t) : Members.t :=
  Members.mk (Some (Agent.name a)) (Some (Agent.agent_type a))
    (Agent.description a) (Some (Agent.is_master a)) (Agent.tools a)
    (Agent.sub_agents a) (Agent.llm_model a) (Agent.additional_prompt a)
    (option_map Int (Agent.timeout a)) (Agent.trust_mode a).

(** The members of the body [JSON.stringify(agentData)] sends. *)
Definition members_of_payload (d : AgentData.t) : Members.t :=
  Members.mk (Some (AgentData.name d)) (Some (AgentData.agent_type d))
    (Some (AgentData.description d)) (Some (AgentData.is_master d))
    (Some (AgentData.tools d)) (Some (AgentData.sub_agents d))
    (Some (AgentData.llm_model d)) (Some (AgentData.additional_prompt d))
    (AgentData.timeout d) (Some (AgentData.trust_mode d)).

(** The references [xs] of a record are exactly the offered options they
    name, in the order the select offers them. *)
Definition offered_as (xs : list string) (options : list Opt.t) : Prop :=
  filter (array_includes xs) (map Opt.value options) = xs.

(** The largest integer a number holds exactly. *)
Definition MAX_SAFE_INTEGER : Z := 9007199254740991.

(** What a settled load of agents leaves in the store. *)
Definition loaded_agents (r : fetch_result (list Agent.t)) : list Agent.t :=
  match outcome GET r with
  | Resolved v => v
  | Rejected _ => mock_agents
  end.

(** What a settled load of tools, of workflows, of the configuration
    leaves in the store. *)
Definition loaded_tools (r : fetch_result (list Tool.t)) : list Tool.t :=
  match outcome GET r with
  | Resolved v => v
  | Rejected _ => mock_tools
  end.

Definition loaded_workflows (r : fetch_result (list Workflow.t)) : list Workflow.t :=
  match outcome GET r with
  | Resolved v => v
  | Rejected _ => mock_workflows
  end.

Definition loaded_config (r : fetch_result SystemConfig.t) : SystemConfig.t :=
  match outcome GET r with
  | Resolved v => v
  | Rejected _ => mock_systemConfig
  end.

(** The body [apiRequest] serialises: only for a method that carries one. *)
Definition sent (method : http_method) (data : option payload) : option payload :=
  match data, method with
  | Some d, POST => Some d
  | Some d, PUT => Some d
  | _, _ => None
  end.

(** Every awaited continuation waits for a request that was issued, with
    the method the continuation goes on to assume, and no request is
    awaited twice. *)
Definition well_formed (s : app) : Prop :=
  NoDup (map fst (pending s))
  /\ forall rid k,
       In (rid, k) (pending s) ->
       exists q, nth_error (requests s) rid = Some q
                 /\ Request.method q = method_of k.

(** The last request issued. *)
Definition last_request (s : app) : option Request.t :=
  last (map Some (requests s)) None.

(** ** Records used in the scenarios *)

(** A record only the backend knows. *)
Definition agent_of_backend : Agent.t :=
  Agent.mk "42" "billing_agent" "chat" None false None None None None None None
    "active".

(** A second one. *)
Definition newer_agent_of_backend : Agent.t :=
  Agent.mk "43" "audit_agent" "react" None false None None None None None None
    "active".

(** A record that carries every member the form edits. *)
Definition full_agent : Agent.t :=
  Agent.mk "7" "planner" "react" (Some "Plans the work") true
    (Some ["2"]) (Some ["1"; "3"]) (Some "gpt4") (Some "Be brief")
    (Some 30%Z) (Some true) "active".

(** A transport failure, with the message browsers give it. *)
Definition unreachable {A} : fetch_result A := FetchRejected "Failed to fetch".

(** Records of the other kinds that only the backend knows, an older and a
    newer one of each. *)
Definition tool_of_backend : Tool.t :=
  Tool.mk "42" "billing_tools" "api" None "active".

Definition newer_tool_of_backend : Tool.t :=
  Tool.mk "43" "audit_tools" "mcp" None "active".

Definition workflow_of_backend : Workflow.t :=
  Workflow.mk "42" "billing_run" None ["42"] "active".

Definition newer_workflow_of_backend : Workflow.t :=
  Workflow.mk "43" "audit_run" None ["43"] "active".

Definition config_of_backend : SystemConfig.t :=
  SystemConfig.mk [] [] "WARNING" "/var/cache/older" [].

Definition newer_config_of_backend : SystemConfig.t :=
  SystemConfig.mk [] [] "DEBUG" "/var/cache/newer" [].

(** ** system.js: what the configuration panels show

    The three render functions read the global [systemConfig], which
    [loadSystemConfig] has just set when it calls them; here they take the
    configuration as their argument and give what they write to the page. *)

(** One [config-item] of the panel of model configurations.  [api_key] is
    the text of the cell labelled API Key. *)
Module LlmRow.
Record t := mk {
  data_index : nat;
  name : string;
  model : string;
  base_url : string;
  api_key : string
}.
End LlmRow.

(** [llm_configs.forEach((llm, index) => ...)], from [index] on. *)
Fixpoint llm_rows (index : nat) (l : list LlmConfig.t) : list LlmRow.t :=
  match l with
  | [] => []
  | llm :: r =>
      LlmRow.mk index (LlmConfig.name llm)
        (or_else (Some (LlmConfig.model_name llm)) "-")
        (or_else (Some (LlmConfig.base_url llm)) "-")
        "***"
      :: llm_rows (S index) r
  end.

Definition renderLlmConfigs (c : SystemConfig.t) : table LlmRow.t :=
  match SystemConfig.llm_configs c with
  | [] => Placeholder "No LLM configurations found"
  | _ :: _ => Rows (llm_rows 0 (SystemConfig.llm_configs c))
  end.

(** One [config-item] of the panel of database configurations. *)
Module DbRow.
Record t := mk {
  data_index : nat;
  type : string;
  connection : string
}.
End DbRow.

Fixpoint db_rows (index : nat) (l : list DbConfig.t) : list DbRow.t :=
  match l with
  | [] => []
  | db :: r =>
      DbRow.mk index (DbConfig.type db)
        (or_else (Some (DbConfig.connection_string db)) "-")
      :: db_rows (S index) r
  end.

Definition renderDatabaseConfigs (c : SystemConfig.t) : table DbRow.t :=
  match SystemConfig.database_configs c with
  | [] => Placeholder "No database configurations found"
  | _ :: _ => Rows (db_rows 0 (SystemConfig.database_configs c))
  end.

(** The values written to the inputs [log-level] and [cache-dir], in this
    order; the two inputs are taken to hold what is written to them. *)
Definition renderGeneralSettings (c : SystemConfig.t) : string * string :=
  (or_else (Some (SystemConfig.log_level c)) "INFO",
   or_else (Some (SystemConfig.cache_dir c)) "").

(** ** workflows.js: the agents of a workflow, as the table names them *)

(** The label of one agent id: [agents.find(a => a.id === id)], then the
    name found or the made-up label. *)
Definition agent_label (agents : list Agent.t) (id : string) : string :=
  match find (fun a => String.eqb (Agent.id a) id) agents with
  | Some agent => Agent.name agent
  | None => ("Agent " ++ id)%string
  end.

(** [formatAgentsList(agentIds)], for the agents the store holds. *)
Definition formatAgentsList (agents : list Agent.t) (agentIds : list string)
  : string :=
  match agentIds with
  | [] => "-"
  | _ :: _ => join ", " (map (agent_label agents) agentIds)
  end.

(** ** Vocabulary of the further properties *)

(** A table shows records of the collection [l] only. *)
Definition table_within {A} (t : table A) (l : list A) : Prop :=
  match t with
  | Placeholder _ => True
  | Rows rows => incl rows l
  end.

(** The three tables show stored records only. *)
Definition shows_only_stored (s : app) : Prop :=
  table_within (agent_list s) (agents s)
  /\ table_within (tool_list s) (tools s)
  /\ table_within (workflow_list s) (workflows s).

(** The table a render function writes for a collection. *)
Definition table_of {A} (none_found : string) (l : list A) : table A :=
  match l with
  | [] => Placeholder none_found
  | _ :: _ => Rows l
  end.

(** The dialog is titled as an edit exactly when an id is being edited. *)
Definition titled_as_session (s : app) : Prop :=
  match editingAgentId s with
  | Some _ => AgentForm.agent_modal_title (agent_form s) = "Edit Agent"
  | None => AgentForm.agent_modal_title (agent_form s) <> "Edit Agent"
  end.

(** The configuration has been loaded. *)
Definition config_loaded (s : app) : Prop := systemConfig s <> None.

(** A character that no decimal number goes on with, and that does not
    turn a leading zero into a hexadecimal prefix. *)
Definition ends_number (c : ascii) : Prop :=
  digit_value 10 c = None /\ c <> "x"%char /\ c <> "X"%char.

(** The same configurations, but for the keys. *)
Definition same_but_keys (a b : LlmConfig.t) : Prop :=
  LlmConfig.name a = LlmConfig.name b
  /\ LlmConfig.base_url a = LlmConfig.base_url b
  /\ LlmConfig.model_name a = LlmConfig.model_name b.

(** A request of the wrapper: under the base address of the API, and with
    a body only when it posts or puts. *)
Definition api_call (q : Request.t) : Prop :=
  String.prefix apiBaseUrl (Request.url q) = true
  /\ (Request.method q = GET \/ Request.method q = DELETE -> Request.body q = None).

(** A reload: a [GET] of one of the four collections. *)
Definition reload (q : Request.t) : Prop :=
  Request.method q = GET
  /\ Request.body q = None
  /\ In (Request.url q)
       ["/api/v1/agents"; "/api/v1/tools"; "/api/v1/workflows";
        "/api/v1/system/config"].

(** The requests of [s'] are those of [s], then some that all satisfy [P]. *)
Definition issues (P : Request.t -> Prop) (s s' : app) : Prop :=
  exists l, requests s' = requests s ++ l /\ Forall P l.

(** [label] is how a row names the agent id [id]: by the name of the first
    stored agent that has this id, or, when no stored agent has it, by the
    word Agent followed by the id. *)
Definition names (agents : list Agent.t) (id label : string) : Prop :=
  (exists pre a post,
      agents = pre ++ a :: post
      /\ Agent.id a = id
      /\ (forall b, In b pre -> Agent.id b <> id)
      /\ label = Agent.name a)
  \/ ((forall b, In b agents -> Agent.id b <> id)
      /\ label = ("Agent " ++ id)%string).

(** * Properties *)

(** ** Strings *)

Lemma prefix_app (t s : string) :
  String.prefix t s = true <-> exists post, s = (t ++ post)%string.
Proof.
  revert s; induction t as [|c t IH]; intros s.
  - split; [intros _; now exists s | intros _; now destruct s].
  - destruct s as [|c' s]; simpl.
    + split; [discriminate | intros [post H]; discriminate].
    + destruct (ascii_dec c c') as [->|Hne].
      * rewrite IH. split; intros [post H]; exists post.
        -- now rewrite H.
        -- now injection H.
      * split; [discriminate|].
        intros [post H]. injection H as H1 _. congruence.
Qed.

Lemma includes_occurs (s t : string) :
  includes s t = true <-> occurs_in t s.
Proof.
  induction s as [|c s IH]; cbn [includes].
  - rewrite orb_false_r, prefix_app. split.
    + intros [post H]. now exists "", post.
    + intros [pre [post H]]. destruct pre; [now exists post | discriminate].
  - rewrite orb_true_iff, prefix_app, IH. split.
    + intros [[post H] | [pre [post H]]].
      * now exists "", post.
      * exists (String c pre), post. simpl. now rewrite H.
    + intros [pre [post H]]. destruct pre as [|c' pre]; simpl in H.
      * left. now exists post.
      * right. injection H as _ H. now exists pre, post.
Qed.

Lemma includes_empty (s : string) : includes s "" = true.
Proof. apply includes_occurs. now exists "", s. Qed.

Lemma occurs_in_empty (t : string) : occurs_in t "" -> t = "".
Proof.
  intros [pre [post H]]. destruct pre; [|discriminate].
  destruct t; [reflexivity | discriminate].
Qed.

Lemma matchesSearch_spec (term name : string) (description : option string) :
  matchesSearch (toLowerCase term) name description = true
  <-> search_predicate term name description.
Proof.
  unfold matchesSearch, search_predicate, matches_ci.
  rewrite orb_true_iff, includes_occurs. split.
  - intros [H | H]; [now left | right].
    destruct description as [d|]; [|discriminate].
    apply andb_true_iff in H as [_ H]. apply includes_occurs in H. now exists d.
  - intros [H | [d [-> H]]]; [now left |].
    destruct d as [|c d].
    + left. apply occurs_in_empty in H. simpl in H. rewrite H.
      apply includes_occurs, includes_empty.
    + right. apply includes_occurs in H. now rewrite H.
Qed.

Lemma matchesType_spec (typeFilter type : string) :
  matchesType typeFilter type = true <-> type_predicate typeFilter type.
Proof.
  unfold matchesType, type_predicate.
  now rewrite orb_true_iff, !String.eqb_eq.
Qed.


(** The primitives on the values the scripts meet. *)
Example toLowerCase_ascii : toLowerCase "Time_Agent 42 [Z]" = "time_agent 42 [z]".
Proof. reflexivity. Qed.

Example includes_examples :
  includes "time_agent" "time" = true /\ includes "time_agent" "zzz" = false
  /\ includes "" "" = true /\ includes "abc" "bcd" = false.
Proof. repeat split. Qed.

Example parseInt_examples :
  parseInt "30" = Int 30 /\ parseInt " 42px" = Int 42 /\ parseInt "-7" = Int (-7)
  /\ parseInt "0x1F" = Int 31 /\ parseInt "12.5" = Int 12 /\ parseInt "abc" = NaN
  /\ parseInt "" = NaN /\ parseInt "0x" = NaN.
Proof. repeat split. Qed.

Example JSON_parse_examples :
  JSON_parse "[1, 2.5e3, true, null, {}]"
  = Some (JArr [JNum "1"; JNum "2.5e3"; JBool true; JNull; JObj []])
  /\ JSON_parse (String quote "run" ++ String quote "") = Some (JStr "run")
  /\ JSON_parse ("{" ++ String quote "city" ++ String quote ": [-0.5]}")
     = Some (JObj [("city", JArr [JNum "-0.5"])])
  /\ JSON_parse "not-json" = None /\ JSON_parse "" = None
  /\ JSON_parse "[1,]" = None /\ JSON_parse "01" = None
  /\ JSON_parse "{} {}" = None /\ JSON_parse "'run'" = None
  /\ JSON_parse "undefined" = None.
Proof. repeat split. Qed.

Example splice1_examples :
  splice1 1 [10; 20; 30] = [10; 30] /\ splice1 3 [10; 20; 30] = [10; 20; 30].
Proof. split; reflexivity. Qed.

(** ** The request wrapper *)

Lemma apiRequest_resume_outcome {A} (method : http_method) (r : fetch_result A)
    (s : app) :
  apiRequest_resume method r s =
  (match outcome method r with
   | Resolved _ => s
   | Rejected message => showToast message error s
   end, outcome method r).
Proof.
  unfold outcome.
  destruct r as [m | [d | m] | [a | m]]; destruct method; reflexivity.
Qed.

Lemma requests_apiRequest endpoint method data k s :
  requests (apiRequest endpoint method data k s)
  = requests s ++ [Request.mk (apiBaseUrl ++ endpoint) method (sent method data)].
Proof. reflexivity. Qed.

Lemma pending_apiRequest endpoint method data k s :
  pending (apiRequest endpoint method data k s)
  = pending s ++ [(List.length (requests s), k)].
Proof. reflexivity. Qed.

Lemma last_request_apiRequest endpoint method data k s :
  last_request (apiRequest endpoint method data k s)
  = Some (Request.mk (apiBaseUrl ++ endpoint) method (sent method data)).
Proof.
  unfold last_request. rewrite requests_apiRequest, map_app.
  cbn [map]. apply last_last.
Qed.

(** A successful [DELETE] never reads the body. *)
Lemma outcome_delete_ok {A} (body : body_result A) :
  outcome DELETE (HttpOk body) = Resolved (Deleted.mk true).
Proof. reflexivity. Qed.

Ltac settle :=
  rewrite apiRequest_resume_outcome;
  match goal with
  | H : outcome _ _ = _ |- _ => rewrite H
  end; cbn.

(** ** Filtering (C6) *)

Lemma filteredAgents_In (search typeFilter : string) (l : list Agent.t)
    (a : Agent.t) :
  In a (filteredAgents search typeFilter l) <->
  In a l /\ search_predicate search (Agent.name a) (Agent.description a)
         /\ type_predicate typeFilter (Agent.agent_type a).
Proof.
  unfold filteredAgents.
  now rewrite filter_In, andb_true_iff, matchesSearch_spec, matchesType_spec.
Qed.

Lemma filteredTools_In (search typeFilter : string) (l : list Tool.t)
    (a : Tool.t) :
  In a (filteredTools search typeFilter l) <->
  In a l /\ search_predicate search (Tool.name a) (Tool.description a)
         /\ type_predicate typeFilter (Tool.tool_type a).
Proof.
  unfold filteredTools.
  now rewrite filter_In, andb_true_iff, matchesSearch_spec, matchesType_spec.
Qed.

Lemma filteredWorkflows_In (search : string) (l : list Workflow.t) (a : Workflow.t) :
  In a (filteredWorkflows search l) <->
  In a l /\ search_predicate search (Workflow.name a) (Workflow.description a).
Proof.
  unfold filteredWorkflows. now rewrite filter_In, matchesSearch_spec.
Qed.

(** C6.  For every search term and type filter, the rows [filterAgents]
    (and [filterTools]) shows are drawn from the stored collection, which is
    left as it was, and a stored record is among them exactly when it passes
    both tests: the term occurs, case ignored, in its name or in its
    description, and the type filter is empty or equals its type.  An empty
    selection shows the placeholder row.  Workflows have no type filter:
    [filterWorkflows] applies the search test alone. *)
Theorem filter_shows_exactly_the_matches :
  (forall (search typeFilter : string) (s : app),
      let shown := filteredAgents search typeFilter (agents s) in
      agents (filterAgents search typeFilter s) = agents s
      /\ agent_list (filterAgents search typeFilter s)
         = match shown with
           | [] => Placeholder "No agents found"
           | _ :: _ => Rows shown
           end
      /\ incl shown (agents s)
      /\ forall a : Agent.t,
          In a shown <->
          In a (agents s)
          /\ search_predicate search (Agent.name a) (Agent.description a)
          /\ type_predicate typeFilter (Agent.agent_type a))
  /\
  (forall (search typeFilter : string) (s : app),
      let shown := filteredTools search typeFilter (tools s) in
      tools (filterTools search typeFilter s) = tools s
      /\ tool_list (filterTools search typeFilter s)
         = match shown with
           | [] => Placeholder "No tools found"
           | _ :: _ => Rows shown
           end
      /\ incl shown (tools s)
      /\ forall a : Tool.t,
          In a shown <->
          In a (tools s)
          /\ search_predicate search (Tool.name a) (Tool.description a)
          /\ type_predicate typeFilter (Tool.tool_type a))
  /\
  (forall (search : string) (s : app),
      let shown := filteredWorkflows search (workflows s) in
      workflows (filterWorkflows search s) = workflows s
      /\ workflow_list (filterWorkflows search s)
         = match shown with
           | [] => Placeholder "No workflows found"
           | _ :: _ => Rows shown
           end
      /\ incl shown (workflows s)
      /\ forall a : Workflow.t,
          In a shown <->
          In a (workflows s)
          /\ search_predicate search (Workflow.name a) (Workflow.description a)).
Proof.
  split; [|split]; intros; subst shown.
  - split; [reflexivity | split; [reflexivity | split]].
    + intros a H. apply filteredAgents_In in H. tauto.
    + intro a. apply filteredAgents_In.
  - split; [reflexivity | split; [reflexivity | split]].
    + intros a H. apply filteredTools_In in H. tauto.
    + intro a. apply filteredTools_In.
  - split; [reflexivity | split; [reflexivity | split]].
    + intros a H. apply filteredWorkflows_In in H. tauto.
    + intro a. apply filteredWorkflows_In.
Qed.

(** The scenario of the specification: one agent named [time_agent]. *)
Example filter_time_agent :
  let one := [Agent.mk "1" "time_agent" "" None false None None None None None None "active"] in
  let s := renderAgents (set_agents one initial) in
  agent_list (filterAgents "time" "" s) = Rows one
  /\ agent_list (filterAgents "TIME" "" s) = Rows one
  /\ agent_list (filterAgents "zzz" "" s) = Placeholder "No agents found".
Proof. repeat split. Qed.

(** ** Workflow validation (C9) *)


(** The scenario of the specification, as a run from the start of the
    page. *)
Example validation_scenario :
  option_map toasts
    (run [ Call (ValidateWorkflow "3");
           Settle 0 KValidateWorkflow
             (HttpOk (Parsed (Validation.mk false ["missing tool"]))) ]
         initial)
  = Some [("Workflow validation failed: missing tool", error)].
Proof. reflexivity. Qed.


(** ** Failures and their notifications (C4) *)

Lemma toasts_showToast message type s :
  toasts (showToast message type s) = toasts s ++ [(message, type)].
Proof. reflexivity. Qed.

(** What every continuation leaves on the toast when its request fails: the
    wrapper's message, then the caller's own, if it has one. *)
Lemma resume_rejected (k : kont) (r : fetch_result (response k)) (s : app)
    (message : string) :
  outcome (method_of k) r = Rejected message ->
  toasts (resume k r s) = toasts s ++ (message, error) :: announces k.
Proof.
  destruct k as [ | | | agentId | [|] | | | | | | | | | | | | | | ];
    cbn [resume method_of announces response] in *; intros H;
    match goal with
    | |- toasts (?f _ _ _) = _ => unfold f
    | |- toasts (?f _ _) = _ => unfold f
    end;
    settle; rewrite <- ?app_assoc; reflexivity.
Qed.

(** C4, as amended.  Every failure of a request is put on the toast once,
    with severity error, by the wrapper at the point of failure, and is then
    raised again to the caller.  The callers that load a collection, the
    configuration or the options of the form, and the two that take JSON
    input, put nothing more on the toast; every other caller follows with
    one error notification of its own, with a fixed text. *)
Theorem failure_is_notified_by_the_wrapper_then_by_the_caller :
  forall (k : kont) (r : fetch_result (response k)) (s : app) (message : string),
    outcome (method_of k) r = Rejected message ->
    apiRequest_resume (method_of k) r s
    = (showToast message error s, Rejected message)
    /\ toasts (resume k r s) = toasts s ++ (message, error) :: announces k
    /\ (announces k = [] <->
        In k [KLoadAgents; KLoadToolsForAgent; KLoadLlmModels; KLoadWorkflows;
              KLoadSystemConfig; KLoadTools; KRunWorkflow; KTestTool]).
Proof.
  intros k r s message H. split; [|split].
  - rewrite apiRequest_resume_outcome. now rewrite H.
  - now apply resume_rejected.
  - clear. destruct k as [ | | | agentId | [|] | | | | | | | | | | | | | | ];
      cbn; split; try discriminate; intuition (try discriminate; auto).
Qed.

Lemma failure_is_notified_witness :
  outcome (method_of KLoadAgents) (FetchRejected "Failed to fetch" : fetch_result (response KLoadAgents))
  = Rejected "Failed to fetch"
  /\ toasts (resume KLoadAgents (FetchRejected "Failed to fetch") initial)
     = [("Failed to fetch", error)].
Proof.
  split; [reflexivity|].
  exact (proj1 (proj2 (failure_is_notified_by_the_wrapper_then_by_the_caller
                         KLoadAgents (FetchRejected "Failed to fetch") initial
                         "Failed to fetch" eq_refl))).
Defined.

(** C4, as stated, fails: the backend refuses a delete with a [detail], and
    the administrator is told twice, by the wrapper and by [deleteAgent]
    (likewise by [saveAgent]). *)
Lemma caller_announces_the_failure_again :
  let refused : fetch_result unit := HttpNotOk (Parsed (Some "Agent is in use")) in
  outcome DELETE refused = Rejected "Agent is in use"
  /\ toasts (deleteAgent_resume refused initial)
     = [("Agent is in use", error); ("Error deleting agent", error)]
  /\ toasts (saveAgent_resume true refused initial)
     = [("Agent is in use", error); ("Error saving agent", error)].
Proof. repeat split. Qed.

(** ** Loading and the demonstration data (C1) *)

Lemma loadAgents_resume_eq (r : fetch_result (list Agent.t)) (s : app) :
  loadAgents_resume r s
  = match outcome GET r with
    | Resolved v => renderAgents (set_agents v s)
    | Rejected message =>
        renderAgents (set_agents mock_agents (showToast message error s))
    end.
Proof.
  unfold loadAgents_resume. rewrite apiRequest_resume_outcome.
  now destruct (outcome GET r).
Qed.

Lemma loadTools_resume_eq (r : fetch_result (list Tool.t)) (s : app) :
  loadTools_resume r s
  = match outcome GET r with
    | Resolved v => renderTools (set_tools v s)
    | Rejected message =>
        renderTools (set_tools mock_tools (showToast message error s))
    end.
Proof.
  unfold loadTools_resume. rewrite apiRequest_resume_outcome.
  now destruct (outcome GET r).
Qed.

Lemma loadWorkflows_resume_eq (r : fetch_result (list Workflow.t)) (s : app) :
  loadWorkflows_resume r s
  = match outcome GET r with
    | Resolved v => renderWorkflows (set_workflows v s)
    | Rejected message =>
        renderWorkflows (set_workflows mock_workflows (showToast message error s))
    end.
Proof.
  unfold loadWorkflows_resume. rewrite apiRequest_resume_outcome.
  now destruct (outcome GET r).
Qed.

Lemma loadSystemConfig_resume_eq (r : fetch_result SystemConfig.t) (s : app) :
  loadSystemConfig_resume r s
  = match outcome GET r with
    | Resolved v => set_systemConfig (Some v) s
    | Rejected message =>
        set_systemConfig (Some mock_systemConfig) (showToast message error s)
    end.
Proof.
  unfold loadSystemConfig_resume. rewrite apiRequest_resume_outcome.
  now destruct (outcome GET r).
Qed.

(** On a body of the expected shape the continuations on any body are the
    typed ones. *)
Lemma loads_of_the_expected_shape (s : app) :
  (forall r, loadAgents_answer (expected_shape r) s = loadAgents_resume r s)
  /\ (forall r, loadTools_answer (expected_shape r) s = loadTools_resume r s)
  /\ (forall r, loadWorkflows_answer (expected_shape r) s = loadWorkflows_resume r s)
  /\ (forall r, loadSystemConfig_answer (expected_shape r) s
                = loadSystemConfig_resume r s).
Proof.
  repeat split; intros [m | [d | m] | [a | m]]; reflexivity.
Qed.





(** ** Overlapping loads (C5) *)

Lemma run_app (evs evs' : list event) (s : app) :
  run (evs ++ evs') s
  = match run evs s with
    | Some s' => run evs' s'
    | None => None
    end.
Proof.
  revert s; induction evs as [|e evs IH]; intros s; cbn; [reflexivity|].
  destruct (step e s); [apply IH | reflexivity].
Qed.

Lemma awaits_settled (i j : nat) (k : kont) (s : app) :
  i <> j -> awaits j k (settled i s) = awaits j k s.
Proof.
  intros Hij. unfold awaits, settled. cbn.
  induction (pending s) as [|[n k'] l IH]; [reflexivity|].
  cbn. destruct (Nat.eqb_spec n i) as [->|Hn]; cbn.
  - destruct (Nat.eqb_spec i j); [contradiction|]. now cbn.
  - now rewrite IH.
Qed.

(** The store of each kind after its load has settled. *)
Lemma store_after_load (s : app) :
  (forall r, agents (loadAgents_resume r s) = loaded_agents r)
  /\ (forall r, tools (loadTools_resume r s) = loaded_tools r)
  /\ (forall r, workflows (loadWorkflows_resume r s) = loaded_workflows r)
  /\ (forall r, systemConfig (loadSystemConfig_resume r s) = Some (loaded_config r)).
Proof.
  repeat split; intros r;
    rewrite ?loadAgents_resume_eq, ?loadTools_resume_eq, ?loadWorkflows_resume_eq,
      ?loadSystemConfig_resume_eq;
    unfold loaded_agents, loaded_tools, loaded_workflows, loaded_config;
    now destruct (outcome GET r).
Qed.

(** A load that settles leaves the other requests in flight as they are. *)
Lemma pending_after_load (k : kont) (r : fetch_result (response k)) (s : app) :
  k = KLoadAgents \/ k = KLoadTools \/ k = KLoadWorkflows \/ k = KLoadSystemConfig ->
  pending (resume k r s) = pending s.
Proof.
  intros [-> | [-> | [-> | ->]]]; cbn [response resume] in *;
    rewrite ?loadAgents_resume_eq, ?loadTools_resume_eq, ?loadWorkflows_resume_eq,
      ?loadSystemConfig_resume_eq;
    now destruct (outcome GET r).
Qed.

(** Two requests of the same caller issued one after the other are both
    awaited, under consecutive numbers. *)
Lemma both_in_flight (endpoint : string) (k : kont) (s : app) :
  kont_eqb k k = true ->
  let i := List.length (requests s) in
  let s2 := apiRequest endpoint GET None k (apiRequest endpoint GET None k s) in
  awaits i k s2 = true /\ awaits (S i) k s2 = true.
Proof.
  intros Hk i s2. subst s2. unfold awaits.
  rewrite !pending_apiRequest, requests_apiRequest, length_app, Nat.add_1_r.
  fold i. rewrite <- app_assoc. cbn [List.app].
  split; rewrite existsb_app; cbn [existsb fst snd];
    rewrite ?Nat.eqb_refl, Hk; cbn [andb orb]; now rewrite ?orb_true_r.
Qed.

(** Two loads of one kind settle one after the other: both continuations
    run, in the order of the answers. *)
Lemma settle_one_after_the_other (k : kont) (ri rj : fetch_result (response k))
    (i j : nat) (s : app) :
  k = KLoadAgents \/ k = KLoadTools \/ k = KLoadWorkflows \/ k = KLoadSystemConfig ->
  i <> j ->
  awaits i k s = true ->
  awaits j k s = true ->
  run [Settle i k ri; Settle j k rj] s
  = Some (resume k rj (settled j (resume k ri (settled i s)))).
Proof.
  intros Hk Hij Hi Hj. cbn [run step]. rewrite Hi.
  replace (awaits j k (resume k ri (settled i s))) with true; [reflexivity|].
  symmetry. unfold awaits. rewrite (pending_after_load k ri _ Hk).
  fold (awaits j k (settled i s)). now rewrite awaits_settled.
Qed.

Lemma last_settle (k : kont) (events : list event) (rid : nat)
    (r : fetch_result (response k)) (s s' : app) :
  run (events ++ [Settle rid k r]) s = Some s' ->
  exists s1, s' = resume k r s1.
Proof.
  intros H. rewrite run_app in H.
  destruct (run events s) as [s1|]; [|discriminate].
  cbn in H. destruct (awaits rid k s1); [|discriminate].
  injection H as <-. now eexists.
Qed.

Ltac overlapping section load K :=
  match goal with
  | |- context [run (_ ++ [Settle ?a K ?ra; Settle ?b K ?rb]) ?s] =>
      rewrite run_app;
      change (run [Call (Navigate section); Call (Navigate section)] s)
        with (Some (load (load s)));
      cbv beta iota;
      rewrite (settle_one_after_the_other K ra rb a b);
      [ cbn [option_map resume]; f_equal; apply store_after_load
      | tauto
      | lia
      | apply (both_in_flight _ K s eq_refl)
      | apply (both_in_flight _ K s eq_refl) ]
  end.

(** C5, as amended.  When two loads of the same kind overlap, be it the
    agents, the tools, the workflows or the configuration, the store ends
    with the result of the load that settles last, in whichever order the
    two were started: nothing marks a load as superseded, so a load started
    first that settles second overwrites the result of the newer one.  More
    generally, after any run that ends with a load settling, the store of
    its kind holds that load's result. *)
Theorem overlapping_loads_last_settled_wins :
  forall (s : app),
    let i := List.length (requests s) in
    (forall (older newer : fetch_result (list Agent.t)),
        let start := [Call (Navigate "agents"); Call (Navigate "agents")] in
        option_map agents
          (run (start ++ [Settle (S i) KLoadAgents newer; Settle i KLoadAgents older]) s)
        = Some (loaded_agents older)
        /\ option_map agents
             (run (start ++ [Settle i KLoadAgents older; Settle (S i) KLoadAgents newer]) s)
           = Some (loaded_agents newer)
        /\ (forall events rid r s',
              run (events ++ [Settle rid KLoadAgents r]) s = Some s' ->
              agents s' = loaded_agents r))
    /\ (forall (older newer : fetch_result (list Tool.t)),
          let start := [Call (Navigate "tools"); Call (Navigate "tools")] in
          option_map tools
            (run (start ++ [Settle (S i) KLoadTools newer; Settle i KLoadTools older]) s)
          = Some (loaded_tools older)
          /\ option_map tools
               (run (start ++ [Settle i KLoadTools older; Settle (S i) KLoadTools newer]) s)
             = Some (loaded_tools newer)
          /\ (forall events rid r s',
                run (events ++ [Settle rid KLoadTools r]) s = Some s' ->
                tools s' = loaded_tools r))
    /\ (forall (older newer : fetch_result (list Workflow.t)),
          let start := [Call (Navigate "workflows"); Call (Navigate "workflows")] in
          option_map workflows
            (run (start ++ [Settle (S i) KLoadWorkflows newer;
                            Settle i KLoadWorkflows older]) s)
          = Some (loaded_workflows older)
          /\ option_map workflows
               (run (start ++ [Settle i KLoadWorkflows older;
                               Settle (S i) KLoadWorkflows newer]) s)
             = Some (loaded_workflows newer)
          /\ (forall events rid r s',
                run (events ++ [Settle rid KLoadWorkflows r]) s = Some s' ->
                workflows s' = loaded_workflows r))
    /\ (forall (older newer : fetch_result SystemConfig.t),
          let start := [Call (Navigate "system"); Call (Navigate "system")] in
          option_map systemConfig
            (run (start ++ [Settle (S i) KLoadSystemConfig newer;
                            Settle i KLoadSystemConfig older]) s)
          = Some (Some (loaded_config older))
          /\ option_map systemConfig
               (run (start ++ [Settle i KLoadSystemConfig older;
                               Settle (S i) KLoadSystemConfig newer]) s)
             = Some (Some (loaded_config newer))
          /\ (forall events rid r s',
                run (events ++ [Settle rid KLoadSystemConfig r]) s = Some s' ->
                systemConfig s' = Some (loaded_config r))).
Proof.
  intros s i. split; [|split; [|split]]; intros older newer start; subst start.
  - split; [|split].
    + overlapping "agents" loadAgents KLoadAgents.
    + overlapping "agents" loadAgents KLoadAgents.
    + intros events rid r s' H.
      destruct (last_settle KLoadAgents events rid r s s' H) as [s1 ->].
      apply store_after_load.
  - split; [|split].
    + overlapping "tools" loadTools KLoadTools.
    + overlapping "tools" loadTools KLoadTools.
    + intros events rid r s' H.
      destruct (last_settle KLoadTools events rid r s s' H) as [s1 ->].
      apply store_after_load.
  - split; [|split].
    + overlapping "workflows" loadWorkflows KLoadWorkflows.
    + overlapping "workflows" loadWorkflows KLoadWorkflows.
    + intros events rid r s' H.
      destruct (last_settle KLoadWorkflows events rid r s s' H) as [s1 ->].
      apply store_after_load.
  - split; [|split].
    + overlapping "system" loadSystemConfig KLoadSystemConfig.
    + overlapping "system" loadSystemConfig KLoadSystemConfig.
    + intros events rid r s' H.
      destruct (last_settle KLoadSystemConfig events rid r s s' H) as [s1 ->].
      apply store_after_load.
Qed.

Lemma overlapping_loads_witness :
  (exists s',
      run ([ Call (Navigate "agents"); Call (Navigate "agents");
             Settle 1 KLoadAgents (HttpOk (Parsed [newer_agent_of_backend])) ]
           ++ [Settle 0 KLoadAgents unreachable]) initial = Some s'
      /\ agents s' = mock_agents)
  /\ (exists s',
        run ([ Call (Navigate "tools"); Call (Navigate "tools");
               Settle 1 KLoadTools (HttpOk (Parsed [newer_tool_of_backend])) ]
             ++ [Settle 0 KLoadTools unreachable]) initial = Some s'
        /\ tools s' = mock_tools)
  /\ (exists s',
        run ([ Call (Navigate "workflows"); Call (Navigate "workflows");
               Settle 1 KLoadWorkflows (HttpOk (Parsed [newer_workflow_of_backend])) ]
             ++ [Settle 0 KLoadWorkflows unreachable]) initial = Some s'
        /\ workflows s' = mock_workflows)
  /\ (exists s',
        run ([ Call (Navigate "system"); Call (Navigate "system");
               Settle 1 KLoadSystemConfig (HttpOk (Parsed newer_config_of_backend)) ]
             ++ [Settle 0 KLoadSystemConfig unreachable]) initial = Some s'
        /\ systemConfig s' = Some mock_systemConfig).
Proof.
  destruct (overlapping_loads_last_settled_wins initial) as [Ha [Ht [Hw Hc]]].
  split; [|split; [|split]];
    match goal with
    | |- exists s', run ?evs initial = Some s' /\ _ =>
        destruct (run evs initial) as [s1|] eqn:E;
        [ exists s1; split; [reflexivity|] | vm_compute in E; discriminate ]
    end.
  - exact (proj2 (proj2 (Ha unreachable unreachable)) _ 0 unreachable s1 E).
  - exact (proj2 (proj2 (Ht unreachable unreachable)) _ 0 unreachable s1 E).
  - exact (proj2 (proj2 (Hw unreachable unreachable)) _ 0 unreachable s1 E).
  - exact (proj2 (proj2 (Hc unreachable unreachable)) _ 0 unreachable s1 E).
Defined.

(** C5, as stated, fails, for each kind.  Two loads of one kind are in
    flight; the one started last is answered first, the one started first
    is answered after it.  The store ends with the answer to the older
    load. *)
Lemma stale_load_overwrites_the_newer_one :
  (option_map agents
     (run [ Call (Navigate "agents"); Call (Navigate "agents");
            Settle 1 KLoadAgents (HttpOk (Parsed [newer_agent_of_backend]));
            Settle 0 KLoadAgents (HttpOk (Parsed [agent_of_backend])) ] initial)
   = Some [agent_of_backend]
   /\ [agent_of_backend] <> [newer_agent_of_backend])
  /\ (option_map tools
        (run [ Call (Navigate "tools"); Call (Navigate "tools");
               Settle 1 KLoadTools (HttpOk (Parsed [newer_tool_of_backend]));
               Settle 0 KLoadTools (HttpOk (Parsed [tool_of_backend])) ] initial)
      = Some [tool_of_backend]
      /\ [tool_of_backend] <> [newer_tool_of_backend])
  /\ (option_map workflows
        (run [ Call (Navigate "workflows"); Call (Navigate "workflows");
               Settle 1 KLoadWorkflows (HttpOk (Parsed [newer_workflow_of_backend]));
               Settle 0 KLoadWorkflows (HttpOk (Parsed [workflow_of_backend])) ] initial)
      = Some [workflow_of_backend]
      /\ [workflow_of_backend] <> [newer_workflow_of_backend])
  /\ (option_map systemConfig
        (run [ Call (Navigate "system"); Call (Navigate "system");
               Settle 1 KLoadSystemConfig (HttpOk (Parsed newer_config_of_backend));
               Settle 0 KLoadSystemConfig (HttpOk (Parsed config_of_backend)) ] initial)
      = Some (Some config_of_backend)
      /\ config_of_backend <> newer_config_of_backend).
Proof. repeat split; discriminate. Qed.

(** ** Deleting a resource (C7) *)

(** A [DELETE] fails exactly when the transport fails or the status is
    not a success; the body of a successful answer is never read. *)
Lemma delete_fails_iff {A} (r : fetch_result A) (message : string) :
  outcome DELETE r = Rejected message <->
  r = FetchRejected message
  \/ r = HttpNotOk (Unparsable message)
  \/ exists detail, r = HttpNotOk (Parsed detail)
                    /\ message = or_else detail "API request failed".
Proof.
  unfold outcome. destruct r as [m | [d | m] | b]; cbn; split.
  - intros [= ->]. now left.
  - intros [[= ->] | [[=] | [d [[=] _]]]]. reflexivity.
  - intros [= <-]. right; right. now exists d.
  - intros [[=] | [[=] | [d' [[= ->] ->]]]]. reflexivity.
  - intros [= ->]. right; now left.
  - intros [[=] | [[= ->] | [d [[=] _]]]]. reflexivity.
  - discriminate.
  - intros [[=] | [[=] | [d [[=] _]]]].
Qed.

(** C7.  A delete of an agent, a tool or a workflow issues its request only
    when the confirmation was given; declined, nothing at all happens.
    Issuing the request does not touch the stored collection.  When the
    request fails (the transport fails or the status is not a success), the
    page is left as it was but for the toast, which receives the wrapper's
    message and then the caller's: the collection and its table are
    unchanged, and no reload is requested.  Only when the request succeeds
    is the success notification shown and the reload of the owning store
    requested; the collection itself changes when that reload settles. *)
Theorem delete_is_confirmed_first_and_never_optimistic :
  forall (id : string) (s : app) (r : fetch_result unit),
    (deleteAgent id false s = s /\ deleteTool id false s = s
     /\ deleteWorkflow id false s = s)
    /\ (requests (deleteAgent id true s)
        = requests s ++ [Request.mk ("/api/v1/agents/" ++ id) DELETE None]
        /\ agents (deleteAgent id true s) = agents s)
    /\ (requests (deleteTool id true s)
        = requests s ++ [Request.mk ("/api/v1/tools/" ++ id) DELETE None]
        /\ tools (deleteTool id true s) = tools s)
    /\ (requests (deleteWorkflow id true s)
        = requests s ++ [Request.mk ("/api/v1/workflows/" ++ id) DELETE None]
        /\ workflows (deleteWorkflow id true s) = workflows s)
    /\ (forall message,
          outcome DELETE r = Rejected message ->
          (deleteAgent_resume r s
           = showToast "Error deleting agent" error (showToast message error s)
           /\ agents (deleteAgent_resume r s) = agents s
           /\ agent_list (deleteAgent_resume r s) = agent_list s
           /\ requests (deleteAgent_resume r s) = requests s)
          /\ (deleteTool_resume r s
              = showToast "Error deleting tool" error (showToast message error s)
              /\ tools (deleteTool_resume r s) = tools s
              /\ tool_list (deleteTool_resume r s) = tool_list s
              /\ requests (deleteTool_resume r s) = requests s)
          /\ (deleteWorkflow_resume r s
              = showToast "Error deleting workflow" error (showToast message error s)
              /\ workflows (deleteWorkflow_resume r s) = workflows s
              /\ workflow_list (deleteWorkflow_resume r s) = workflow_list s
              /\ requests (deleteWorkflow_resume r s) = requests s))
    /\ (forall v,
          outcome DELETE r = Resolved v ->
          (deleteAgent_resume r s
           = loadAgents (showToast "Agent deleted successfully" success s)
           /\ agents (deleteAgent_resume r s) = agents s
           /\ requests (deleteAgent_resume r s)
              = requests s ++ [Request.mk "/api/v1/agents" GET None])
          /\ (deleteTool_resume r s
              = loadTools (showToast "Tool deleted successfully" success s)
              /\ tools (deleteTool_resume r s) = tools s
              /\ requests (deleteTool_resume r s)
                 = requests s ++ [Request.mk "/api/v1/tools" GET None])
          /\ (deleteWorkflow_resume r s
              = loadWorkflows (showToast "Workflow deleted successfully" success s)
              /\ workflows (deleteWorkflow_resume r s) = workflows s
              /\ requests (deleteWorkflow_resume r s)
                 = requests s ++ [Request.mk "/api/v1/workflows" GET None]))
    /\ ((exists message, outcome DELETE r = Rejected message)
        <-> forall body, r <> HttpOk body).
Proof.
  intros id s r.
  split; [now repeat split|].
  split; [now split|].
  split; [now split|].
  split; [now split|].
  split; [|split].
  - intros x H; unfold deleteAgent_resume, deleteTool_resume, deleteWorkflow_resume;
      settle; repeat split.
  - intros x H; unfold deleteAgent_resume, deleteTool_resume, deleteWorkflow_resume;
      settle; repeat split.
  - split.
    + intros [message H] body ->. discriminate.
    + intros H. destruct r as [m | [d | m] | b].
      * now exists m.
      * now exists (or_else d "API request failed").
      * now exists m.
      * now contradiction (H b).
Qed.

Lemma delete_witness :
  let refused : fetch_result unit := HttpNotOk (Parsed (Some "Agent is in use")) in
  let s := renderAgents (set_agents [agent_of_backend] initial) in
  outcome DELETE refused = Rejected "Agent is in use"
  /\ agents (deleteAgent_resume refused s) = [agent_of_backend]
  /\ requests (deleteAgent_resume refused s) = [].
Proof.
  intros refused s. split; [reflexivity|].
  destruct (delete_is_confirmed_first_and_never_optimistic "42" s refused)
    as [_ [_ [_ [_ [Hfail _]]]]].
  destruct (Hfail "Agent is in use" eq_refl) as [[_ [Hstore [_ Hreq]]] _].
  split; [exact Hstore | exact Hreq].
Defined.

(** A refused delete, and a delete that goes through, from a page that
    shows one agent of the backend. *)
Example delete_scenarios :
  let shown := [ Call Start; Settle 0 KLoadAgents (HttpOk (Parsed [agent_of_backend])) ] in
  let refused : fetch_result unit := HttpNotOk (Parsed (Some "Agent is in use")) in
  let accepted : fetch_result unit := HttpOk (Unparsable "Unexpected end of JSON input") in
  option_map agents
    (run (shown ++ [Call (DeleteAgent "42" true); Settle 4 KDeleteAgent refused]) initial)
  = Some [agent_of_backend]
  /\ option_map (fun s => List.length (requests s))
       (run (shown ++ [Call (DeleteAgent "42" false)]) initial)
     = Some 4
  /\ option_map toasts
       (run (shown ++ [Call (DeleteAgent "42" true); Settle 4 KDeleteAgent accepted;
                       Settle 5 KLoadAgents (HttpOk (Parsed []))]) initial)
     = Some [("Agent deleted successfully", success)]
  /\ option_map agent_list
       (run (shown ++ [Call (DeleteAgent "42" true); Settle 4 KDeleteAgent accepted;
                       Settle 5 KLoadAgents (HttpOk (Parsed []))]) initial)
     = Some (Placeholder "No agents found").
Proof. repeat split. Qed.

(** ** Saving the configuration (C10) *)

Lemma splice1_removes {A} (index : nat) (xs : list A) :
  index < List.length xs -> List.length (splice1 index xs) < List.length xs.
Proof.
  intros H. unfold splice1.
  rewrite length_app, length_firstn, length_skipn. lia.
Qed.

Lemma splice1_out_of_range {A} (index : nat) (xs : list A) :
  List.length xs <= index -> splice1 index xs = xs.
Proof.
  intros H. unfold splice1.
  rewrite firstn_all2, skipn_all2, app_nil_r by lia. reflexivity.
Qed.

(** C10.  [server] is the configuration the backend holds, and the page
    holds the same.  Saving the general settings, deleting a model
    configuration and deleting a database configuration each change the
    configuration of the page first and then send the changed configuration
    with [PUT].  When that request fails, the page keeps the changed
    configuration: nothing puts the old one back and no reload is requested.
    So, whenever the change was one (the configuration sent differs from the
    one held before, as it does for a row that exists), the page and the
    backend differ after the failure. *)
Theorem failed_save_keeps_the_local_change :
  forall (s : app) (server : SystemConfig.t) (r : fetch_result unit)
         (message : string),
    systemConfig s = Some server ->
    outcome PUT r = Rejected message ->
    (forall logLevel cacheDir,
        let changed := SystemConfig.with_cache_dir cacheDir
                         (SystemConfig.with_log_level logLevel server) in
        let s1 := saveGeneralSettings logLevel cacheDir s in
        let s2 := saveGeneralSettings_resume r s1 in
        systemConfig s1 = Some changed
        /\ last_request s1
           = Some (Request.mk "/api/v1/system/config" PUT (Some (BodyConfig changed)))
        /\ systemConfig s2 = Some changed
        /\ requests s2 = requests s1
        /\ (changed <> server -> systemConfig s2 <> Some server))
    /\ (forall index,
        let changed := SystemConfig.with_llm_configs
                         (splice1 index (SystemConfig.llm_configs server)) server in
        let s1 := deleteLlm index true s in
        let s2 := updateSystemConfig_resume r s1 in
        systemConfig s1 = Some changed
        /\ last_request s1
           = Some (Request.mk "/api/v1/system/config" PUT (Some (BodyConfig changed)))
        /\ systemConfig s2 = Some changed
        /\ requests s2 = requests s1
        /\ (index < List.length (SystemConfig.llm_configs server) ->
            systemConfig s2 <> Some server))
    /\ (forall index,
        let changed := SystemConfig.with_database_configs
                         (splice1 index (SystemConfig.database_configs server)) server in
        let s1 := deleteDatabase index true s in
        let s2 := updateSystemConfig_resume r s1 in
        systemConfig s1 = Some changed
        /\ last_request s1
           = Some (Request.mk "/api/v1/system/config" PUT (Some (BodyConfig changed)))
        /\ systemConfig s2 = Some changed
        /\ requests s2 = requests s1
        /\ (index < List.length (SystemConfig.database_configs server) ->
            systemConfig s2 <> Some server)).
Proof.
  intros s server r message Hs Hr.
  split; [|split].
  - intros logLevel cacheDir changed s1 s2.
    assert (H2 : s2 = showToast "Error saving settings" error
                        (showToast message error s1)).
    { unfold s2, saveGeneralSettings_resume. now settle. }
    unfold s1, saveGeneralSettings in *. rewrite Hs in *.
    rewrite last_request_apiRequest, H2.
    repeat split. intros Hne E. apply Hne. now injection E.
  - intros index changed s1 s2.
    assert (H2 : s2 = showToast "Error updating configuration" error
                        (showToast message error s1)).
    { unfold s2, updateSystemConfig_resume. now settle. }
    unfold s1, deleteLlm, updateSystemConfig in *. rewrite Hs in *.
    rewrite last_request_apiRequest, H2.
    repeat split. cbn. intros Hlt [= E].
    apply splice1_removes in Hlt.
    apply (f_equal SystemConfig.llm_configs) in E. cbn in E.
    rewrite E in Hlt. lia.
  - intros index changed s1 s2.
    assert (H2 : s2 = showToast "Error updating configuration" error
                        (showToast message error s1)).
    { unfold s2, updateSystemConfig_resume. now settle. }
    unfold s1, deleteDatabase, updateSystemConfig in *. rewrite Hs in *.
    rewrite last_request_apiRequest, H2.
    repeat split. cbn. intros Hlt [= E].
    apply splice1_removes in Hlt.
    apply (f_equal SystemConfig.database_configs) in E. cbn in E.
    rewrite E in Hlt. lia.
Qed.

Lemma failed_save_witness :
  let s := set_systemConfig (Some mock_systemConfig) initial in
  systemConfig s = Some mock_systemConfig
  /\ outcome PUT (unreachable : fetch_result unit) = Rejected "Failed to fetch"
  /\ systemConfig (updateSystemConfig_resume unreachable (deleteLlm 0 true s))
     <> Some mock_systemConfig
  /\ systemConfig (saveGeneralSettings_resume unreachable
                     (saveGeneralSettings "DEBUG" "/var/cache" s))
     <> Some mock_systemConfig.
Proof.
  intros s.
  pose proof (failed_save_keeps_the_local_change s mock_systemConfig unreachable
                "Failed to fetch" eq_refl eq_refl) as [Hsave [Hllm _]].
  split; [reflexivity | split; [reflexivity | split]].
  - apply (Hllm 0). cbn. lia.
  - apply (Hsave "DEBUG" "/var/cache"). discriminate.
Defined.

(** ** JSON text: the parser always has the fuel it needs *)

Lemma skip_ws_le l : List.length (skip_ws l) <= List.length l.
Proof. induction l as [|c l IH]; cbn; [lia|]. destruct (is_ws c); cbn; lia. Qed.

Lemma eat_lt c l r : eat c l = Some r -> List.length r < List.length l.
Proof.
  destruct l as [|d l]; cbn; [discriminate|].
  destruct (Ascii.eqb d c); [intros [= <-]; lia | discriminate].
Qed.

Lemma take_digits_le l : List.length (snd (take_digits l)) <= List.length l.
Proof.
  induction l as [|c l IH]; cbn; [lia|].
  destruct (is_digit c); cbn; [|lia].
  destruct (take_digits l); cbn in *; lia.
Qed.

Lemma int_part_le l i r : int_part l = Some (i, r) -> List.length r <= List.length l.
Proof.
  unfold int_part. destruct (eat "0" l) eqn:E.
  - intros [= _ <-]. apply eat_lt in E. lia.
  - pose proof (take_digits_le l) as H.
    destruct (take_digits l) as [[|d ds] t]; [discriminate|].
    now intros [= _ <-].
Qed.

Lemma frac_part_le l i r : frac_part l = Some (i, r) -> List.length r <= List.length l.
Proof.
  unfold frac_part. destruct (eat "." l) eqn:E.
  - apply eat_lt in E. pose proof (take_digits_le l0) as H.
    destruct (take_digits l0) as [[|d ds] t]; [discriminate|].
    intros [= _ <-]. cbn in H. lia.
  - now intros [= _ <-].
Qed.

Lemma exp_part_le l i r : exp_part l = Some (i, r) -> List.length r <= List.length l.
Proof.
  unfold exp_part. destruct l as [|e l]; [now intros [= _ <-]|].
  destruct (Ascii.eqb e "e" || Ascii.eqb e "E")%char; [|now intros [= _ <-]].
  destruct l as [|s t].
  - cbn. discriminate.
  - destruct (Ascii.eqb s "+" || Ascii.eqb s "-")%char.
    + pose proof (take_digits_le t) as H.
      destruct (take_digits t) as [[|d ds] t']; [discriminate|].
      intros [= _ <-]. cbn in *. lia.
    + pose proof (take_digits_le (s :: t)) as H.
      destruct (take_digits (s :: t)) as [[|d ds] t']; [discriminate|].
      intros [= _ <-]. cbn in *. lia.
Qed.

Lemma parse_number_le l n r :
  parse_number l = Some (n, r) -> List.length r <= List.length l.
Proof.
  unfold parse_number.
  assert (H : forall sign l1, List.length l1 <= List.length l ->
    match int_part l1 with
    | Some (i, l2) =>
        match frac_part l2 with
        | Some (f, l3) =>
            match exp_part l3 with
            | Some (x, l4) => Some (sign ++ i ++ f ++ x, l4)
            | None => None
            end
        | None => None
        end
    | None => None
    end = Some (n, r) -> List.length r <= List.length l).
  { intros sign l1 Hl.
    destruct (int_part l1) as [[i l2]|] eqn:E1; [|discriminate].
    destruct (frac_part l2) as [[f l3]|] eqn:E2; [|discriminate].
    destruct (exp_part l3) as [[x l4]|] eqn:E3; [|discriminate].
    intros [= _ <-].
    apply int_part_le in E1. apply frac_part_le in E2. apply exp_part_le in E3. lia. }
  destruct (eat "-" l) eqn:E.
  - apply H. apply eat_lt in E. lia.
  - now apply H.
Qed.

Lemma parse_chars_lt l s r :
  parse_chars l = Some (s, r) -> List.length r < List.length l.
Proof.
  remember (List.length l) as n eqn:Hn.
  assert (Hle : List.length l <= n) by lia. clear Hn.
  revert l s r Hle. induction n as [|n IH]; intros l s r Hle.
  - destruct l; [discriminate | cbn in Hle; lia].
  - destruct l as [|c l]; [discriminate|]. cbn in Hle. cbn [parse_chars].
    destruct (Ascii.eqb c quote); [intros [= _ <-]; cbn; lia|].
    destruct (nat_of_ascii c <? 32); [discriminate|].
    destruct (Ascii.eqb c "\"%char).
    + destruct l as [|e r1]; [discriminate|]. cbn in Hle.
      destruct (Ascii.eqb e "u"%char).
      * destruct r1 as [|h1 [|h2 [|h3 [|h4 r2]]]]; try discriminate.
        cbn in Hle.
        destruct (hex_value h1), (hex_value h2), (hex_value h3), (hex_value h4);
          try discriminate.
        destruct (parse_chars r2) as [[s' t]|] eqn:E; [|discriminate].
        intros [= _ <-]. apply IH in E; [cbn; lia | lia].
      * destruct (escape e); [|discriminate].
        destruct (parse_chars r1) as [[s' t]|] eqn:E; [|discriminate].
        intros [= _ <-]. apply IH in E; [cbn; lia | lia].
    + destruct (parse_chars l) as [[s' t]|] eqn:E; [|discriminate].
      intros [= _ <-]. apply IH in E; [cbn; lia | lia].
Qed.

Lemma literal_le w l r : literal w l = Some r -> List.length r <= List.length l.
Proof.
  revert l; induction w as [|c w IH]; intros l; cbn.
  - now intros [= <-].
  - destruct (eat c l) eqn:E; [|discriminate].
    intros H. apply IH in H. apply eat_lt in E. lia.
Qed.

Lemma keyword_le w v l v' r :
  keyword w v l = Done v' r -> List.length r <= List.length l.
Proof.
  unfold keyword. destruct (literal _ l) eqn:E; [|discriminate].
  intros [= _ <-]. now apply literal_le in E.
Qed.

Lemma parse_shrinks (fuel : nat) :
  (forall l, shrinks (parse_value fuel l) l)
  /\ (forall l acc, shrinks (parse_elements fuel l acc) l)
  /\ (forall l acc, shrinks (parse_members fuel l acc) l).
Proof.
  induction fuel as [|f [IHv [IHe IHm]]]; [repeat split |].
  split; [|split].
  - intros l. cbn [parse_value].
    pose proof (skip_ws_le l) as Hws.
    destruct (skip_ws l) as [|c r]; [exact I|]. cbn in Hws.
    destruct (Ascii.eqb c "{"%char).
    { destruct (eat "}" (skip_ws r)) eqn:E.
      - cbn. apply eat_lt in E. pose proof (skip_ws_le r). lia.
      - specialize (IHm r []). destruct (parse_members f r []); cbn in *; lia. }
    destruct (Ascii.eqb c "["%char).
    { destruct (eat "]" (skip_ws r)) eqn:E.
      - cbn. apply eat_lt in E. pose proof (skip_ws_le r). lia.
      - specialize (IHe r []). destruct (parse_elements f r []); cbn in *; lia. }
    destruct (Ascii.eqb c quote).
    { destruct (parse_chars r) as [[s t]|] eqn:E; [|exact I].
      cbn. apply parse_chars_lt in E. lia. }
    assert (K : forall w v, shrinks (keyword w v (c :: r)) l).
    { intros w v. destruct (keyword w v (c :: r)) eqn:E; cbn; auto.
      apply keyword_le in E. cbn in E. lia. }
    destruct (Ascii.eqb c "t"%char); [apply K|].
    destruct (Ascii.eqb c "f"%char); [apply K|].
    destruct (Ascii.eqb c "n"%char); [apply K|].
    destruct (parse_number (c :: r)) as [[n t]|] eqn:E; [|exact I].
    cbn. apply parse_number_le in E. cbn in E. lia.
  - intros l acc. cbn [parse_elements].
    specialize (IHv l). destruct (parse_value f l) as [v r| |]; try exact I.
    cbn in IHv. pose proof (skip_ws_le r) as Hws.
    destruct (skip_ws r) as [|c t]; [exact I|]. cbn in Hws.
    destruct (Ascii.eqb c ","%char).
    { specialize (IHe t (v :: acc)).
      destruct (parse_elements f t (v :: acc)); cbn in *; lia. }
    destruct (Ascii.eqb c "]"%char); cbn; [lia | exact I].
  - intros l acc. cbn [parse_members].
    destruct (eat quote (skip_ws l)) as [r|] eqn:E1; [|exact I].
    apply eat_lt in E1. pose proof (skip_ws_le l).
    destruct (parse_chars r) as [[k r1]|] eqn:E2; [|exact I].
    apply parse_chars_lt in E2.
    destruct (eat ":" (skip_ws r1)) as [r2|] eqn:E3; [|exact I].
    apply eat_lt in E3. pose proof (skip_ws_le r1).
    specialize (IHv r2). destruct (parse_value f r2) as [v r3| |]; try exact I.
    cbn in IHv. pose proof (skip_ws_le r3) as Hws.
    destruct (skip_ws r3) as [|c t]; [exact I|]. cbn in Hws.
    destruct (Ascii.eqb c ","%char).
    { specialize (IHm t ((string_of_list_ascii k, v) :: acc)).
      destruct (parse_members f t _); cbn in *; lia. }
    destruct (Ascii.eqb c "}"%char); cbn; [lia | exact I].
Qed.

Lemma parse_fuel (fuel : nat) :
  (forall l, 2 * List.length l + 1 <= fuel -> parse_value fuel l <> OutOfFuel)
  /\ (forall l acc, 2 * List.length l + 2 <= fuel ->
        parse_elements fuel l acc <> OutOfFuel)
  /\ (forall l acc, 2 * List.length l + 2 <= fuel ->
        parse_members fuel l acc <> OutOfFuel).
Proof.
  induction fuel as [|f [IHv [IHe IHm]]]; [repeat split; intros; lia |].
  split; [|split].
  - intros l Hf. cbn [parse_value].
    pose proof (skip_ws_le l) as Hws.
    destruct (skip_ws l) as [|c r]; [discriminate|]. cbn in Hws.
    destruct (Ascii.eqb c "{"%char).
    { destruct (eat "}" (skip_ws r)); [discriminate|]. apply IHm. lia. }
    destruct (Ascii.eqb c "["%char).
    { destruct (eat "]" (skip_ws r)); [discriminate|]. apply IHe. lia. }
    destruct (Ascii.eqb c quote).
    { destruct (parse_chars r) as [[s t]|]; discriminate. }
    unfold keyword.
    destruct (Ascii.eqb c "t"%char); [destruct (literal _ _); discriminate|].
    destruct (Ascii.eqb c "f"%char); [destruct (literal _ _); discriminate|].
    destruct (Ascii.eqb c "n"%char); [destruct (literal _ _); discriminate|].
    destruct (parse_number (c :: r)) as [[n t]|]; discriminate.
  - intros l acc Hf. cbn [parse_elements].
    pose proof (IHv l) as Hv. pose proof (proj1 (parse_shrinks f) l) as Hs.
    destruct (parse_value f l) as [v r| |]; [|discriminate | apply Hv; lia].
    cbn in Hs. pose proof (skip_ws_le r) as Hws.
    destruct (skip_ws r) as [|c t]; [discriminate|]. cbn in Hws.
    destruct (Ascii.eqb c ","%char); [apply IHe; lia|].
    destruct (Ascii.eqb c "]"%char); discriminate.
  - intros l acc Hf. cbn [parse_members].
    destruct (eat quote (skip_ws l)) as [r|] eqn:E1; [|discriminate].
    apply eat_lt in E1. pose proof (skip_ws_le l).
    destruct (parse_chars r) as [[k r1]|] eqn:E2; [|discriminate].
    apply parse_chars_lt in E2.
    destruct (eat ":" (skip_ws r1)) as [r2|] eqn:E3; [|discriminate].
    apply eat_lt in E3. pose proof (skip_ws_le r1).
    pose proof (IHv r2) as Hv. pose proof (proj1 (parse_shrinks f) r2) as Hs.
    destruct (parse_value f r2) as [v r3| |]; [|discriminate | apply Hv; lia].
    cbn in Hs. pose proof (skip_ws_le r3) as Hws.
    destruct (skip_ws r3) as [|c t]; [discriminate|]. cbn in Hws.
    destruct (Ascii.eqb c ","%char); [apply IHm; lia|].
    destruct (Ascii.eqb c "}"%char); discriminate.
Qed.

(** The fuel [JSON_parse] gives is enough for every text: it reports a
    malformed text, never a lack of fuel. *)
Lemma JSON_parse_fuel (text : string) :
  let l := list_ascii_of_string text in
  parse_value (2 * List.length l + 2) l <> OutOfFuel.
Proof. intros l. apply parse_fuel. lia. Qed.

(** [JSON_parse] answers [None] for a text that is malformed or that goes on
    after its value, and for no other. *)
Lemma JSON_parse_None (text : string) :
  let l := list_ascii_of_string text in
  let fuel := 2 * List.length l + 2 in
  JSON_parse text = None <->
  parse_value fuel l = Malformed
  \/ exists v r, parse_value fuel l = Done v r /\ skip_ws r <> [].
Proof.
  intros l fuel. unfold JSON_parse. fold l. fold fuel.
  pose proof (JSON_parse_fuel text) as Hfuel. cbn zeta in Hfuel.
  fold l in Hfuel. fold fuel in Hfuel.
  destruct (parse_value fuel l) as [v r| |].
  - destruct (skip_ws r) as [|c t] eqn:E; split.
    + discriminate.
    + intros [H | [v' [r' [[= _ <-] H]]]]; [discriminate | now contradiction H].
    + intros _. right. exists v, r. split; [reflexivity | now rewrite E].
    + reflexivity.
  - split; [now left | reflexivity].
  - now contradiction Hfuel.
Qed.

(** ** JSON input for a run or a test (C8) *)

Lemma truthy_nonempty (x : string) : x <> "" -> truthy x = true.
Proof. destruct x; [contradiction | reflexivity]. Qed.

(** C8, as amended.  For a workflow run and a tool test, an input that is
    not empty and does not parse as JSON is rejected on the spot: the notice
    of invalid input is raised in a dialog, the toast stays as it was and no
    request is issued.  A dismissed prompt and an empty input are ignored,
    without a notice and without a request.  A request is issued only for an
    input that is not empty and parses, and it carries the parsed value. *)
Theorem malformed_input_is_rejected_locally :
  forall (id input : string) (s : app),
    input <> "" ->
    JSON_parse input = None ->
    (runWorkflow id (Some input) s = alert invalid_json_notice s
     /\ requests (runWorkflow id (Some input) s) = requests s
     /\ toasts (runWorkflow id (Some input) s) = toasts s
     /\ testTool id (Some input) s = alert invalid_json_notice s
     /\ requests (testTool id (Some input) s) = requests s
     /\ toasts (testTool id (Some input) s) = toasts s)
    /\ (runWorkflow id None s = s /\ runWorkflow id (Some "") s = s
        /\ testTool id None s = s /\ testTool id (Some "") s = s)
    /\ (forall runInput,
          requests (runWorkflow id runInput s) <> requests s ->
          exists text inputData,
            runInput = Some text /\ text <> "" /\ JSON_parse text = Some inputData
            /\ requests (runWorkflow id runInput s)
               = requests s ++ [Request.mk ("/api/v1/workflows/" ++ id ++ "/run") POST
                                  (Some (BodyInputData inputData))])
    /\ (forall testInput,
          requests (testTool id testInput s) <> requests s ->
          exists text inputData,
            testInput = Some text /\ text <> "" /\ JSON_parse text = Some inputData
            /\ requests (testTool id testInput s)
               = requests s ++ [Request.mk ("/api/v1/tools/" ++ id ++ "/test") POST
                                  (Some (BodyInputData inputData))]).
Proof.
  intros id input s Hne Hbad.
  split; [|split; [now repeat split | split]].
  - unfold runWorkflow, testTool.
    rewrite (truthy_nonempty input Hne), Hbad. now repeat split.
  - intros [text|] H; [|now contradiction H].
    unfold runWorkflow in *.
    destruct text as [|c text]; [now contradiction H|]. cbn [truthy] in *.
    destruct (JSON_parse (String c text)) as [v|] eqn:E; [|now contradiction H].
    exists (String c text), v.
    split; [reflexivity | split; [discriminate | split; [exact E|]]].
    now rewrite requests_apiRequest.
  - intros [text|] H; [|now contradiction H].
    unfold testTool in *.
    destruct text as [|c text]; [now contradiction H|]. cbn [truthy] in *.
    destruct (JSON_parse (String c text)) as [v|] eqn:E; [|now contradiction H].
    exists (String c text), v.
    split; [reflexivity | split; [discriminate | split; [exact E|]]].
    now rewrite requests_apiRequest.
Qed.

(** The scenario of the specification: the input [not-json]. *)
Lemma malformed_input_witness :
  "not-json" <> "" /\ JSON_parse "not-json" = None
  /\ alerts (runWorkflow "3" (Some "not-json") initial) = [invalid_json_notice]
  /\ requests (runWorkflow "3" (Some "not-json") initial) = [].
Proof.
  assert (Hne : "not-json" <> "") by discriminate.
  assert (Hbad : JSON_parse "not-json" = None) by reflexivity.
  destruct (malformed_input_is_rejected_locally "3" "not-json" initial Hne Hbad)
    as [[H1 [H2 _]] _].
  split; [exact Hne | split; [exact Hbad | split]].
  - now rewrite H1.
  - exact H2.
Defined.

(** C8, as stated, fails.  The empty input is not JSON, and it is passed
    over without any notice.  And the notice of invalid input is not kept
    apart from a backend failure: an input that parses, sent to a backend
    that cannot be reached, raises the same notice. *)
Lemma empty_input_gets_no_notice :
  JSON_parse "" = None
  /\ runWorkflow "3" (Some "") initial = initial
  /\ testTool "3" (Some "") initial = initial
  /\ JSON_parse "[1, 2]" = Some (JArr [JNum "1"; JNum "2"])
  /\ option_map alerts
       (run [Call (RunWorkflow "3" (Some "[1, 2]")); Settle 0 KRunWorkflow unreachable]
          initial)
     = Some [invalid_json_notice]
  /\ option_map alerts (run [Call (RunWorkflow "3" (Some "not-json"))] initial)
     = Some [invalid_json_notice].
Proof. repeat split. Qed.

(** ** Numbers in the timeout field *)

Ltac eval_digit :=
  match goal with
  | |- context [digit_value 10%Z ?c] =>
      let v := eval vm_compute in (digit_value 10%Z c) in
      change (digit_value 10%Z c) with v
  end.

Lemma parse_digits_acc (u : Decimal.uint) (acc : positive) :
  parse_digits 10 (Zpos acc) (DecimalString.NilEmpty.string_of_uint u)
  = Zpos (Pos.of_uint_acc u acc).
Proof.
  revert acc; induction u; intros acc; cbn [DecimalString.NilEmpty.string_of_uint];
    try reflexivity;
    cbn [parse_digits Pos.of_uint_acc]; eval_digit; cbv iota;
    rewrite <- IHu; f_equal; lia.
Qed.

Lemma parse_digits_uint (u : Decimal.uint) :
  parse_digits 10 0 (DecimalString.NilEmpty.string_of_uint u)
  = Z.of_N (Pos.of_uint u).
Proof.
  induction u; cbn [DecimalString.NilEmpty.string_of_uint Pos.of_uint];
    try reflexivity;
    cbn [parse_digits]; eval_digit; cbv iota;
    [ exact IHu | .. ];
    cbn [Z.of_N]; rewrite <- parse_digits_acc; reflexivity.
Qed.

Lemma parseInt_digits (u : Decimal.uint) :
  u <> Decimal.Nil ->
  parseInt (DecimalString.NilEmpty.string_of_uint u)
  = Int (parse_digits 10 0 (DecimalString.NilEmpty.string_of_uint u)).
Proof.
  destruct u as [|u|u|u|u|u|u|u|u|u|u]; intros H;
    [contradiction | destruct u; reflexivity | reflexivity ..].
Qed.

Lemma parseInt_minus_digits (u : Decimal.uint) :
  u <> Decimal.Nil ->
  parseInt (String "-" (DecimalString.NilEmpty.string_of_uint u))
  = Int (- parse_digits 10 0 (DecimalString.NilEmpty.string_of_uint u)).
Proof.
  destruct u as [|u|u|u|u|u|u|u|u|u|u]; intros H;
    [contradiction | destruct u; reflexivity | reflexivity ..].
Qed.

Lemma to_uint_not_nil (p : positive) : Pos.to_uint p <> Decimal.Nil.
Proof.
  intros E. pose proof (DecimalPos.Unsigned.of_to p) as H.
  rewrite E in H. discriminate.
Qed.

(** Writing an integer to the field and reading it back with [parseInt]
    gives the integer. *)
Lemma parseInt_Number_toString (z : Z) : parseInt (Number_toString z) = Int z.
Proof.
  unfold Number_toString. destruct z as [|p|p]; [reflexivity | |];
    cbn [Z.to_int DecimalString.NilEmpty.string_of_int].
  - rewrite parseInt_digits by apply to_uint_not_nil.
    now rewrite parse_digits_uint, DecimalPos.Unsigned.of_to.
  - rewrite parseInt_minus_digits by apply to_uint_not_nil.
    now rewrite parse_digits_uint, DecimalPos.Unsigned.of_to.
Qed.

Lemma truthy_Number_toString (z : Z) : truthy (Number_toString z) = true.
Proof.
  unfold Number_toString. destruct z as [|p|p]; [reflexivity | | reflexivity].
  cbn [Z.to_int DecimalString.NilEmpty.string_of_int].
  pose proof (to_uint_not_nil p) as H.
  destruct (Pos.to_uint p); [contradiction | reflexivity ..].
Qed.

(** ** The selects of the form *)

Lemma selected_values_mark (xs : list string) (options : list Opt.t) :
  Opt.selected_values (Opt.mark xs options)
  = filter (array_includes xs) (map Opt.value options).
Proof.
  unfold Opt.selected_values, Opt.mark.
  induction options as [|o options IH]; [reflexivity|].
  cbn. destruct (array_includes xs (Opt.value o)); cbn; now rewrite IH.
Qed.

Lemma get_value_set_value (v : string) (options : list Opt.t) :
  In v (map Opt.value options) ->
  Opt.get_value (Opt.set_value v options) = v.
Proof.
  unfold Opt.get_value.
  induction options as [|o options IH]; [contradiction|].
  cbn. destruct (String.eqb_spec (Opt.value o) v) as [E|Hne]; cbn.
  - intros _. exact E.
  - intros [E|H]; [contradiction | now apply IH].
Qed.

(** ** Editing an agent and saving it unchanged (C2) *)

Lemma agentData_populate (R : Agent.t) (f : AgentForm.t)
    (d : string) (ts subs : list string) (m p : string) (t : Z) (b : bool) :
  Agent.description R = Some d ->
  Agent.tools R = Some ts -> offered_as ts (AgentForm.agent_tools f) ->
  Agent.sub_agents R = Some subs -> offered_as subs (AgentForm.agent_sub_agents f) ->
  Agent.llm_model R = Some m -> m <> "" ->
  In m (map Opt.value (AgentForm.agent_llm_model f)) ->
  Agent.additional_prompt R = Some p -> p <> "" ->
  Agent.timeout R = Some t -> t <> 0%Z ->
  Agent.trust_mode R = Some b ->
  members_of_payload (agentData (populate R f)) = members_of_record R.
Proof.
  destruct R as [id name type description is_master tools sub_agents llm_model
                   additional_prompt timeout trust_mode status].
  cbn [Agent.description Agent.tools Agent.sub_agents Agent.llm_model
       Agent.additional_prompt Agent.timeout Agent.trust_mode].
  intros -> -> Hts -> Hsubs -> Hm Hin -> Hp -> Ht ->.
  unfold populate, members_of_record.
  cbn [Agent.name Agent.agent_type Agent.description Agent.is_master Agent.tools
       Agent.sub_agents Agent.llm_model Agent.additional_prompt Agent.timeout
       Agent.trust_mode].
  rewrite (truthy_nonempty m Hm), (truthy_nonempty p Hp).
  destruct (Z.eqb_spec t 0) as [E|_]; [contradiction|].
  unfold agentData, members_of_payload.
  cbn -[Opt.selected_values Opt.mark Opt.get_value Opt.set_value
        Number_toString parseInt truthy or_else].
  rewrite !selected_values_mark, get_value_set_value by exact Hin.
  rewrite truthy_Number_toString, parseInt_Number_toString.
  unfold offered_as in Hts, Hsubs. rewrite Hts, Hsubs.
  f_equal. destruct d; reflexivity.
Qed.

(** C2, as amended.  Let [R] be a record that carries every member the form
    edits: a description, its tools and sub-agents, a model name and an
    additional prompt that are not empty, a timeout that is a safe integer
    other than zero, and a trust mode.  Let its tools and its sub-agents be
    exactly the offered options they name, in the order the two selects
    offer them, and let the drop-down offer its model.  Then, whatever the
    form held before, opening an edit session that fetches [R] and
    committing without touching a control sends a [PUT] for the edited id
    whose body has exactly the members of [R], the server's [id] and
    [status] left aside. *)
Theorem unchanged_edit_round_trips :
  forall (agentId : string) (R : Agent.t) (s : app)
         (d : string) (ts subs : list string) (m p : string) (t : Z) (b : bool),
    agentId <> "" ->
    Agent.description R = Some d ->
    Agent.tools R = Some ts ->
    offered_as ts (AgentForm.agent_tools (agent_form s)) ->
    Agent.sub_agents R = Some subs ->
    offered_as subs (AgentForm.agent_sub_agents (agent_form s)) ->
    Agent.llm_model R = Some m -> m <> "" ->
    In m (map Opt.value (AgentForm.agent_llm_model (agent_form s))) ->
    Agent.additional_prompt R = Some p -> p <> "" ->
    Agent.timeout R = Some t -> t <> 0%Z ->
    (Z.abs t <= MAX_SAFE_INTEGER)%Z ->
    Agent.trust_mode R = Some b ->
    let opened := editAgent_resume agentId (HttpOk (Parsed R)) (editAgent agentId s) in
    last_request (editAgent agentId s)
    = Some (Request.mk ("/api/v1/agents/" ++ agentId) GET None)
    /\ editingAgentId opened = Some agentId
    /\ exists body,
        last_request (saveAgent opened)
        = Some (Request.mk ("/api/v1/agents/" ++ agentId) PUT (Some (BodyAgent body)))
        /\ members_of_payload body = members_of_record R.
Proof.
  intros agentId R s d ts subs m p t b Hid Hd Hts Hots Hsubs Hosubs Hm Hmne Hin
    Hp Hpne Ht Htne _ Hb opened.
  split; [|split].
  - unfold editAgent. now rewrite last_request_apiRequest.
  - reflexivity.
  - exists (agentData (populate R (agent_form s))). split.
    + unfold saveAgent, editing.
      change (editingAgentId opened) with (Some agentId). cbv beta iota.
      rewrite (truthy_nonempty agentId Hid), last_request_apiRequest.
      reflexivity.
    + eapply agentData_populate; eassumption.
Qed.

Lemma unchanged_edit_witness :
  let s := on_form (AgentForm.set_agent_llm_model mock_llm_options)
             (on_form (AgentForm.set_agent_sub_agents
                         [Opt.fresh "1" "time_agent"; Opt.fresh "2" "weather_agent";
                          Opt.fresh "3" "calculator_agent"])
                (on_form (AgentForm.set_agent_tools mock_tool_options) initial)) in
  let opened := editAgent_resume "7" (HttpOk (Parsed full_agent)) (editAgent "7" s) in
  exists body,
    last_request (saveAgent opened)
    = Some (Request.mk "/api/v1/agents/7" PUT (Some (BodyAgent body)))
    /\ members_of_payload body = members_of_record full_agent.
Proof.
  intros s opened.
  refine (proj2 (proj2 (unchanged_edit_round_trips "7" full_agent s
            "Plans the work" ["2"] ["1"; "3"] "gpt4" "Be brief" 30%Z true
            _ eq_refl eq_refl eq_refl eq_refl eq_refl eq_refl _ _ eq_refl _
            eq_refl _ _ eq_refl))).
  - discriminate.
  - discriminate.
  - cbn. tauto.
  - discriminate.
  - discriminate.
  - unfold MAX_SAFE_INTEGER. cbn. lia.
Defined.

(** Why the amended claim asks what it asks: a record that departs from it
    in one respect, opened in a form that offers everything the record of the
    witness names, and whose timeout field still holds an earlier [45]. *)
Example each_condition_is_needed :
  let offering :=
    on_form (AgentForm.set_agent_timeout "45")
      (on_form (AgentForm.set_agent_llm_model mock_llm_options)
         (on_form (AgentForm.set_agent_sub_agents
                     [Opt.fresh "1" "time_agent"; Opt.fresh "2" "weather_agent";
                      Opt.fresh "3" "calculator_agent"])
            (on_form (AgentForm.set_agent_tools mock_tool_options) initial))) in
  let round_trips (R : Agent.t) :=
    members_of_payload
      (agentData (agent_form (editAgent_resume "7" (HttpOk (Parsed R)) offering)))
    = members_of_record R in
  let base := Agent.mk "7" "planner" "react" in
  round_trips full_agent
  /\ ~ round_trips (base None true (Some ["2"]) (Some ["1"; "3"]) (Some "gpt4")
                      (Some "Be brief") (Some 30%Z) (Some true) "active")
  /\ ~ round_trips (base (Some "Plans") true (Some ["2"; "1"]) (Some ["1"; "3"])
                      (Some "gpt4") (Some "Be brief") (Some 30%Z) (Some true) "active")
  /\ ~ round_trips (base (Some "Plans") true (Some ["9"]) (Some ["1"; "3"])
                      (Some "gpt4") (Some "Be brief") (Some 30%Z) (Some true) "active")
  /\ ~ round_trips (base (Some "Plans") true (Some ["2"]) (Some ["1"; "3"])
                      (Some "gpt5") (Some "Be brief") (Some 30%Z) (Some true) "active")
  /\ ~ round_trips (base (Some "Plans") true (Some ["2"]) (Some ["1"; "3"])
                      (Some "gpt4") (Some "Be brief") (Some 0%Z) (Some true) "active")
  /\ ~ round_trips (base (Some "Plans") true (Some ["2"]) (Some ["1"; "3"])
                      (Some "gpt4") (Some "Be brief") None (Some true) "active").
Proof. repeat split; discriminate. Qed.

(** C2, as stated, fails.  The page has just started; the administrator
    edits the first agent of the scripts' own demonstration data and saves
    at once.  The record has four members besides [id] and [status]; the
    body sent has nine.  For the record that carries every member, the
    tools, the sub-agents and the model are lost, since the selects offer
    none of them. *)
Lemma unchanged_edit_sends_other_members :
  let time_agent := hd agent_of_backend mock_agents in
  let edit (a : Agent.t) :=
    [ Call Start; Call (EditAgent (Agent.id a));
      Settle 4 (KEditAgent (Agent.id a)) (HttpOk (Parsed a)); Call SaveAgent ] in
  let sent_for (a : Agent.t) :=
    AgentData.mk (Agent.name a) (Agent.agent_type a)
      (or_else (Agent.description a) "") (Agent.is_master a) [] [] ""
      (or_else (Agent.additional_prompt a) "")
      (option_map Int (Agent.timeout a))
      (match Agent.trust_mode a with Some b => b | None => false end) in
  option_map last_request (run (edit time_agent) initial)
  = Some (Some (Request.mk "/api/v1/agents/1" PUT (Some (BodyAgent (sent_for time_agent)))))
  /\ members_of_payload (sent_for time_agent) <> members_of_record time_agent
  /\ option_map last_request (run (edit full_agent) initial)
     = Some (Some (Request.mk "/api/v1/agents/7" PUT (Some (BodyAgent (sent_for full_agent)))))
  /\ members_of_payload (sent_for full_agent) <> members_of_record full_agent.
Proof. repeat split; discriminate. Qed.

(** ** Opening a session over another one (C3) *)

(** Open-for-create leaves no value of an earlier session in the form:
    every text control is empty, every check box unchecked, no option of a
    multiple select is selected, and the session is a creation. *)
Lemma open_for_create_clears_the_form (s : app) :
  let f := agent_form (openAgentModal s) in
  AgentForm.agent_name f = "" /\ AgentForm.agent_type f = ""
  /\ AgentForm.agent_description f = "" /\ AgentForm.agent_is_master f = false
  /\ Opt.selected_values (AgentForm.agent_tools f) = []
  /\ Opt.selected_values (AgentForm.agent_sub_agents f) = []
  /\ AgentForm.agent_additional_prompt f = "" /\ AgentForm.agent_timeout f = ""
  /\ AgentForm.agent_trust_mode f = false
  /\ editingAgentId (openAgentModal s) = None.
Proof.
  cbn. repeat split.
  - induction (AgentForm.agent_tools (agent_form s)); [reflexivity | assumption].
  - induction (agents s); [reflexivity | assumption].
Qed.

(** What open-for-edit leaves of the form it finds: the four controls it
    always writes take the record's values; each of the other six keeps what
    it held when the record has no value to give it. *)
Lemma populate_keeps_what_the_record_lacks (R : Agent.t) (f : AgentForm.t) :
  let g := populate R f in
  AgentForm.agent_name g = Agent.name R
  /\ AgentForm.agent_type g = Agent.agent_type R
  /\ AgentForm.agent_description g = or_else (Agent.description R) ""
  /\ AgentForm.agent_is_master g = Agent.is_master R
  /\ (Agent.tools R = None -> AgentForm.agent_tools g = AgentForm.agent_tools f)
  /\ (Agent.sub_agents R = None ->
      AgentForm.agent_sub_agents g = AgentForm.agent_sub_agents f)
  /\ (Agent.llm_model R = None ->
      AgentForm.agent_llm_model g = AgentForm.agent_llm_model f)
  /\ (Agent.additional_prompt R = None ->
      AgentForm.agent_additional_prompt g = AgentForm.agent_additional_prompt f)
  /\ (Agent.timeout R = None -> AgentForm.agent_timeout g = AgentForm.agent_timeout f)
  /\ (Agent.trust_mode R = None ->
      AgentForm.agent_trust_mode g = AgentForm.agent_trust_mode f).
Proof.
  destruct R as [id name type description is_master tools sub_agents llm_model
                   additional_prompt timeout trust_mode status].
  cbn [Agent.name Agent.agent_type Agent.description Agent.is_master Agent.tools
       Agent.sub_agents Agent.llm_model Agent.additional_prompt Agent.timeout
       Agent.trust_mode].
  unfold populate.
  cbn [Agent.name Agent.agent_type Agent.description Agent.is_master Agent.tools
       Agent.sub_agents Agent.llm_model Agent.additional_prompt Agent.timeout
       Agent.trust_mode].
  destruct tools, sub_agents, llm_model as [[|? ?]|],
    additional_prompt as [[|? ?]|], timeout as [[|?|?]|], trust_mode;
    repeat split; intros; try discriminate; reflexivity.
Qed.

(** C3 on the code.  The administrator opens the dialog to create an agent,
    types an additional prompt and a timeout and checks the trust mode,
    then, without saving, clicks Edit on the second agent of the list.  The
    record fetched for it has none of the three members, so the three
    controls still show what was typed for the other agent, and saving the
    edit session as it opened sends them as the second agent's. *)
Theorem edit_session_shows_the_previous_session_s_edits :
  let weather_agent := nth 1 mock_agents agent_of_backend in
  let session :=
    [ Call Start; Settle 0 KLoadAgents (HttpOk (Parsed mock_agents));
      Call OpenAgentModal;
      Call (Input (EditName "draft_agent"));
      Call (Input (EditAdditionalPrompt "Never answer in French"));
      Call (Input (EditTimeout "99"));
      Call (Input (EditTrustMode true));
      Call (EditAgent "2");
      Settle 6 (KEditAgent "2") (HttpOk (Parsed weather_agent)) ] in
  Agent.additional_prompt weather_agent = None
  /\ Agent.timeout weather_agent = None
  /\ Agent.trust_mode weather_agent = None
  /\ option_map editingAgentId (run session initial) = Some (Some "2")
  /\ option_map (fun s => AgentForm.agent_name (agent_form s)) (run session initial)
     = Some "weather_agent"
  /\ option_map (fun s => AgentForm.agent_additional_prompt (agent_form s))
       (run session initial)
     = Some "Never answer in French"
  /\ option_map (fun s => AgentForm.agent_timeout (agent_form s)) (run session initial)
     = Some "99"
  /\ option_map (fun s => AgentForm.agent_trust_mode (agent_form s)) (run session initial)
     = Some true
  /\ option_map last_request (run (session ++ [Call SaveAgent]) initial)
     = Some (Some (Request.mk "/api/v1/agents/2" PUT
                     (Some (BodyAgent
                              (AgentData.mk "weather_agent" "chat"
                                 "An agent that provides weather information" false
                                 [] [] "" "Never answer in French"
                                 (Some (Int 99)) true))))).
Proof. repeat split. Qed.

(** ** Requests in flight *)

Lemma well_formed_frame (s s' : app) :
  requests s' = requests s -> pending s' = pending s ->
  well_formed s -> well_formed s'.
Proof. unfold well_formed. intros -> ->. tauto. Qed.

Lemma nth_error_Some_lt {A} (l : list A) (n : nat) (x : A) :
  nth_error l n = Some x -> n < List.length l.
Proof. intros H. apply nth_error_Some. congruence. Qed.

Lemma well_formed_apiRequest endpoint method data k s :
  method = method_of k ->
  well_formed s -> well_formed (apiRequest endpoint method data k s).
Proof.
  intros Hm [Hnd Hreq]. split.
  - rewrite pending_apiRequest, map_app. cbn [map fst].
    apply NoDup_app; [exact Hnd | repeat constructor; intros [] |].
    intros rid Hin [<- | []].
    apply in_map_iff in Hin as [[rid' k'] [E Hin]]. cbn in E. subst rid'.
    destruct (Hreq _ _ Hin) as [q [Hq _]].
    apply nth_error_Some_lt in Hq. lia.
  - intros rid k'. rewrite pending_apiRequest, requests_apiRequest.
    intros Hin. apply in_app_or in Hin as [Hin | [[= <- <-] | []]].
    + destruct (Hreq _ _ Hin) as [q [Hq Hk]]. exists q. split; [|exact Hk].
      rewrite nth_error_app1; [exact Hq | now apply nth_error_Some_lt in Hq].
    + eexists. split.
      * now rewrite nth_error_app2, Nat.sub_diag.
      * exact Hm.
Qed.

Lemma well_formed_settled rid s : well_formed s -> well_formed (settled rid s).
Proof.
  intros [Hnd Hreq]. split; cbn.
  - clear Hreq. induction (pending s) as [|[n k] l IH]; [constructor|].
    cbn in *. inversion Hnd as [|x xs Hx Hl]; subst.
    destruct (n =? rid); cbn; [now apply IH|].
    constructor; [|now apply IH].
    intros Hin. apply Hx.
    apply in_map_iff in Hin as [p [E Hin]]. apply filter_In in Hin as [Hin _].
    apply in_map_iff. now exists p.
  - intros rid' k Hin. apply filter_In in Hin as [Hin _]. now apply Hreq.
Qed.

Ltac well_formed_step :=
  first
    [ assumption
    | apply well_formed_apiRequest; [reflexivity|]
    | match goal with
      | |- well_formed (if ?b then _ else _) => destruct b
      | |- well_formed (match ?x with _ => _ end) => destruct x
      | |- well_formed (_ ?s) =>
          apply (well_formed_frame s); [reflexivity | reflexivity |]
      end
    | progress cbv beta zeta delta
        [DOMContentLoaded navigate closeModal filterAgents renderFilteredAgents
         openAgentModal loadToolsForAgent loadAgentsForSubAgents loadLlmModels
         editAgent saveAgent testAgent deleteAgent filterWorkflows
         renderFilteredWorkflows runWorkflow validateWorkflow deleteWorkflow
         loadSystemConfig saveGeneralSettings deleteLlm deleteDatabase
         updateSystemConfig exportConfig restartSystem filterTools
         renderFilteredTools testTool deleteTool loadAgents loadTools
         loadWorkflows saveAgent_done] ].

Lemma well_formed_perform (c : call) (s : app) :
  well_formed s -> well_formed (perform c s).
Proof.
  intros H. destruct c; cbn [perform]; repeat well_formed_step.
Qed.

Lemma well_formed_resume (k : kont) (r : fetch_result (response k)) (s : app) :
  well_formed s -> well_formed (resume k r s).
Proof.
  intros H.
  destruct k as [ | | | agentId | [|] | | | | | | | | | | | | | | ];
    cbn [resume response] in *;
    match goal with
    | |- well_formed (?f _ _ _) => unfold f
    | |- well_formed (?f _ _) => unfold f
    end;
    rewrite apiRequest_resume_outcome;
    match goal with
    | |- context [outcome ?m ?r] => destruct (outcome m r)
    end; cbv beta iota; repeat well_formed_step.
Qed.

(** The invariant of the event loop: it holds when the page starts and
    every turn keeps it. *)
Lemma well_formed_run (events : list event) (s s' : app) :
  well_formed s -> run events s = Some s' -> well_formed s'.
Proof.
  revert s; induction events as [|e events IH]; intros s H; cbn.
  - now intros [= <-].
  - destruct e as [c | rid k r]; cbn.
    + apply IH. now apply well_formed_perform.
    + destruct (awaits rid k s); [|discriminate].
      apply IH. now apply well_formed_resume, well_formed_settled.
Qed.

Lemma well_formed_initial : well_formed initial.
Proof. split; [constructor | intros rid k []]. Qed.

(** A request that is awaited was issued with the method its continuation
    assumes: the failures [resume] handles are the failures of that very
    request. *)
Lemma awaited_request_has_the_method (events : list event) (s : app)
    (rid : nat) (k : kont) :
  run events initial = Some s ->
  awaits rid k s = true ->
  exists q, nth_error (requests s) rid = Some q /\ Request.method q = method_of k.
Proof.
  intros Hrun Hq.
  destruct (well_formed_run events initial s well_formed_initial Hrun) as [_ H].
  apply H. unfold awaits in Hq.
  apply existsb_exists in Hq as [[rid' k'] [Hin Hq]].
  apply andb_true_iff in Hq as [E1 E2]. cbn in E1, E2.
  apply Nat.eqb_eq in E1. subst rid'.
  replace k with k'; [exact Hin|].
  clear - E2. destruct k', k; try discriminate; try reflexivity.
  - now apply String.eqb_eq in E2 as ->.
  - now apply Bool.eqb_prop in E2 as ->.
Qed.

(** * Further properties of the scripts *)

(** ** Filtering: the neutral filter and narrowing *)

Lemma filter_all {A} (f : A -> bool) (l : list A) :
  (forall x, f x = true) -> filter f l = l.
Proof.
  intros H. induction l as [|x l IH]; [reflexivity|].
  cbn. now rewrite H, IH.
Qed.

Lemma matchesSearch_empty (name : string) (description : option string) :
  matchesSearch (toLowerCase "") name description = true.
Proof. unfold matchesSearch. cbn [toLowerCase]. now rewrite includes_empty. Qed.

(** With an empty search box and no type chosen, the filter of each
    section shows what the section's render function shows: every stored
    record, in the order of the store, or the placeholder row for an empty
    store. *)
Theorem empty_filter_shows_the_whole_store :
  forall s : app,
    filterAgents "" "" s = renderAgents s
    /\ filterTools "" "" s = renderTools s
    /\ filterWorkflows "" s = renderWorkflows s
    /\ filteredAgents "" "" (agents s) = agents s
    /\ filteredTools "" "" (tools s) = tools s
    /\ filteredWorkflows "" (workflows s) = workflows s.
Proof.
  intros s.
  assert (Ha : filteredAgents "" "" (agents s) = agents s).
  { unfold filteredAgents. apply filter_all. intros a.
    now rewrite matchesSearch_empty. }
  assert (Ht : filteredTools "" "" (tools s) = tools s).
  { unfold filteredTools. apply filter_all. intros a.
    now rewrite matchesSearch_empty. }
  assert (Hw : filteredWorkflows "" (workflows s) = workflows s).
  { unfold filteredWorkflows. apply filter_all. intros a.
    now rewrite matchesSearch_empty. }
  unfold filterAgents, filterTools, filterWorkflows.
  rewrite Ha, Ht, Hw. repeat split.
Qed.

Lemma string_app_assoc (a b c : string) :
  ((a ++ b) ++ c = a ++ (b ++ c))%string.
Proof. induction a as [|x a IH]; cbn; [reflexivity | now rewrite IH]. Qed.

Lemma occurs_in_trans (a b c : string) :
  occurs_in a b -> occurs_in b c -> occurs_in a c.
Proof.
  intros [p1 [q1 ->]] [p2 [q2 ->]].
  exists (p2 ++ p1)%string, (q1 ++ q2)%string.
  now rewrite !string_app_assoc.
Qed.

Lemma search_predicate_narrows (shorter longer name : string)
    (description : option string) :
  occurs_in (toLowerCase shorter) (toLowerCase longer) ->
  search_predicate longer name description ->
  search_predicate shorter name description.
Proof.
  intros H. unfold search_predicate, matches_ci.
  intros [Hn | [d [E Hd]]].
  - left. eapply occurs_in_trans; eassumption.
  - right. exists d. split; [exact E|]. eapply occurs_in_trans; eassumption.
Qed.

(** The scripts lower-case the search term before they look for it.  A
    term whose lower-cased form contains the lower-cased form of another
    term never shows a row the other term does not show, whatever the type
    filter, in each of the three sections. *)
Theorem longer_search_term_shows_no_new_row :
  forall (shorter longer typeFilter : string) (s : app),
    occurs_in (toLowerCase shorter) (toLowerCase longer) ->
    incl (filteredAgents longer typeFilter (agents s))
         (filteredAgents shorter typeFilter (agents s))
    /\ incl (filteredTools longer typeFilter (tools s))
            (filteredTools shorter typeFilter (tools s))
    /\ incl (filteredWorkflows longer (workflows s))
            (filteredWorkflows shorter (workflows s)).
Proof.
  intros shorter longer typeFilter s H.
  split; [|split]; intros a Ha.
  - apply filteredAgents_In in Ha as [Hin [Hs Ht]]. apply filteredAgents_In.
    split; [exact Hin | split; [|exact Ht]].
    eapply search_predicate_narrows; eassumption.
  - apply filteredTools_In in Ha as [Hin [Hs Ht]]. apply filteredTools_In.
    split; [exact Hin | split; [|exact Ht]].
    eapply search_predicate_narrows; eassumption.
  - apply filteredWorkflows_In in Ha as [Hin Hs]. apply filteredWorkflows_In.
    split; [exact Hin|]. eapply search_predicate_narrows; eassumption.
Qed.

Lemma longer_search_term_witness :
  occurs_in (toLowerCase "Time") (toLowerCase "TIME_A")
  /\ incl (filteredAgents "TIME_A" "" mock_agents) (filteredAgents "Time" "" mock_agents).
Proof.
  assert (H : occurs_in (toLowerCase "Time") (toLowerCase "TIME_A"))
    by (exists "", "_a"; reflexivity).
  split; [exact H|].
  exact (proj1 (longer_search_term_shows_no_new_row "Time" "TIME_A" ""
                  (set_agents mock_agents initial) H)).
Defined.

(** ** What a turn of the event loop leaves alone *)

(** Reduces a goal about a field of the page after a call or a
    continuation to the cases of the source, and closes the cases in which
    the two sides are the same. *)
Ltac unfold_scripts :=
  cbv beta iota delta
    [perform resume DOMContentLoaded navigate closeModal filterAgents
     renderFilteredAgents openAgentModal loadToolsForAgent
     loadAgentsForSubAgents loadLlmModels editAgent saveAgent testAgent
     deleteAgent filterWorkflows renderFilteredWorkflows runWorkflow
     validateWorkflow deleteWorkflow loadSystemConfig saveGeneralSettings
     deleteLlm deleteDatabase updateSystemConfig exportConfig restartSystem
     filterTools renderFilteredTools testTool deleteTool loadAgents loadTools
     loadWorkflows saveAgent_done loadAgents_resume loadToolsForAgent_resume
     loadLlmModels_resume editAgent_resume saveAgent_resume testAgent_resume
     deleteAgent_resume loadWorkflows_resume runWorkflow_resume
     validateWorkflow_resume deleteWorkflow_resume loadSystemConfig_resume
     saveGeneralSettings_resume updateSystemConfig_resume exportConfig_resume
     restartSystem_resume loadTools_resume testTool_resume deleteTool_resume].

Ltac by_cases_of_the_source :=
  unfold_scripts; cbv zeta; try rewrite apiRequest_resume_outcome;
  repeat match goal with
    | |- context [match ?x with _ => _ end] => progress destruct x
    | |- context [if ?x then _ else _] => progress destruct x
    end;
  try reflexivity.

(** ** The tables and the stores *)

Lemma shows_only_stored_frame (s s' : app) :
  agents s' = agents s -> agent_list s' = agent_list s ->
  tools s' = tools s -> tool_list s' = tool_list s ->
  workflows s' = workflows s -> workflow_list s' = workflow_list s ->
  shows_only_stored s -> shows_only_stored s'.
Proof. unfold shows_only_stored. now intros -> -> -> -> -> ->. Qed.

Lemma table_within_filter {A} (f : A -> bool) (none_found : string) (l : list A) :
  table_within
    (match filter f l with [] => Placeholder none_found | _ :: _ => Rows (filter f l) end)
    l.
Proof.
  destruct (filter f l) eqn:E; [exact I|]. cbn. rewrite <- E.
  intros x H. now apply filter_In in H.
Qed.

Lemma table_within_all {A} (none_found : string) (l : list A) :
  table_within (match l with [] => Placeholder none_found | _ :: _ => Rows l end) l.
Proof. destruct l; [exact I | apply incl_refl]. Qed.

Lemma shows_only_stored_perform (c : call) (s : app) :
  shows_only_stored s -> shows_only_stored (perform c s).
Proof.
  intros H.
  destruct c;
    try (apply (shows_only_stored_frame s);
         [solve [by_cases_of_the_source] .. | exact H]).
  - destruct H as [_ [Ht Hw]]. split; [|split; assumption].
    apply table_within_filter.
  - destruct H as [Ha [Ht _]]. split; [|split]; [assumption .. |].
    apply table_within_filter.
  - destruct H as [Ha [_ Hw]]. split; [|split]; [assumption | | assumption].
    apply table_within_filter.
Qed.

Lemma table_within_renderAgents s :
  table_within (agent_list (renderAgents s)) (agents (renderAgents s)).
Proof. cbn. apply table_within_all. Qed.

Lemma table_within_renderTools s :
  table_within (tool_list (renderTools s)) (tools (renderTools s)).
Proof. cbn. apply table_within_all. Qed.

Lemma table_within_renderWorkflows s :
  table_within (workflow_list (renderWorkflows s)) (workflows (renderWorkflows s)).
Proof. cbn. apply table_within_all. Qed.

Lemma shows_only_stored_resume (k : kont) (r : fetch_result (response k)) (s : app) :
  shows_only_stored s -> shows_only_stored (resume k r s).
Proof.
  intros H.
  destruct k as [ | | | agentId | [|] | | | | | | | | | | | | | | ];
    cbn [response] in r;
    try (apply (shows_only_stored_frame s);
         [solve [by_cases_of_the_source] .. | exact H]).
  - cbn [resume]. rewrite loadAgents_resume_eq.
    destruct H as [_ [Ht Hw]].
    destruct (outcome GET r);
      (split; [apply table_within_renderAgents | split; [exact Ht | exact Hw]]).
  - cbn [resume]. rewrite loadWorkflows_resume_eq.
    destruct H as [Ha [Ht _]].
    destruct (outcome GET r);
      (split; [exact Ha | split; [exact Ht | apply table_within_renderWorkflows]]).
  - cbn [resume]. rewrite loadTools_resume_eq.
    destruct H as [Ha [_ Hw]].
    destruct (outcome GET r);
      (split; [exact Ha | split; [apply table_within_renderTools | exact Hw]]).
Qed.

Lemma shows_only_stored_settled rid s :
  shows_only_stored s -> shows_only_stored (settled rid s).
Proof. exact (fun H => H). Qed.

(** From the start of the page on, whatever the administrator does and
    whatever the network answers, a table never shows a record that its
    store does not hold.  And a load that settles redraws the table from the
    whole store: a filter applied before is no longer in effect. *)
Theorem tables_show_stored_records_only :
  forall (events : list event) (s : app),
    run events initial = Some s ->
    shows_only_stored s
    /\ (forall (search typeFilter : string) (r : fetch_result (list Agent.t)),
          agent_list (loadAgents_resume r (filterAgents search typeFilter s))
          = table_of "No agents found" (loaded_agents r))
    /\ (forall (search typeFilter : string) (r : fetch_result (list Tool.t)),
          tool_list (loadTools_resume r (filterTools search typeFilter s))
          = table_of "No tools found" (tools (loadTools_resume r s)))
    /\ (forall (search : string) (r : fetch_result (list Workflow.t)),
          workflow_list (loadWorkflows_resume r (filterWorkflows search s))
          = table_of "No workflows found" (workflows (loadWorkflows_resume r s))).
Proof.
  intros events s Hrun. split; [|split; [|split]].
  - assert (G : forall evs s0 s1, shows_only_stored s0 -> run evs s0 = Some s1 ->
                  shows_only_stored s1).
    { clear. induction evs as [|e evs IH]; intros s0 s1 H0; cbn.
      - now intros [= <-].
      - destruct e as [c | rid k r]; cbn.
        + apply IH. now apply shows_only_stored_perform.
        + destruct (awaits rid k s0); [|discriminate].
          apply IH. now apply shows_only_stored_resume. }
    apply (G events initial s); [|exact Hrun].
    repeat split; intros x [].
  - intros search typeFilter r. rewrite loadAgents_resume_eq.
    unfold loaded_agents. now destruct (outcome GET r).
  - intros search typeFilter r. rewrite !loadTools_resume_eq.
    now destruct (outcome GET r).
  - intros search r. rewrite !loadWorkflows_resume_eq.
    now destruct (outcome GET r).
Qed.

Lemma tables_witness :
  let events :=
    [ Call Start; Settle 0 KLoadAgents (HttpOk (Parsed mock_agents));
      Call (FilterAgents "time" "react"); Call (DeleteAgent "2" true);
      Settle 4 KDeleteAgent (HttpOk (Unparsable "Unexpected end of JSON input")) ] in
  match run events initial with
  | Some s => shows_only_stored s
  | None => False
  end.
Proof.
  intros events.
  destruct (run events initial) as [s|] eqn:E.
  - exact (proj1 (tables_show_stored_records_only events s E)).
  - vm_compute in E. discriminate.
Defined.

(** ** The title of the dialog and the session *)

Lemma titled_as_session_frame (s s' : app) :
  editingAgentId s' = editingAgentId s ->
  AgentForm.agent_modal_title (agent_form s')
  = AgentForm.agent_modal_title (agent_form s) ->
  titled_as_session s -> titled_as_session s'.
Proof. unfold titled_as_session. now intros -> ->. Qed.

Lemma title_apply_edit (e : form_edit) (f : AgentForm.t) :
  AgentForm.agent_modal_title (apply_edit e f) = AgentForm.agent_modal_title f.
Proof. now destruct e. Qed.

Lemma titled_as_session_perform (c : call) (s : app) :
  titled_as_session s -> titled_as_session (perform c s).
Proof.
  intros H.
  destruct c;
    try (apply (titled_as_session_frame s);
         [solve [by_cases_of_the_source] .. | exact H]).
  - apply (titled_as_session_frame s); [reflexivity | | exact H].
    apply title_apply_edit.
  - cbn. discriminate.
Qed.

Lemma titled_as_session_resume (k : kont) (r : fetch_result (response k)) (s : app) :
  titled_as_session s -> titled_as_session (resume k r s).
Proof.
  intros H.
  destruct k as [ | | | agentId | [|] | | | | | | | | | | | | | | ];
    cbn [response] in r;
    try (apply (titled_as_session_frame s);
         [solve [by_cases_of_the_source] .. | exact H]).
  cbn [resume]. unfold editAgent_resume. rewrite apiRequest_resume_outcome.
  destruct (outcome GET r); [reflexivity | exact H].
Qed.

(** From the start of the page on, the dialog is titled [Edit Agent]
    exactly when an agent id is being edited.  So a save under any other
    title (the dialog opened with [Create Agent]) posts a new agent to
    [/agents], and never puts to an existing one. *)
Theorem dialog_title_tells_the_session :
  forall (events : list event) (s : app),
    run events initial = Some s ->
    (AgentForm.agent_modal_title (agent_form s) = "Edit Agent"
     <-> exists id, editingAgentId s = Some id)
    /\ (AgentForm.agent_modal_title (agent_form s) <> "Edit Agent" ->
        last_request (saveAgent s)
        = Some (Request.mk "/api/v1/agents" POST
                  (Some (BodyAgent (agentData (agent_form s)))))).
Proof.
  intros events s Hrun.
  assert (G : forall evs s0 s1, titled_as_session s0 -> run evs s0 = Some s1 ->
                titled_as_session s1).
  { clear. induction evs as [|e evs IH]; intros s0 s1 H0; cbn.
    - now intros [= <-].
    - destruct e as [c | rid k r]; cbn.
      + apply IH. now apply titled_as_session_perform.
      + destruct (awaits rid k s0); [|discriminate].
        apply IH. now apply titled_as_session_resume. }
  assert (H : titled_as_session s).
  { apply (G events initial s); [|exact Hrun]. cbn. discriminate. }
  unfold titled_as_session in H. split.
  - destruct (editingAgentId s) as [id|]; split.
    + intros _. now exists id.
    + intros _. exact H.
    + intros E. now contradiction H.
    + intros [id E]. discriminate.
  - intros Hne. unfold saveAgent, editing.
    destruct (editingAgentId s) as [id|]; [now contradiction Hne|].
    now rewrite last_request_apiRequest.
Qed.

Lemma dialog_title_witness :
  let events :=
    [ Call Start; Call (EditAgent "2");
      Settle 4 (KEditAgent "2") (HttpOk (Parsed (nth 1 mock_agents agent_of_backend)));
      Call CloseModal; Call OpenAgentModal; Call (Input (EditName "fresh_agent")) ] in
  match run events initial with
  | Some s =>
      AgentForm.agent_modal_title (agent_form s) = "Edit Agent"
      <-> exists id, editingAgentId s = Some id
  | None => False
  end.
Proof.
  intros events.
  destruct (run events initial) as [s|] eqn:E.
  - exact (proj1 (dialog_title_tells_the_session events s E)).
  - vm_compute in E. discriminate.
Defined.

(** ** The configuration, once loaded *)

Lemma config_loaded_frame (s s' : app) :
  systemConfig s' = systemConfig s -> config_loaded s -> config_loaded s'.
Proof. unfold config_loaded. now intros ->. Qed.

Lemma config_loaded_perform (c : call) (s : app) :
  config_loaded s -> config_loaded (perform c s).
Proof.
  intros H.
  destruct c;
    try (apply (config_loaded_frame s);
         [solve [by_cases_of_the_source] | exact H]);
    unfold config_loaded in *.
  - cbn. unfold saveGeneralSettings.
    destruct (systemConfig s); [discriminate | now contradiction H].
  - cbn. unfold deleteLlm. destruct confirmed; [|exact H].
    destruct (systemConfig s); [discriminate | now contradiction H].
  - cbn. unfold deleteDatabase. destruct confirmed; [|exact H].
    destruct (systemConfig s); [discriminate | now contradiction H].
Qed.

Lemma config_loaded_resume (k : kont) (r : fetch_result (response k)) (s : app) :
  config_loaded s -> config_loaded (resume k r s).
Proof.
  intros H.
  destruct k as [ | | | agentId | [|] | | | | | | | | | | | | | | ];
    cbn [response] in r;
    try (apply (config_loaded_frame s);
         [solve [by_cases_of_the_source] | exact H]);
    unfold config_loaded in *.
  cbn [resume]. rewrite loadSystemConfig_resume_eq.
  destruct (outcome GET r); discriminate.
Qed.

(** Until the configuration has been loaded, saving the general settings
    and deleting a model or a database configuration do nothing at all: no
    request, no notification.  Once a load of the configuration has settled,
    with the backend's answer or with the demonstration data, the page holds
    a configuration for the rest of the session, and each of the three sends
    its [PUT]. *)
Theorem configuration_actions_need_a_loaded_configuration :
  forall (s : app),
    (systemConfig s = None ->
     forall logLevel cacheDir index confirmed,
       saveGeneralSettings logLevel cacheDir s = s
       /\ deleteLlm index confirmed s = s
       /\ deleteDatabase index confirmed s = s)
    /\ (forall (r : fetch_result SystemConfig.t),
          config_loaded (loadSystemConfig_resume r s))
    /\ (config_loaded s ->
        (forall events s', run events s = Some s' -> config_loaded s')
        /\ forall logLevel cacheDir index,
            exists body1 body2 body3,
              last_request (saveGeneralSettings logLevel cacheDir s)
              = Some (Request.mk "/api/v1/system/config" PUT (Some body1))
              /\ last_request (deleteLlm index true s)
                 = Some (Request.mk "/api/v1/system/config" PUT (Some body2))
              /\ last_request (deleteDatabase index true s)
                 = Some (Request.mk "/api/v1/system/config" PUT (Some body3))).
Proof.
  intros s. split; [|split].
  - intros E logLevel cacheDir index confirmed.
    unfold saveGeneralSettings, deleteLlm, deleteDatabase. rewrite E.
    now destruct confirmed.
  - intros r. unfold config_loaded. rewrite loadSystemConfig_resume_eq.
    destruct (outcome GET r); discriminate.
  - intros H. split.
    + intros events. revert s H.
      induction events as [|e events IH]; intros s H s'; cbn.
      * now intros [= <-].
      * destruct e as [c | rid k r]; cbn.
        -- apply IH. now apply config_loaded_perform.
        -- destruct (awaits rid k s); [|discriminate].
           apply IH. now apply config_loaded_resume.
    + intros logLevel cacheDir index.
      unfold config_loaded in H.
      unfold saveGeneralSettings, deleteLlm, deleteDatabase, updateSystemConfig.
      destruct (systemConfig s) as [c|] eqn:E; [|now contradiction H].
      do 3 eexists. rewrite !last_request_apiRequest. cbn.
      repeat split.
Qed.

Lemma configuration_witness :
  systemConfig initial = None
  /\ saveGeneralSettings "DEBUG" "/var/cache" initial = initial
  /\ config_loaded (loadSystemConfig_resume unreachable initial)
  /\ match run [ Call (SaveGeneralSettings "DEBUG" "/var/cache");
                 Settle 0 KSaveGeneralSettings (HttpOk (Parsed tt));
                 Call (DeleteLlm 0 true) ]
               (loadSystemConfig_resume unreachable initial) with
     | Some s' => config_loaded s'
     | None => False
     end.
Proof.
  destruct (configuration_actions_need_a_loaded_configuration initial)
    as [Hnone [Hload _]].
  split; [reflexivity|].
  split; [exact (proj1 (Hnone eq_refl "DEBUG" "/var/cache" 0 true))|].
  split; [exact (Hload unreachable)|].
  destruct (run _ (loadSystemConfig_resume unreachable initial)) as [s'|] eqn:E.
  - exact (proj1 (proj2 (proj2
             (configuration_actions_need_a_loaded_configuration
                (loadSystemConfig_resume unreachable initial)))
             (Hload unreachable)) _ s' E).
  - vm_compute in E. discriminate.
Defined.

(** ** The edit session: what a failure keeps, which request a save issues *)

Lemma last_request_saveAgent (s s' : app) :
  editingAgentId s' = editingAgentId s -> agent_form s' = agent_form s ->
  last_request (saveAgent s') = last_request (saveAgent s).
Proof.
  intros E F. unfold saveAgent, editing. rewrite E, F.
  destruct (editingAgentId s) as [id|]; [destruct (truthy id)|];
    now rewrite !last_request_apiRequest.
Qed.

(** When the fetch of open-for-edit fails, the session the page was in is
    untouched: the form, the dialog and the id being edited are as before,
    only the toast received the wrapper's message and then the caller's.  A
    save right after issues the request it would have issued before the
    click. *)
Theorem failed_open_for_edit_keeps_the_session :
  forall (agentId : string) (r : fetch_result Agent.t) (s : app) (message : string),
    outcome GET r = Rejected message ->
    editAgent_resume agentId r s
    = showToast "Error loading agent details" error (showToast message error s)
    /\ agent_form (editAgent_resume agentId r s) = agent_form s
    /\ editingAgentId (editAgent_resume agentId r s) = editingAgentId s
    /\ last_request (saveAgent (editAgent_resume agentId r s))
       = last_request (saveAgent s).
Proof.
  intros agentId r s message H.
  assert (E : editAgent_resume agentId r s
              = showToast "Error loading agent details" error
                  (showToast message error s)).
  { unfold editAgent_resume. now settle. }
  rewrite E. repeat split. now apply last_request_saveAgent.
Qed.

Lemma failed_open_for_edit_witness :
  let s := on_form (apply_edit (EditName "draft_agent")) (openAgentModal initial) in
  outcome GET (unreachable : fetch_result Agent.t) = Rejected "Failed to fetch"
  /\ editingAgentId (editAgent_resume "2" unreachable s) = None
  /\ AgentForm.agent_name (agent_form (editAgent_resume "2" unreachable s))
     = "draft_agent".
Proof.
  intros s. split; [reflexivity|].
  destruct (failed_open_for_edit_keeps_the_session "2" unreachable s
              "Failed to fetch" eq_refl) as [_ [Hf [He _]]].
  split; [exact He | now rewrite Hf].
Defined.

(** When the request of a save fails, nothing of the session changes: the
    form keeps every value, the dialog stays as it is, no reload is
    requested, and submitting again issues the very same request.  When it
    succeeds, one success notification is shown (its text telling an update
    from a creation as the save was issued), the dialog is hidden, the
    agents are requested again, and the form and the id being edited are
    left as they were. *)
Theorem save_failure_can_be_retried_unchanged :
  forall (updating : bool) (r : fetch_result unit) (s : app),
    (forall message,
        outcome (method_of (KSaveAgent updating)) r = Rejected message ->
        saveAgent_resume updating r s
        = showToast "Error saving agent" error (showToast message error s)
        /\ requests (saveAgent_resume updating r s) = requests s
        /\ last_request (saveAgent (saveAgent_resume updating r s))
           = last_request (saveAgent s))
    /\ (forall v,
          outcome (method_of (KSaveAgent updating)) r = Resolved v ->
          toasts (saveAgent_resume updating r s)
          = toasts s ++ [(if updating then "Agent updated successfully"
                          else "Agent created successfully", success)]
          /\ AgentForm.agent_modal (agent_form (saveAgent_resume updating r s)) = false
          /\ last_request (saveAgent_resume updating r s)
             = Some (Request.mk "/api/v1/agents" GET None)
          /\ editingAgentId (saveAgent_resume updating r s) = editingAgentId s
          /\ agentData (agent_form (saveAgent_resume updating r s))
             = agentData (agent_form s)).
Proof.
  intros updating r s. split.
  - intros message H.
    assert (E : saveAgent_resume updating r s
                = showToast "Error saving agent" error (showToast message error s)).
    { destruct updating; cbn [method_of] in H; unfold saveAgent_resume; now settle. }
    rewrite E. repeat split. now apply last_request_saveAgent.
  - intros v H.
    assert (E : saveAgent_resume updating r s = saveAgent_done updating s).
    { destruct updating; cbn [method_of] in H; unfold saveAgent_resume; now settle. }
    rewrite E. unfold saveAgent_done, loadAgents.
    rewrite last_request_apiRequest. repeat split.
Qed.

Lemma save_failure_witness :
  let s := editAgent_resume "7" (HttpOk (Parsed full_agent)) initial in
  let refused : fetch_result unit := HttpNotOk (Parsed (Some "Name already taken")) in
  outcome (method_of (KSaveAgent true)) refused = Rejected "Name already taken"
  /\ last_request (saveAgent (saveAgent_resume true refused s))
     = last_request (saveAgent s).
Proof.
  intros s refused. split; [reflexivity|].
  exact (proj2 (proj2 (proj1 (save_failure_can_be_retried_unchanged true refused s)
                         "Name already taken" eq_refl))).
Defined.

Lemma saveAgent_posts (s : app) :
  editing s = None ->
  last_request (saveAgent s)
  = Some (Request.mk "/api/v1/agents" POST (Some (BodyAgent (agentData (agent_form s))))).
Proof.
  intros E. unfold saveAgent. rewrite E. now rewrite last_request_apiRequest.
Qed.

Lemma saveAgent_puts (s : app) (id : string) :
  editing s = Some id ->
  last_request (saveAgent s)
  = Some (Request.mk ("/api/v1/agents/" ++ id) PUT
            (Some (BodyAgent (agentData (agent_form s))))).
Proof.
  intros E. unfold saveAgent. rewrite E. now rewrite last_request_apiRequest.
Qed.

(** Which request a save issues.  After open-for-create it is always a
    [POST] to [/agents], whatever session came before.  After an
    open-for-edit whose fetch succeeded it is a [PUT] to the id the edit was
    opened with, unless that id is the empty string: then the save posts a
    new agent. *)
Theorem save_goes_to_the_session_that_was_opened :
  forall (s : app) (R : Agent.t),
    last_request (saveAgent (openAgentModal s))
    = Some (Request.mk "/api/v1/agents" POST
              (Some (BodyAgent (agentData (agent_form (openAgentModal s))))))
    /\ (forall agentId,
          agentId <> "" ->
          last_request (saveAgent (editAgent_resume agentId (HttpOk (Parsed R)) s))
          = Some (Request.mk ("/api/v1/agents/" ++ agentId) PUT
                    (Some (BodyAgent (agentData (populate R (agent_form s)))))))
    /\ last_request (saveAgent (editAgent_resume "" (HttpOk (Parsed R)) s))
       = Some (Request.mk "/api/v1/agents" POST
                 (Some (BodyAgent (agentData (populate R (agent_form s)))))).
Proof.
  intros s R. split; [|split].
  - apply saveAgent_posts. reflexivity.
  - intros agentId Hne. rewrite (saveAgent_puts _ agentId); [reflexivity|].
    unfold editing.
    change (editingAgentId (editAgent_resume agentId (HttpOk (Parsed R)) s))
      with (Some agentId).
    cbv beta iota. now rewrite (truthy_nonempty agentId Hne).
  - rewrite saveAgent_posts; reflexivity.
Qed.

Lemma save_goes_witness :
  "2" <> ""
  /\ option_map Request.method
       (last_request (saveAgent (editAgent_resume "2" (HttpOk (Parsed full_agent)) initial)))
     = Some PUT.
Proof.
  assert (H : "2" <> "") by discriminate.
  split; [exact H|].
  now rewrite (proj1 (proj2 (save_goes_to_the_session_that_was_opened initial full_agent))
                 "2" H).
Defined.

(** ** Reading the timeout field *)

Lemma parse_digits_app (c : ascii) (rest : string) (u : Decimal.uint) (acc : Z) :
  digit_value 10 c = None ->
  parse_digits 10 acc (DecimalString.NilEmpty.string_of_uint u ++ String c rest)
  = parse_digits 10 acc (DecimalString.NilEmpty.string_of_uint u).
Proof.
  intros Hc. revert acc.
  induction u; intros acc; cbn [DecimalString.NilEmpty.string_of_uint append parse_digits];
    [ now rewrite Hc | .. ]; eval_digit; cbv iota; apply IHu.
Qed.

Ltac read_digits :=
  repeat (cbn [parse_digits]; eval_digit; cbv iota).

Lemma parse_unsigned_app (c : ascii) (rest : string) (u : Decimal.uint) :
  u <> Decimal.Nil -> ends_number c ->
  parse_unsigned (DecimalString.NilEmpty.string_of_uint u ++ String c rest)
  = Some (parse_digits 10 0 (DecimalString.NilEmpty.string_of_uint u)).
Proof.
  intros Hu [Hd [Hx HX]].
  apply Ascii.eqb_neq in Hx, HX.
  destruct u as [|u|u|u|u|u|u|u|u|u|u]; [contradiction | destruct u | ..];
    cbn [DecimalString.NilEmpty.string_of_uint append];
    unfold parse_unsigned; rewrite ?Hx, ?HX;
    cbn [Ascii.eqb Bool.eqb orb andb starts_with_digit];
    try (eval_digit; cbv iota); f_equal;
    [ cbn [parse_digits]; eval_digit; cbv iota; cbn [parse_digits]; now rewrite Hd
    | read_digits; apply (parse_digits_app c rest _ _ Hd) .. ].
Qed.

Lemma parseInt_digits_app (c : ascii) (rest : string) (u : Decimal.uint) :
  u <> Decimal.Nil -> ends_number c ->
  parseInt (DecimalString.NilEmpty.string_of_uint u ++ String c rest)
  = Int (parse_digits 10 0 (DecimalString.NilEmpty.string_of_uint u)).
Proof.
  intros Hu Hc. pose proof (parse_unsigned_app c rest u Hu Hc) as H.
  destruct u as [|u|u|u|u|u|u|u|u|u|u]; [contradiction | ..];
    cbn [DecimalString.NilEmpty.string_of_uint append] in H |- *;
    unfold parseInt; cbn [trim_start];
    match goal with
    | |- context [is_space ?d] => change (is_space d) with false
    end; cbv iota; now rewrite H.
Qed.

Lemma parseInt_minus_digits_app (c : ascii) (rest : string) (u : Decimal.uint) :
  u <> Decimal.Nil -> ends_number c ->
  parseInt (String "-" (DecimalString.NilEmpty.string_of_uint u ++ String c rest))
  = Int (- parse_digits 10 0 (DecimalString.NilEmpty.string_of_uint u)).
Proof.
  intros Hu Hc. unfold parseInt. cbn [trim_start].
  change (is_space "-") with false. cbv iota.
  now rewrite (parse_unsigned_app c rest u Hu Hc).
Qed.

(** What follows the digits of a safe integer is cut off. *)
Lemma parseInt_Number_toString_app (z : Z) (c : ascii) (rest : string) :
  (Z.abs z <= MAX_SAFE_INTEGER)%Z ->
  ends_number c -> parseInt (Number_toString z ++ String c rest) = Int z.
Proof.
  intros _ Hc. unfold Number_toString.
  destruct z as [|p|p]; cbn [Z.to_int DecimalString.NilEmpty.string_of_int].
  - now rewrite (parseInt_digits_app c rest (Decimal.D0 Decimal.Nil)).
  - rewrite parseInt_digits_app by (apply to_uint_not_nil || exact Hc).
    now rewrite parse_digits_uint, DecimalPos.Unsigned.of_to.
  - cbn [append].
    rewrite parseInt_minus_digits_app by (apply to_uint_not_nil || exact Hc).
    now rewrite parse_digits_uint, DecimalPos.Unsigned.of_to.
Qed.

Lemma truthy_app (a : string) (c : ascii) (rest : string) :
  truthy (a ++ String c rest) = true.
Proof. destruct a; reflexivity. Qed.

(** How a save reads the timeout field.  A blank field leaves the member
    out of the object sent.  The text of a safe integer (at most [2^53 - 1]
    in absolute value, the range in which [parseInt] is exact) is read as
    that integer, and so is that text followed by anything that does not go
    on with a digit: a fraction, an exponent, a unit. *)
Theorem timeout_field_is_read_as_its_leading_integer :
  forall (f : AgentForm.t) (z : Z) (c : ascii) (rest : string),
    (Z.abs z <= MAX_SAFE_INTEGER)%Z ->
    ends_number c ->
    AgentData.timeout (agentData (AgentForm.set_agent_timeout "" f)) = None
    /\ AgentData.timeout
         (agentData (AgentForm.set_agent_timeout (Number_toString z) f))
       = Some (Int z)
    /\ AgentData.timeout
         (agentData (AgentForm.set_agent_timeout
                       (Number_toString z ++ String c rest) f))
       = Some (Int z).
Proof.
  intros f z c rest Hz Hc. unfold agentData.
  cbn [AgentForm.agent_timeout AgentForm.set_agent_timeout].
  repeat split.
  - now rewrite truthy_Number_toString, parseInt_Number_toString.
  - now rewrite truthy_app, parseInt_Number_toString_app.
Qed.

Lemma timeout_field_witness :
  (Z.abs 30 <= MAX_SAFE_INTEGER)%Z
  /\ ends_number "."
  /\ AgentData.timeout
       (agentData (AgentForm.set_agent_timeout "30.5"
                     (agent_form initial)))
     = Some (Int 30).
Proof.
  assert (Hz : (Z.abs 30 <= MAX_SAFE_INTEGER)%Z) by (unfold MAX_SAFE_INTEGER; lia).
  assert (H : ends_number ".").
  { repeat split; discriminate. }
  split; [exact Hz|]. split; [exact H|].
  exact (proj2 (proj2 (timeout_field_is_read_as_its_leading_integer
                         (agent_form initial) 30 "." "5" Hz H))).
Defined.

(** ** Deleting a configuration by the index of its row *)

Lemma nth_error_splice1 {A} (index j : nat) (xs : list A) :
  nth_error (splice1 index xs) j
  = if j <? index then nth_error xs j else nth_error xs (S j).
Proof.
  revert j xs. induction index as [|i IH]; intros j xs.
  - destruct xs; [now destruct j | reflexivity].
  - destruct xs as [|a r]; [now destruct j; destruct (_ <? _)|].
    destruct j as [|j]; [reflexivity|].
    change (splice1 (S i) (a :: r)) with (a :: splice1 i r).
    cbn [nth_error]. rewrite IH. reflexivity.
Qed.

Lemma last_request_updateSystemConfig (s : app) (c : SystemConfig.t) :
  systemConfig s = Some c ->
  last_request (updateSystemConfig s)
  = Some (Request.mk "/api/v1/system/config" PUT (Some (BodyConfig c))).
Proof.
  intros H. unfold updateSystemConfig.
  now rewrite last_request_apiRequest, H.
Qed.

(** A confirmed deletion of a model configuration removes the entry at the
    index given and nothing else: the entries before it stay where they
    are, those after it move up by one, and every other member of the
    configuration is kept.  The whole configuration that results is what the
    [PUT] carries.  With an index past the end nothing is removed, and the
    unchanged configuration is sent all the same.  The deletion of a
    database configuration does the same on the other list. *)
Theorem deletion_removes_the_entry_at_the_index :
  forall (index : nat) (s : app) (c : SystemConfig.t),
    systemConfig s = Some c ->
    (exists c',
        systemConfig (deleteLlm index true s) = Some c'
        /\ last_request (deleteLlm index true s)
           = Some (Request.mk "/api/v1/system/config" PUT (Some (BodyConfig c')))
        /\ (forall j,
              nth_error (SystemConfig.llm_configs c') j
              = if j <? index then nth_error (SystemConfig.llm_configs c) j
                else nth_error (SystemConfig.llm_configs c) (S j))
        /\ SystemConfig.database_configs c' = SystemConfig.database_configs c
        /\ SystemConfig.log_level c' = SystemConfig.log_level c
        /\ SystemConfig.cache_dir c' = SystemConfig.cache_dir c
        /\ SystemConfig.additional_config c' = SystemConfig.additional_config c
        /\ (List.length (SystemConfig.llm_configs c) <= index -> c' = c))
    /\ (exists c',
          systemConfig (deleteDatabase index true s) = Some c'
          /\ last_request (deleteDatabase index true s)
             = Some (Request.mk "/api/v1/system/config" PUT (Some (BodyConfig c')))
          /\ (forall j,
                nth_error (SystemConfig.database_configs c') j
                = if j <? index then nth_error (SystemConfig.database_configs c) j
                  else nth_error (SystemConfig.database_configs c) (S j))
          /\ SystemConfig.llm_configs c' = SystemConfig.llm_configs c
          /\ SystemConfig.log_level c' = SystemConfig.log_level c
          /\ SystemConfig.cache_dir c' = SystemConfig.cache_dir c
          /\ SystemConfig.additional_config c' = SystemConfig.additional_config c
          /\ (List.length (SystemConfig.database_configs c) <= index -> c' = c)).
Proof.
  intros index s c H. split.
  - exists (SystemConfig.with_llm_configs
              (splice1 index (SystemConfig.llm_configs c)) c).
    unfold deleteLlm. rewrite H. repeat split.
    + now apply last_request_updateSystemConfig.
    + intros j. apply nth_error_splice1.
    + intros Hlen. unfold SystemConfig.with_llm_configs.
      rewrite splice1_out_of_range by exact Hlen. now destruct c.
  - exists (SystemConfig.with_database_configs
              (splice1 index (SystemConfig.database_configs c)) c).
    unfold deleteDatabase. rewrite H. repeat split.
    + now apply last_request_updateSystemConfig.
    + intros j. apply nth_error_splice1.
    + intros Hlen. unfold SystemConfig.with_database_configs.
      rewrite splice1_out_of_range by exact Hlen. now destruct c.
Qed.

Lemma deletion_witness :
  let s := loadSystemConfig_resume unreachable initial in
  systemConfig s = Some mock_systemConfig
  /\ exists c',
       systemConfig (deleteLlm 0 true s) = Some c'
       /\ SystemConfig.llm_configs c' = []
       /\ SystemConfig.database_configs c'
          = SystemConfig.database_configs mock_systemConfig.
Proof.
  intros s. split; [reflexivity|].
  destruct (proj1 (deletion_removes_the_entry_at_the_index 0 s mock_systemConfig eq_refl))
    as [c' [E [_ [Hn [Hd _]]]]].
  exists c'. split; [exact E|]. split; [|exact Hd].
  pose proof (Hn 0) as H0. cbn in H0.
  destruct (SystemConfig.llm_configs c'); [reflexivity | discriminate].
Defined.

(** ** Rows drawn before a deletion *)

Lemma nth_error_llm_rows (l : list LlmConfig.t) (index j : nat) (row : LlmRow.t) :
  nth_error (llm_rows index l) j = Some row ->
  LlmRow.data_index row = index + j
  /\ exists llm, nth_error l j = Some llm /\ LlmRow.name row = LlmConfig.name llm.
Proof.
  revert index j. induction l as [|llm r IH]; intros index j H.
  - now destruct j.
  - destruct j as [|j]; cbn [llm_rows nth_error] in H |- *.
    + injection H as <-. split; [cbn; lia|]. now exists llm.
    + destruct (IH (S index) j H) as [Hi Hn]. split; [lia | exact Hn].
Qed.

(** The panel of model configurations is drawn by [loadSystemConfig] only;
    a deletion changes the stored list at once and leaves the panel as it
    is until a reload has settled, which a failed update never requests.
    Each row carries the position its entry had when the panel was drawn.
    So after the deletion of row [i], the button of a row [j] drawn below it
    removes the entry that was drawn at [j + 1]: the rows kept on the page
    point one entry too far. *)
Theorem rows_drawn_before_a_deletion_point_one_entry_too_far :
  forall (i j : nat) (s : app) (c : SystemConfig.t),
    systemConfig s = Some c ->
    i <= j ->
    (forall row,
        nth_error (llm_rows 0 (SystemConfig.llm_configs c)) j = Some row ->
        LlmRow.data_index row = j
        /\ option_map LlmConfig.name (nth_error (SystemConfig.llm_configs c) j)
           = Some (LlmRow.name row))
    /\ (forall (r : fetch_result unit) message,
          outcome PUT r = Rejected message ->
          systemConfig (updateSystemConfig_resume r (deleteLlm i true s))
          = systemConfig (deleteLlm i true s)
          /\ requests (updateSystemConfig_resume r (deleteLlm i true s))
             = requests (deleteLlm i true s))
    /\ exists c1 c2,
         systemConfig (deleteLlm i true s) = Some c1
         /\ nth_error (SystemConfig.llm_configs c1) j
            = nth_error (SystemConfig.llm_configs c) (S j)
         /\ systemConfig (deleteLlm j true (deleteLlm i true s)) = Some c2
         /\ forall k,
              nth_error (SystemConfig.llm_configs c2) k
              = if k <? i then nth_error (SystemConfig.llm_configs c) k
                else if k <? j then nth_error (SystemConfig.llm_configs c) (S k)
                else nth_error (SystemConfig.llm_configs c) (S (S k)).
Proof.
  intros i j s c H Hij. split; [|split].
  - intros row Hrow.
    destruct (nth_error_llm_rows _ 0 j row Hrow) as [Hi [llm [Hl Hn]]].
    split; [exact Hi|]. now rewrite Hl, Hn.
  - intros r message Hr. unfold updateSystemConfig_resume. now settle.
  - exists (SystemConfig.with_llm_configs (splice1 i (SystemConfig.llm_configs c)) c).
    exists (SystemConfig.with_llm_configs
              (splice1 j (splice1 i (SystemConfig.llm_configs c))) c).
    assert (E1 : systemConfig (deleteLlm i true s)
                 = Some (SystemConfig.with_llm_configs
                           (splice1 i (SystemConfig.llm_configs c)) c)).
    { unfold deleteLlm. now rewrite H. }
    split; [exact E1|]. split; [|split].
    + cbn [SystemConfig.llm_configs SystemConfig.with_llm_configs].
      rewrite nth_error_splice1.
      destruct (j <? i) eqn:E; [apply Nat.ltb_lt in E; lia | reflexivity].
    + unfold deleteLlm at 1. now rewrite E1.
    + intros k. cbn [SystemConfig.llm_configs SystemConfig.with_llm_configs].
      rewrite !nth_error_splice1.
      destruct (k <? j) eqn:Ekj; destruct (k <? i) eqn:Eki;
        destruct (S k <? i) eqn:Eski; try reflexivity;
        rewrite ?Nat.ltb_lt, ?Nat.ltb_ge in *; lia.
Qed.

Lemma rows_drawn_witness :
  let c := SystemConfig.with_llm_configs
             [ LlmConfig.mk "a" "k1" "" "m1" [];
               LlmConfig.mk "b" "k2" "" "m2" [];
               LlmConfig.mk "c" "k3" "" "m3" [] ] mock_systemConfig in
  let s := loadSystemConfig_resume (HttpOk (Parsed c)) initial in
  systemConfig s = Some c
  /\ 0 <= 1
  /\ exists c2,
       systemConfig (deleteLlm 1 true (deleteLlm 0 true s)) = Some c2
       /\ map LlmConfig.name (SystemConfig.llm_configs c2) = ["b"].
Proof.
  intros c s.
  assert (H : systemConfig s = Some c) by reflexivity.
  assert (L : 0 <= 1) by lia.
  split; [exact H|]. split; [exact L|].
  destruct (proj2 (proj2 (rows_drawn_before_a_deletion_point_one_entry_too_far
                            0 1 s c H L))) as [c1 [c2 [_ [_ [E2 _]]]]].
  exists c2. split; [exact E2|].
  vm_compute in E2. injection E2 as <-. reflexivity.
Defined.

(** ** What the configuration panels show *)

Lemma llm_rows_same_but_keys (l l' : list LlmConfig.t) (index : nat) :
  Forall2 same_but_keys l l' -> llm_rows index l = llm_rows index l'.
Proof.
  intros H. revert index.
  induction H as [|a b l l' [Hn [Hu Hm]] _ IH]; intros index; [reflexivity|].
  cbn [llm_rows]. now rewrite Hn, Hu, Hm, IH.
Qed.

Lemma llm_rows_masked (l : list LlmConfig.t) (index : nat) :
  Forall (fun row => LlmRow.api_key row = "***") (llm_rows index l)
  /\ List.length (llm_rows index l) = List.length l.
Proof.
  revert index. induction l as [|llm r IH]; intros index; cbn [llm_rows].
  - now split.
  - destruct (IH (S index)) as [Hf Hl]. split; [now constructor | cbn; now rewrite Hl].
Qed.

Lemma nth_error_db_rows (l : list DbConfig.t) (index j : nat) (db : DbConfig.t) :
  nth_error l j = Some db ->
  nth_error (db_rows index l) j
  = Some (DbRow.mk (index + j) (DbConfig.type db)
            (or_else (Some (DbConfig.connection_string db)) "-")).
Proof.
  revert index j. induction l as [|d r IH]; intros index j H.
  - now destruct j.
  - destruct j as [|j]; cbn [db_rows nth_error] in H |- *.
    + injection H as ->. now rewrite Nat.add_0_r.
    + rewrite (IH (S index) j H). do 2 f_equal. lia.
Qed.

(** The panel of model configurations is the same for two configurations
    that differ in the API keys (or the default parameters) of their models
    only: a key never reaches the page, every row shows the three asterisks
    in its place, and there is one row for each model.  The panel of
    database configurations, in contrast, shows each connection string as it
    is stored. *)
Theorem api_keys_never_reach_the_page :
  forall (c c' : SystemConfig.t),
    Forall2 same_but_keys (SystemConfig.llm_configs c) (SystemConfig.llm_configs c') ->
    renderLlmConfigs c = renderLlmConfigs c'
    /\ (forall rows,
          renderLlmConfigs c = Rows rows ->
          Forall (fun row => LlmRow.api_key row = "***") rows
          /\ List.length rows = List.length (SystemConfig.llm_configs c))
    /\ (forall j db,
          nth_error (SystemConfig.database_configs c) j = Some db ->
          DbConfig.connection_string db <> "" ->
          exists rows,
            renderDatabaseConfigs c = Rows rows
            /\ nth_error rows j
               = Some (DbRow.mk j (DbConfig.type db) (DbConfig.connection_string db))).
Proof.
  intros c c' H. split; [|split].
  - unfold renderLlmConfigs.
    rewrite (llm_rows_same_but_keys _ _ 0 H).
    now destruct H.
  - intros rows E. unfold renderLlmConfigs in E.
    destruct (SystemConfig.llm_configs c) as [|llm r] eqn:El; [discriminate|].
    injection E as <-. exact (llm_rows_masked (llm :: r) 0).
  - intros j db Hj Hne. unfold renderDatabaseConfigs.
    destruct (SystemConfig.database_configs c) as [|d r] eqn:Ed;
      [now destruct j|].
    eexists. split; [reflexivity|].
    rewrite (nth_error_db_rows _ 0 j db Hj).
    unfold or_else. now rewrite (truthy_nonempty _ Hne).
Qed.

Lemma api_keys_witness :
  let secret :=
    SystemConfig.with_llm_configs
      [LlmConfig.mk "default_llm" "sk-live-1234" "https://api.example.com"
         "example-model" []] mock_systemConfig in
  Forall2 same_but_keys (SystemConfig.llm_configs secret)
    (SystemConfig.llm_configs mock_systemConfig)
  /\ renderLlmConfigs secret = renderLlmConfigs mock_systemConfig.
Proof.
  intros secret.
  assert (H : Forall2 same_but_keys (SystemConfig.llm_configs secret)
                (SystemConfig.llm_configs mock_systemConfig)).
  { repeat constructor. }
  split; [exact H|].
  exact (proj1 (api_keys_never_reach_the_page secret mock_systemConfig H)).
Defined.

(** ** Saving the general settings *)

Lemma last_request_saveGeneralSettings (logLevel cacheDir : string) (s : app)
    (c : SystemConfig.t) :
  systemConfig s = Some c ->
  last_request (saveGeneralSettings logLevel cacheDir s)
  = Some (Request.mk "/api/v1/system/config" PUT
            (Some (BodyConfig
                     (SystemConfig.with_cache_dir cacheDir
                        (SystemConfig.with_log_level logLevel c)))))
  /\ systemConfig (saveGeneralSettings logLevel cacheDir s)
     = Some (SystemConfig.with_cache_dir cacheDir
               (SystemConfig.with_log_level logLevel c)).
Proof.
  intros H. unfold saveGeneralSettings. rewrite H. cbv zeta.
  now rewrite last_request_apiRequest.
Qed.

(** Saving the general settings as [renderGeneralSettings] wrote them, with
    neither input touched, sends the configuration back as it was loaded,
    models and keys and databases included, and leaves the stored one as it
    is; but for a configuration loaded with an empty log level, which goes
    back with the level [INFO] that the input showed in its place. *)
Theorem untouched_settings_are_saved_as_loaded :
  forall (s : app) (c : SystemConfig.t),
    systemConfig s = Some c ->
    let logLevel := fst (renderGeneralSettings c) in
    let cacheDir := snd (renderGeneralSettings c) in
    (SystemConfig.log_level c <> "" ->
     last_request (saveGeneralSettings logLevel cacheDir s)
     = Some (Request.mk "/api/v1/system/config" PUT (Some (BodyConfig c)))
     /\ systemConfig (saveGeneralSettings logLevel cacheDir s) = Some c)
    /\ (SystemConfig.log_level c = "" ->
        last_request (saveGeneralSettings logLevel cacheDir s)
        = Some (Request.mk "/api/v1/system/config" PUT
                  (Some (BodyConfig (SystemConfig.with_log_level "INFO" c))))).
Proof.
  intros s c H logLevel cacheDir.
  destruct (last_request_saveGeneralSettings logLevel cacheDir s c H) as [Hr Hs].
  assert (Hc : cacheDir = SystemConfig.cache_dir c).
  { subst cacheDir. unfold renderGeneralSettings, or_else. cbn [snd].
    now destruct (SystemConfig.cache_dir c). }
  split.
  - intros Hne.
    assert (Hl : logLevel = SystemConfig.log_level c).
    { subst logLevel. unfold renderGeneralSettings, or_else. cbn [fst].
      now rewrite (truthy_nonempty _ Hne). }
    rewrite Hr, Hs, Hc, Hl. now destruct c.
  - intros He.
    assert (Hl : logLevel = "INFO").
    { subst logLevel. unfold renderGeneralSettings, or_else. cbn [fst].
      now rewrite He. }
    rewrite Hr, Hc, Hl. now destruct c.
Qed.

Lemma untouched_settings_witness :
  let s := loadSystemConfig_resume (HttpOk (Parsed mock_systemConfig)) initial in
  systemConfig s = Some mock_systemConfig
  /\ systemConfig (saveGeneralSettings "INFO" "/tmp/oxygent_cache" s)
     = Some mock_systemConfig.
Proof.
  intros s.
  assert (H : systemConfig s = Some mock_systemConfig) by reflexivity.
  split; [exact H|].
  refine (proj2 (proj1 (untouched_settings_are_saved_as_loaded s mock_systemConfig H) _)).
  discriminate.
Defined.

(** When the configuration could not be loaded, the page holds the
    demonstration configuration in its place, and the actions of the page
    send it to the server: a save of the general settings puts the
    demonstration models and databases with the two values of the form, a
    deletion puts what is left of the demonstration configuration. *)
Theorem after_a_failed_load_the_demonstration_configuration_is_sent :
  forall (r : fetch_result SystemConfig.t) (s : app) (message logLevel cacheDir : string),
    outcome GET r = Rejected message ->
    let s' := loadSystemConfig_resume r s in
    last_request (saveGeneralSettings logLevel cacheDir s')
    = Some (Request.mk "/api/v1/system/config" PUT
              (Some (BodyConfig
                       (SystemConfig.mk
                          (SystemConfig.llm_configs mock_systemConfig)
                          (SystemConfig.database_configs mock_systemConfig)
                          logLevel cacheDir
                          (SystemConfig.additional_config mock_systemConfig)))))
    /\ last_request (deleteLlm 0 true s')
       = Some (Request.mk "/api/v1/system/config" PUT
                 (Some (BodyConfig
                          (SystemConfig.with_llm_configs [] mock_systemConfig))))
    /\ last_request (deleteDatabase 0 true s')
       = Some (Request.mk "/api/v1/system/config" PUT
                 (Some (BodyConfig
                          (SystemConfig.with_database_configs [] mock_systemConfig)))).
Proof.
  intros r s message logLevel cacheDir H s'.
  assert (E : systemConfig s' = Some mock_systemConfig).
  { subst s'. unfold loadSystemConfig_resume. now settle. }
  split; [|split].
  - now rewrite (proj1 (last_request_saveGeneralSettings logLevel cacheDir s' _ E)).
  - unfold deleteLlm. rewrite E. now apply last_request_updateSystemConfig.
  - unfold deleteDatabase. rewrite E. now apply last_request_updateSystemConfig.
Qed.

Lemma after_a_failed_load_witness :
  outcome GET (unreachable : fetch_result SystemConfig.t) = Rejected "Failed to fetch"
  /\ option_map Request.method
       (last_request (saveGeneralSettings "DEBUG" "/var/cache"
                        (loadSystemConfig_resume unreachable initial)))
     = Some PUT.
Proof.
  split; [reflexivity|].
  now rewrite (proj1 (after_a_failed_load_the_demonstration_configuration_is_sent
                        unreachable initial "Failed to fetch" "DEBUG" "/var/cache"
                        eq_refl)).
Defined.

(** ** The options of the dialog *)

Lemma selected_values_fresh {A} (value text : A -> string) (l : list A) :
  Opt.selected_values (map (fun a => Opt.fresh (value a) (text a)) l) = [].
Proof. induction l as [|a l IH]; [reflexivity | exact IH]. Qed.

Lemma get_value_first_selected (l : list Opt.t) :
  Opt.get_value (Opt.first_selected l)
  = match l with [] => "" | o :: _ => Opt.value o end.
Proof. now destruct l. Qed.

(** The options of the three selects are rebuilt from scratch whenever
    they are loaded, and rebuilt unselected: whatever was selected before,
    by the user or by an open-for-edit that populated the form while the
    requests of an open-for-create were still in flight, is lost.  Once the
    tools have settled a save sends no tool, once the sub-agents are rebuilt
    it sends no sub-agent, and once the models have settled it sends the
    first model listed, in each case until a new selection is made.  The
    rest of the form and the session are not touched. *)
Theorem rebuilt_options_lose_the_selection :
  forall (s : app),
    (forall r : fetch_result (list Tool.t),
        AgentData.tools (agentData (agent_form (loadToolsForAgent_resume r s))) = []
        /\ AgentForm.set_agent_tools [] (agent_form (loadToolsForAgent_resume r s))
           = AgentForm.set_agent_tools [] (agent_form s)
        /\ editingAgentId (loadToolsForAgent_resume r s) = editingAgentId s)
    /\ AgentData.sub_agents (agentData (agent_form (loadAgentsForSubAgents s))) = []
    /\ map Opt.value (AgentForm.agent_sub_agents (agent_form (loadAgentsForSubAgents s)))
       = map Agent.id (agents s)
    /\ (forall r : fetch_result SystemConfig.t,
          AgentData.llm_model (agentData (agent_form (loadLlmModels_resume r s)))
          = match map Opt.value
                    (AgentForm.agent_llm_model (agent_form (loadLlmModels_resume r s)))
            with
            | [] => ""
            | first :: _ => first
            end
          /\ AgentForm.set_agent_llm_model [] (agent_form (loadLlmModels_resume r s))
             = AgentForm.set_agent_llm_model [] (agent_form s)
          /\ editingAgentId (loadLlmModels_resume r s) = editingAgentId s).
Proof.
  intros s. split; [|split; [|split]].
  - intros r. unfold loadToolsForAgent_resume.
    destruct (apiRequest_resume GET r s) as [s1 [tools|message]] eqn:E;
      pose proof (f_equal fst E) as E1; cbn [fst] in E1;
      assert (Hf : agent_form s1 = agent_form s)
        by (rewrite <- E1; destruct r as [|[]|[]]; reflexivity);
      assert (He : editingAgentId s1 = editingAgentId s)
        by (rewrite <- E1; destruct r as [|[]|[]]; reflexivity);
      (split; [|split; [|exact He]]).
    + apply (selected_values_fresh Tool.id Tool.name).
    + cbn. now rewrite Hf.
    + reflexivity.
    + cbn. now rewrite Hf.
  - apply (selected_values_fresh Agent.id Agent.name).
  - cbn. rewrite map_map. reflexivity.
  - intros r. unfold loadLlmModels_resume.
    destruct (apiRequest_resume GET r s) as [s1 [c|message]] eqn:E;
      pose proof (f_equal fst E) as E1; cbn [fst] in E1;
      assert (Hf : agent_form s1 = agent_form s)
        by (rewrite <- E1; destruct r as [|[]|[]]; reflexivity);
      assert (He : editingAgentId s1 = editingAgentId s)
        by (rewrite <- E1; destruct r as [|[]|[]]; reflexivity);
      (split; [|split; [|exact He]]).
    + cbn -[Opt.first_selected]. rewrite get_value_first_selected.
      now destruct (SystemConfig.llm_configs c).
    + cbn. now rewrite Hf.
    + reflexivity.
    + cbn. now rewrite Hf.
Qed.

(** ** The agents of a workflow *)

Lemma agent_label_cons (a : Agent.t) (agents : list Agent.t) (id : string) :
  agent_label (a :: agents) id
  = if String.eqb (Agent.id a) id then Agent.name a else agent_label agents id.
Proof. unfold agent_label. cbn [find]. now destruct (String.eqb (Agent.id a) id). Qed.

Lemma names_cons_other (a : Agent.t) (agents : list Agent.t) (id label : string) :
  Agent.id a <> id -> names (a :: agents) id label <-> names agents id label.
Proof.
  intros Hne. split.
  - intros [[pre [b [post [E [Hb [Hpre Hl]]]]]] | [Hnone Hl]].
    + destruct pre as [|p pre]; cbn in E; injection E as -> ->.
      * contradiction.
      * left. exists pre, b, post. repeat split; try assumption.
        intros c Hc. apply Hpre. now right.
    + right. split; [|exact Hl]. intros b Hb. apply Hnone. now right.
  - intros [[pre [b [post [-> [Hb [Hpre Hl]]]]]] | [Hnone Hl]].
    + left. exists (a :: pre), b, post. repeat split; try assumption.
      intros c [<- | Hc]; [exact Hne | now apply Hpre].
    + right. split; [|exact Hl]. intros b [<- | Hb]; [exact Hne | now apply Hnone].
Qed.

(** The label the script computes is the one label that names the id. *)
Lemma names_agent_label (agents : list Agent.t) (id label : string) :
  names agents id label <-> label = agent_label agents id.
Proof.
  induction agents as [|a agents IH].
  - split.
    + intros [[pre [b [post [E _]]]] | [_ ->]]; [|reflexivity].
      now destruct pre.
    + intros ->. right. split; [intros b []|reflexivity].
  - rewrite agent_label_cons.
    destruct (String.eqb_spec (Agent.id a) id) as [Ha | Ha].
    + split.
      * intros [[pre [b [post [E [Hb [Hpre Hl]]]]]] | [Hnone _]].
        -- destruct pre as [|p pre]; cbn in E; injection E as E1 E2.
           ++ congruence.
           ++ destruct (Hpre p (or_introl eq_refl)). congruence.
        -- now destruct (Hnone a (or_introl eq_refl)).
      * intros ->. left. exists [], a, agents. repeat split; [exact Ha|].
        intros b [].
    + rewrite (names_cons_other a agents id label Ha). exact IH.
Qed.

Lemma names_map (agents : list Agent.t) (agentIds labels : list string) :
  Forall2 (names agents) agentIds labels
  <-> labels = map (agent_label agents) agentIds.
Proof.
  split.
  - intros H. induction H as [|id label ids ls Hn _ IH]; [reflexivity|].
    cbn [map]. apply names_agent_label in Hn. now rewrite Hn, IH.
  - intros ->. induction agentIds as [|id ids IH]; constructor;
      [now apply names_agent_label | exact IH].
Qed.

(** How a workflow's agents are named in its row.  The text is the labels
    of the workflow's agent ids, one for each id and in the order of the
    ids, joined by a comma and a space.  The label of an id is the name of
    the first stored agent with that id, or the word Agent followed by the
    id when the store holds no agent with it; no other list of labels fits.
    A workflow without agents shows a dash. *)
Theorem workflow_agents_are_named_from_the_store :
  forall (agents : list Agent.t) (agentIds : list string),
    agentIds <> [] ->
    (exists labels,
        formatAgentsList agents agentIds = join ", " labels
        /\ Forall2 (names agents) agentIds labels
        /\ (forall others, Forall2 (names agents) agentIds others -> others = labels))
    /\ formatAgentsList agents [] = "-".
Proof.
  intros agents agentIds Hne. split; [|reflexivity].
  exists (map (agent_label agents) agentIds). split; [|split].
  - unfold formatAgentsList. now destruct agentIds.
  - now apply names_map.
  - intros others H. now apply names_map.
Qed.

Lemma workflow_agents_witness :
  ["1"; "2"; "9"] <> []
  /\ formatAgentsList mock_agents ["1"; "2"; "9"]
     = "time_agent, weather_agent, Agent 9"
  /\ exists labels,
       formatAgentsList mock_agents ["1"; "2"; "9"] = join ", " labels
       /\ Forall2 (names mock_agents) ["1"; "2"; "9"] labels.
Proof.
  assert (H : ["1"; "2"; "9"] <> []) by discriminate.
  split; [exact H|]. split; [reflexivity|].
  destruct (proj1 (workflow_agents_are_named_from_the_store mock_agents
                     ["1"; "2"; "9"] H)) as [labels [E [Hn _]]].
  exists labels. split; [exact E | exact Hn].
Defined.

(** ** The requests of a session *)

Ltac requests_of_the_source :=
  cbn [requests set_agents set_editingAgentId set_workflows set_systemConfig
       set_tools set_agent_form set_agent_list set_workflow_list set_tool_list
       set_toasts set_alerts set_requests set_pending apiRequest showToast
       alert on_form renderAgents renderTools renderWorkflows];
  rewrite <- ?app_assoc; cbn [List.app].

Ltac is_api_call :=
  split;
  [ apply prefix_app; eexists; reflexivity
  | cbn [Request.method Request.body]; intros [?|?];
    solve [reflexivity | discriminate] ].

Ltac is_reload :=
  split; [reflexivity|]; split; [reflexivity|];
  cbn [Request.url In];
  first [ left; reflexivity | right; left; reflexivity
        | right; right; left; reflexivity
        | right; right; right; left; reflexivity ].

Ltac issued P tac :=
  requests_of_the_source;
  first [ exists []; split; [symmetry; apply app_nil_r | constructor]
        | eexists; split; [reflexivity | repeat (constructor; [tac|]); constructor] ].

Lemma issues_perform (c : call) (s : app) : issues api_call s (perform c s).
Proof.
  unfold issues.
  destruct c; by_cases_of_the_source; issued api_call is_api_call.
Qed.

Lemma issues_resume (k : kont) (r : fetch_result (response k)) (s : app) :
  exists l, requests (resume k r s) = requests s ++ l
            /\ Forall reload l /\ List.length l <= 1.
Proof.
  destruct k as [ | | | agentId | [|] | | | | | | | | | | | | | | ];
    cbn [response] in r; by_cases_of_the_source;
    requests_of_the_source;
    first [ exists []; split; [symmetry; apply app_nil_r | split; [constructor | cbn; lia]]
          | eexists [_]; split; [reflexivity | split; [repeat (constructor; [is_reload|]); constructor | cbn; lia]] ].
Qed.

Lemma reload_api_call (q : Request.t) : reload q -> api_call q.
Proof.
  intros [Hm [Hb Hu]]. split; [|intros _; exact Hb].
  cbn [In] in Hu. destruct Hu as [<-|[<-|[<-|[<-|[]]]]]; reflexivity.
Qed.

Lemma requests_settled (rid : nat) (s : app) : requests (settled rid s) = requests s.
Proof. reflexivity. Qed.

Lemma api_calls_step (e : event) (s s' : app) :
  step e s = Some s' -> Forall api_call (requests s) -> Forall api_call (requests s').
Proof.
  intros Hs H. destruct e as [c | rid k r]; cbn [step] in Hs.
  - injection Hs as <-. destruct (issues_perform c s) as [l [-> Hl]].
    apply Forall_app. now split.
  - destruct (awaits rid k s); [|discriminate]. injection Hs as <-.
    destruct (issues_resume k r (settled rid s)) as [l [-> [Hl _]]].
    rewrite requests_settled. apply Forall_app. split; [exact H|].
    eapply Forall_impl; [|exact Hl]. exact reload_api_call.
Qed.

Lemma api_calls_run (events : list event) (s s' : app) :
  run events s = Some s' -> Forall api_call (requests s) -> Forall api_call (requests s').
Proof.
  revert s. induction events as [|e rest IH]; intros s Hr H; cbn [run] in Hr.
  - now injection Hr as <-.
  - destruct (step e s) as [s1|] eqn:E; [|discriminate].
    apply (IH s1 Hr). exact (api_calls_step e s s1 E H).
Qed.

(** Whatever the administrator does and however the requests settle, every
    request the page has issued goes to an address under the base address of
    the API, and none that gets or deletes carries a body.  The log of
    requests only grows.  A settling request, whichever it is and however it
    ends, makes the page issue at most one further request, and only ever a
    reload: the [GET] of one of the four collections.  So every request that
    changes something on the server is issued by an action of the
    administrator, and none by the page on its own. *)
Theorem the_page_only_reloads_on_its_own :
  forall (events : list event) (s : app),
    run events initial = Some s ->
    Forall api_call (requests s)
    /\ (forall c, issues api_call s (perform c s))
    /\ (forall rid k r,
          awaits rid k s = true ->
          exists l,
            requests (resume k r (settled rid s)) = requests s ++ l
            /\ Forall reload l /\ List.length l <= 1).
Proof.
  intros events s Hr. split; [|split].
  - apply (api_calls_run events initial s Hr). constructor.
  - intros c. apply issues_perform.
  - intros rid k r _. rewrite <- (requests_settled rid s). apply issues_resume.
Qed.

Lemma the_page_only_reloads_witness :
  match run [Call Start; Call (DeleteAgent "1" true);
             Settle 4 KDeleteAgent (HttpOk (Unparsable "Unexpected end of JSON input"))]
          initial with
  | Some s =>
      map Request.method (requests s) = [GET; GET; GET; GET; DELETE; GET]
      /\ Forall api_call (requests s)
  | None => False
  end.
Proof.
  destruct (run [Call Start; Call (DeleteAgent "1" true);
                 Settle 4 KDeleteAgent
                   (HttpOk (Unparsable "Unexpected end of JSON input"))] initial)
    as [s|] eqn:E; [|vm_compute in E; discriminate].
  split; [|exact (proj1 (the_page_only_reloads_on_its_own _ s E))].
  vm_compute in E. injection E as <-. reflexivity.
Defined.

(** ** After a successful update of the configuration *)

(** When the [PUT] of a deletion succeeds, the success notification is
    shown and the configuration is requested again; the page goes on with
    the configuration it changed itself until that reload settles, and then
    holds whatever the reload gave: the backend's answer, or, when the
    reload fails, the demonstration configuration in place of the one just
    saved.  A successful save of the general settings, in contrast, shows
    its notification and requests nothing. *)
Theorem the_reload_after_an_update_decides_the_configuration :
  forall (s : app) (r : fetch_result unit) (v : unit)
         (answer : fetch_result SystemConfig.t),
    outcome PUT r = Resolved v ->
    let s1 := updateSystemConfig_resume r s in
    let s2 := loadSystemConfig_resume answer s1 in
    toasts s1 = toasts s ++ [("Configuration updated successfully", success)]
    /\ requests s1 = requests s ++ [Request.mk "/api/v1/system/config" GET None]
    /\ systemConfig s1 = systemConfig s
    /\ (forall c, outcome GET answer = Resolved c -> systemConfig s2 = Some c)
    /\ (forall message,
          outcome GET answer = Rejected message ->
          systemConfig s2 = Some mock_systemConfig)
    /\ saveGeneralSettings_resume r s
       = showToast "Settings saved successfully" success s.
Proof.
  intros s r v answer H s1 s2.
  assert (E1 : s1 = loadSystemConfig
                      (showToast "Configuration updated successfully" success s)).
  { subst s1. unfold updateSystemConfig_resume. now settle. }
  split; [now rewrite E1|]. split; [now rewrite E1|]. split; [now rewrite E1|].
  split; [|split].
  - intros c Hc. subst s2. unfold loadSystemConfig_resume. now settle.
  - intros message Hm. subst s2. unfold loadSystemConfig_resume. now settle.
  - unfold saveGeneralSettings_resume. now settle.
Qed.

Lemma the_reload_after_an_update_witness :
  let s := deleteLlm 0 true
             (loadSystemConfig_resume (HttpOk (Parsed mock_systemConfig)) initial) in
  let done : fetch_result unit := HttpOk (Parsed tt) in
  outcome PUT done = Resolved tt
  /\ option_map SystemConfig.llm_configs (systemConfig s) = Some []
  /\ systemConfig (loadSystemConfig_resume unreachable (updateSystemConfig_resume done s))
     = Some mock_systemConfig.
Proof.
  intros s done. split; [reflexivity|]. split; [reflexivity|].
  exact (proj1 (proj2 (proj2 (proj2 (proj2
           (the_reload_after_an_update_decides_the_configuration s done tt
              unreachable eq_refl))))) "Failed to fetch" eq_refl).
Defined.
